(** * ConnectFourBack: a shallow embedding of the server and its checked properties

    The repository has three files: the storage layer [db.js], the business
    layer [logic.js] and the HTTP/WebSocket server.  Each is embedded below in
    a module of its own ([Db], [Logic], [Server]); [JS] holds the few pieces
    of the JavaScript runtime the code leans on (dynamic values, truthiness,
    strict equality, identifier resolution, exceptions). *)

From Stdlib Require Import ZArith Ascii DecimalString Lia.
From stdpp Require Import base numbers option list strings pretty gmap sets.

Local Open Scope Z_scope.

(** * The JavaScript runtime, as far as the code uses it *)

Module JS.

(** Primitive values: what a JSON field, a query parameter or a column of a
    result row can hold. *)
Inductive jsval : Type :=
  | JUndefined
  | JNull
  | JBool (b : bool)
  | JNum (n : Z)
  | JStr (s : string).

#[global] Instance jsval_eq_dec : EqDecision jsval.
Proof. solve_decision. Defined.

Definition jsval_to_sum (v : jsval) : (bool + bool) + (Z + string) :=
  match v with
  | JUndefined => inl (inl false)
  | JNull => inl (inl true)
  | JBool b => inl (inr b)
  | JNum n => inr (inl n)
  | JStr s => inr (inr s)
  end.

Definition jsval_of_sum (x : (bool + bool) + (Z + string)) : jsval :=
  match x with
  | inl (inl false) => JUndefined
  | inl (inl true) => JNull
  | inl (inr b) => JBool b
  | inr (inl n) => JNum n
  | inr (inr s) => JStr s
  end.

#[global] Instance jsval_countable : Countable jsval.
Proof.
  refine (inj_countable' jsval_to_sum jsval_of_sum _).
  intros []; reflexivity.
Defined.

(** [if (v)] and [!v]. *)
Definition truthy (v : jsval) : bool :=
  match v with
  | JUndefined | JNull => false
  | JBool b => b
  | JNum n => negb (n =? 0)
  | JStr s => negb (bool_decide (s = ""))
  end.

(** [a === b]; [Map] keys are compared the same way on these values. *)
Definition strict_eq (a b : jsval) : bool := bool_decide (a = b).

(** [String(v)]. *)
Definition to_String (v : jsval) : string :=
  match v with
  | JUndefined => "undefined"
  | JNull => "null"
  | JBool true => "true"
  | JBool false => "false"
  | JNum n => pretty n
  | JStr s => s
  end.

(** Exceptions the code can raise. *)
Inductive js_error : Type :=
  | SyntaxError (what : string)
  | ReferenceError (ident : string)      (* "<ident> is not defined" *)
  | TypeError (what : string).

#[global] Instance js_error_eq_dec : EqDecision js_error.
Proof. solve_decision. Defined.

(** The completion of a statement or call: a value, or a raised exception. *)
Inductive completion (A : Type) : Type :=
  | Normal (a : A)
  | Throw (e : js_error).
Arguments Normal {A} a.
Arguments Throw {A} e.

(** ** Identifier resolution

    A scope lists the bindings that are visible at a program point, innermost
    first.  Reading an identifier that no enclosing scope binds raises a
    [ReferenceError]. *)

(** What a binding can hold: a primitive, a board (an array of arrays), or a
    host object we do not look into (a function, a pool, a [Map], ...). *)
Inductive binding_value (B : Type) : Type :=
  | Prim (v : jsval)
  | Arr (b : B)
  | Host.
Arguments Prim {B} v.
Arguments Arr {B} b.
Arguments Host {B}.

Definition scope (B : Type) : Type := list (string * binding_value B).

Fixpoint ident {B} (sc : scope B) (x : string) : completion (binding_value B) :=
  match sc with
  | [] => Throw (ReferenceError x)
  | (y, v) :: sc' => if bool_decide (x = y) then Normal v else ident sc' x
  end.

(** Calling a function binds its formal parameters, in order, to the
    arguments; surplus arguments are dropped and missing ones are
    [undefined]. *)
Fixpoint bind_params {B} (params : list string) (args : list (binding_value B))
    : scope B :=
  match params with
  | [] => []
  | p :: ps =>
      match args with
      | [] => (p, Prim JUndefined) :: bind_params ps []
      | a :: args' => (p, a) :: bind_params ps args'
      end
  end.

Definition hosts {B} (names : list string) : scope B :=
  (λ x, (x, Host)) <$> names.

(** Names every Node.js module sees besides its own. *)
Definition node_globals : list string :=
  ["require"; "module"; "exports"; "__filename"; "__dirname"; "console";
   "process"; "JSON"; "String"; "Math"; "Array"; "Object"; "Date"; "Map";
   "Set"; "Promise"; "URLSearchParams"; "globalThis"; "undefined"].

End JS.
Export JS.

(** * The board *)

Module Board.

(** A cell holds [null] or one of the two marks, ["red"] and ["yellow"]. *)
Inductive color : Type := Red | Yellow.

#[global] Instance color_eq_dec : EqDecision color.
Proof. solve_decision. Defined.

Definition cell : Type := option color.

(** [Array(6).fill(null).map(() => Array(7).fill(null))] *)
Definition initialBoard : list (list cell) := replicate 6 (replicate 7 None).

(** [board[row][col]]: a missing element reads as [undefined], which is as
    falsy as [null]; both are [None] here. *)
Definition cell_at (board : list (list cell)) (row col : nat) : cell :=
  match board !! row with
  | Some r => match r !! col with Some c => c | None => None end
  | None => None
  end.

(** [r[col] = mark]: an array assigned past its end grows, the gap reading as
    empty. *)
Definition row_assign (r : list cell) (col : nat) (mark : color) : list cell :=
  if decide (col < length r)%nat
  then <[col := Some mark]> r
  else r ++ replicate (col - length r) None ++ [Some mark].

(** [board[row][col] = mark] *)
Definition assign (board : list (list cell)) (row col : nat) (mark : color)
    : list (list cell) :=
  alter (λ r, row_assign r col mark) row board.

(** The drop loop of the move handler,
<<
    for (let row = board.length - 1; row >= 0; row--) {
        if (!board[row][col]) { board[row][col] = mark; placed = true; break; }
    }
>>
    with [n] the number of rows still to visit, so that the row visited is
    [n - 1].  It yields [placed] and the board; the loop variable does not
    outlive the loop. *)
Fixpoint drop_loop (board : list (list cell)) (n col : nat) (mark : color)
    : bool * list (list cell) :=
  match n with
  | O => (false, board)
  | S row =>
      match cell_at board row col with
      | None => (true, assign board row col mark)
      | Some _ => drop_loop board row col mark
      end
  end.

Definition drop_in_column (board : list (list cell)) (col : nat) (mark : color)
    : bool * list (list cell) :=
  drop_loop board (length board) col mark.

(** The grid of the data model: six rows of seven cells. *)
Definition six_by_seven (board : list (list cell)) : Prop :=
  length board = 6%nat ∧ Forall (λ r, length r = 7%nat) board.

#[global] Instance six_by_seven_dec board : Decision (six_by_seven board).
Proof. unfold six_by_seven. apply _. Defined.

End Board.
Export Board.

(** * The storage layer (db.js) *)

Module Db.

(** Rows of the three tables the code reads and writes.  Identifiers come
    back from the driver as JavaScript values; a column can be [NULL]. *)
Record user_row : Type := {
  user_id : Z;
  username : option string;
  password : option string;
}.

Record challenge_row : Type := {
  sender_id : jsval;
  challenger_id : jsval;
}.

Record game_row : Type := {
  player1_id : jsval;
  player2_id : jsval;
  current_turn : jsval;
  game_state : list (list cell);   (* stored as its JSON text *)
  winner_id : jsval;
}.

(** The prepared statements, with the parameters bound to them. *)
Inductive statement : Type :=
  | SelectUser (name : option string)
  | InsertUser (name : option string) (pass : string)
  | SelectChallenge (challenge_id : jsval)
  | SelectGame (game_id : jsval)
  | InsertGame (player1 player2 turn : jsval) (state : list (list cell))
  | UpdateGame (state : list (list cell)) (turn : jsval) (game_id : jsval).

(** The database: its tables, the counters behind [insertId], and the
    statements sent to it so far (oldest first). *)
Record t : Type := {
  users : list user_row;
  user_seq : Z;
  challenge : gmap Z challenge_row;
  game : gmap Z game_row;
  game_seq : Z;
  sent : list statement;
}.

(** A database with no rows; keys are handed out from 1. *)
Definition empty : t :=
  {| users := []; user_seq := 1; challenge := ∅; game := ∅; game_seq := 1;
     sent := [] |}.

(** Everything but the statement log. *)
Definition tables (d : t)
    : list user_row * Z * gmap Z challenge_row * gmap Z game_row * Z :=
  (users d, user_seq d, challenge d, game d, game_seq d).

Definition send (q : statement) (d : t) : t :=
  {| users := users d; user_seq := user_seq d; challenge := challenge d;
     game := game d; game_seq := game_seq d; sent := sent d ++ [q] |}.

(** A bound parameter compared with an integer key column: a number, or a
    string holding a decimal integer, selects the row with that key. *)
Definition row_key (v : jsval) : option Z :=
  match v with
  | JNum n => Some n
  | JStr s => Z.of_int <$> NilEmpty.int_of_string s
  | _ => None
  end.

(** [SELECT user_id, username, password FROM users WHERE username = ? LIMIT 1];
    a comparison with [NULL] is never true.  The row counts only when its
    password is non-empty. *)
Definition name_matches (name : option string) (r : user_row) : bool :=
  match name, username r with
  | Some n, Some m => bool_decide (n = m)
  | _, _ => false
  end.

Definition getUserWithUsername (name : option string) (d : t)
    : option user_row * t :=
  let results := filter (λ r, name_matches name r = true) (users d) in
  let user :=
    match head results with
    | Some u =>
        match password u with
        | Some p => if bool_decide (p = "") then None else Some u
        | None => None
        end
    | None => None
    end in
  (user, send (SelectUser name) d).

(** [INSERT INTO users (username, password) VALUES (?, ?)], returning
    [insertId].  The server expects [ER_DUP_ENTRY] for a taken name. *)
Inductive insert_result : Type :=
  | Inserted (insertId : Z)
  | DupEntry.

Definition addUser (name : option string) (pass : string) (d : t)
    : insert_result * t :=
  let d := send (InsertUser name pass) d in
  if bool_decide (Exists (λ r, name_matches name r = true) (users d))
  then (DupEntry, d)
  else
    (Inserted (user_seq d),
     {| users := users d ++
          [{| user_id := user_seq d; username := name; password := Some pass |}];
        user_seq := user_seq d + 1; challenge := challenge d; game := game d;
        game_seq := game_seq d; sent := sent d |}).

(** [SELECT sender_id, challenger_id FROM challenge WHERE challenge_id = ?],
    returning [result[0]]: the row, or [undefined] when there is none. *)
Definition getChallengeWithId (challengeId : jsval) (d : t)
    : option challenge_row * t :=
  (row_key challengeId ≫= λ k, challenge d !! k,
   send (SelectChallenge challengeId) d).

(** [SELECT * FROM game WHERE game_id = ? LIMIT 1], returning [result[0]]. *)
Definition getGameWithId (gameId : jsval) (d : t) : option game_row * t :=
  (row_key gameId ≫= λ k, game d !! k, send (SelectGame gameId) d).

(** [INSERT INTO game (player1_id, player2_id, current_turn, game_state)
    VALUES (userId, opponentId, userId, initialBoard)], returning [insertId].
    The driver refuses [undefined] as a bound parameter.  The row holds the
    values as they were bound; what a typed column would make of them is the
    schema's business and no property below depends on it. *)
Definition createGame (userId opponentId : jsval) (board : list (list cell))
    (d : t) : completion Z * t :=
  if bool_decide (userId = JUndefined ∨ opponentId = JUndefined)
  then (Throw (TypeError "Bind parameters must not contain undefined"), d)
  else
    let d := send (InsertGame userId opponentId userId board) d in
    (Normal (game_seq d),
     {| users := users d; user_seq := user_seq d; challenge := challenge d;
        game := <[game_seq d :=
                   {| player1_id := userId; player2_id := opponentId;
                      current_turn := userId; game_state := board;
                      winner_id := JNull |}]> (game d);
        game_seq := game_seq d + 1; sent := sent d |}).

(** [UPDATE game SET game_state = ?, current_turn = ? WHERE game_id = ?] *)
Definition run_update (state : list (list cell)) (turn gameId : jsval) (d : t)
    : t :=
  let d := send (UpdateGame state turn gameId) d in
  match row_key gameId with
  | Some k =>
      {| users := users d; user_seq := user_seq d; challenge := challenge d;
         game := alter (λ g, {| player1_id := player1_id g;
                                player2_id := player2_id g;
                                current_turn := turn;
                                game_state := state;
                                winner_id := winner_id g |}) k (game d);
         game_seq := game_seq d; sent := sent d |}
  | None => d
  end.

(** The bindings of the module: its two [require]d values and its functions. *)
Definition module_scope : scope (list (list cell)) :=
  hosts ["mysql"; "pool"; "getUserWithUsername"; "getUsernameById";
         "getAllUsernames"; "addUser"; "deleteUser"; "getStoredSessionToken";
         "addSessionToUser"; "getChallengeWithId"; "sendAChallenge";
         "sendChallengeResponse"; "getGameWithId"; "createGame";
         "updateGameState"]
  ++ hosts node_globals.

(** [updateGameState] is declared with no formal parameters:
<<
    async function updateGameState() {
        const [result] = pool.query("UPDATE game SET ...",
                                    [JSON.stringify(board), nextTurn, gameId]);
        return result.affectedRows;
    }
>>
    The body reads [board], [nextTurn] and [gameId] while it builds the
    parameter array, before [pool.query] is called.  Was the query ever
    issued, its promise, not awaited, would then be destructured as an
    array. *)
Definition updateGameState_params : list string := [].

Definition updateGameState (args : list (binding_value (list (list cell))))
    (d : t) : completion Z * t :=
  let sc := bind_params updateGameState_params args ++ module_scope in
  match ident sc "board" with
  | Throw e => (Throw e, d)
  | Normal board =>
      match ident sc "nextTurn" with
      | Throw e => (Throw e, d)
      | Normal nextTurn =>
          match ident sc "gameId" with
          | Throw e => (Throw e, d)
          | Normal gameId =>
              (Throw (TypeError "pool.query(...) is not iterable"),
               match board, nextTurn, gameId with
               | Arr b, Prim turn, Prim g => run_update b turn g d
               | _, _, _ => d
               end)
          end
      end
  end.

End Db.

(** * SHA-256, hex-encoded

    [crypto.createHash('sha256').update(value).digest('hex')] (FIPS 180-4),
    over 32-bit words held in [Z]. *)

Module SHA256.

Definition w32 (x : Z) : Z := x mod 2 ^ 32.
Definition add32 (a b : Z) : Z := w32 (a + b).
Definition not32 (x : Z) : Z := Z.lxor x 4294967295.
Definition rotr (n x : Z) : Z := Z.lor (Z.shiftr x n) (w32 (Z.shiftl x (32 - n))).

Definition Ch (x y z : Z) : Z := Z.lxor (Z.land x y) (Z.land (not32 x) z).
Definition Maj (x y z : Z) : Z :=
  Z.lxor (Z.lxor (Z.land x y) (Z.land x z)) (Z.land y z).
Definition Sigma0 (x : Z) : Z := Z.lxor (Z.lxor (rotr 2 x) (rotr 13 x)) (rotr 22 x).
Definition Sigma1 (x : Z) : Z := Z.lxor (Z.lxor (rotr 6 x) (rotr 11 x)) (rotr 25 x).
Definition sigma0 (x : Z) : Z := Z.lxor (Z.lxor (rotr 7 x) (rotr 18 x)) (Z.shiftr x 3).
Definition sigma1 (x : Z) : Z := Z.lxor (Z.lxor (rotr 17 x) (rotr 19 x)) (Z.shiftr x 10).

Definition K : list Z :=
  [1116352408; 1899447441; 3049323471; 3921009573; 961987163; 1508970993;
   2453635748; 2870763221; 3624381080; 310598401; 607225278; 1426881987;
   1925078388; 2162078206; 2614888103; 3248222580; 3835390401; 4022224774;
   264347078; 604807628; 770255983; 1249150122; 1555081692; 1996064986;
   2554220882; 2821834349; 2952996808; 3210313671; 3336571891; 3584528711;
   113926993; 338241895; 666307205; 773529912; 1294757372; 1396182291;
   1695183700; 1986661051; 2177026350; 2456956037; 2730485921; 2820302411;
   3259730800; 3345764771; 3516065817; 3600352804; 4094571909; 275423344;
   430227734; 506948616; 659060556; 883997877; 958139571; 1322822218;
   1537002063; 1747873779; 1955562222; 2024104815; 2227730452; 2361852424;
   2428436474; 2756734187; 3204031479; 3329325298].

(** The eight working words. *)
Record words8 : Type := W8 { wa : Z; wb : Z; wc : Z; wd : Z;
                             we : Z; wf : Z; wg : Z; wh : Z }.

Definition H0 : words8 :=
  W8 1779033703 3144134277 1013904242 2773480762
     1359893119 2600822924 528734635 1541459225.

(** The message as bytes, and its padding to whole 64-byte blocks. *)
Fixpoint bytes_of (s : string) : list Z :=
  match s with
  | EmptyString => []
  | String c s' => Z.of_N (N_of_ascii c) :: bytes_of s'
  end.

Definition be_bytes (n : nat) (x : Z) : list Z :=
  (λ i, (Z.shiftr x (8 * Z.of_nat i)) mod 256) <$> rev (seq 0 n).

Definition pad (msg : list Z) : list Z :=
  let len := Z.of_nat (length msg) in
  let zeros := Z.to_nat ((55 - len) mod 64) in
  msg ++ [128] ++ replicate zeros 0 ++ be_bytes 8 (8 * len).

Fixpoint be_words (n : nat) (bs : list Z) : list Z :=
  match n with
  | O => []
  | S n' =>
      match bs with
      | b0 :: b1 :: b2 :: b3 :: bs' =>
          (b0 * 16777216 + b1 * 65536 + b2 * 256 + b3) :: be_words n' bs'
      | _ => []
      end
  end.

(** The message schedule, most recent word first. *)
Fixpoint schedule (n : nat) (w : list Z) : list Z :=
  match n with
  | O => w
  | S n' =>
      let wt := add32 (add32 (sigma1 (nth 1 w 0)) (nth 6 w 0))
                      (add32 (sigma0 (nth 14 w 0)) (nth 15 w 0)) in
      schedule n' (wt :: w)
  end.

Definition round (s : words8) (kw : Z * Z) : words8 :=
  let t1 := add32 (add32 (add32 (wh s) (Sigma1 (we s)))
                         (add32 (Ch (we s) (wf s) (wg s)) (fst kw))) (snd kw) in
  let t2 := add32 (Sigma0 (wa s)) (Maj (wa s) (wb s) (wc s)) in
  W8 (add32 t1 t2) (wa s) (wb s) (wc s) (add32 (wd s) t1) (we s) (wf s) (wg s).

Definition compress (h : words8) (block : list Z) : words8 :=
  let w := rev (schedule 48 (rev (be_words 16 block))) in
  let s := foldl round h (zip K w) in
  W8 (add32 (wa h) (wa s)) (add32 (wb h) (wb s)) (add32 (wc h) (wc s))
     (add32 (wd h) (wd s)) (add32 (we h) (we s)) (add32 (wf h) (wf s))
     (add32 (wg h) (wg s)) (add32 (wh h) (wh s)).

Fixpoint blocks (n : nat) (h : words8) (bs : list Z) : words8 :=
  match n with
  | O => h
  | S n' => blocks n' (compress h (take 64 bs)) (drop 64 bs)
  end.

Definition hex_digit (x : Z) : ascii :=
  match x with
  | 0 => "0" | 1 => "1" | 2 => "2" | 3 => "3" | 4 => "4" | 5 => "5"
  | 6 => "6" | 7 => "7" | 8 => "8" | 9 => "9" | 10 => "a" | 11 => "b"
  | 12 => "c" | 13 => "d" | 14 => "e" | _ => "f"
  end%char.

Definition nibble (x : Z) (i : Z) : ascii := hex_digit ((Z.shiftr x (4 * i)) mod 16).

Definition hex8 (x : Z) (rest : string) : string :=
  String (nibble x 7) (String (nibble x 6) (String (nibble x 5)
  (String (nibble x 4) (String (nibble x 3) (String (nibble x 2)
  (String (nibble x 1) (String (nibble x 0) rest))))))).

Definition hex (h : words8) : string :=
  hex8 (wa h) (hex8 (wb h) (hex8 (wc h) (hex8 (wd h)
  (hex8 (we h) (hex8 (wf h) (hex8 (wg h) (hex8 (wh h) ""))))))).

Definition digest (msg : string) : string :=
  let bs := pad (bytes_of msg) in
  hex (blocks (length bs / 64)%nat H0 bs).

(** Lower-case hexadecimal text. *)
Definition is_hex (c : ascii) : bool :=
  let n := nat_of_ascii c in
  ((48 <=? n) && (n <=? 57) || (97 <=? n) && (n <=? 102))%nat.

Fixpoint all_hex (s : string) : bool :=
  match s with
  | EmptyString => true
  | String c s' => is_hex c && all_hex s'
  end.

End SHA256.


(** * The business layer (logic.js) *)

Module Logic.

(** ** Usernames *)

(** The character class [[a-zA-Z0-9_-]].  A string is held as its bytes; a
    character outside ASCII has no byte in the class, so it is stripped
    whichever way the text is encoded. *)
Definition allowed (c : ascii) : bool :=
  let n := nat_of_ascii c in
  ((97 <=? n) && (n <=? 122) || (65 <=? n) && (n <=? 90) ||
   (48 <=? n) && (n <=? 57) || (n =? 95) || (n =? 45))%nat.

(** [username.replace(/[^a-zA-Z0-9_-]/g, '')] *)
Fixpoint strip (s : string) : string :=
  match s with
  | EmptyString => EmptyString
  | String c s' => if allowed c then String c (strip s') else strip s'
  end.

Fixpoint all_allowed (s : string) : bool :=
  match s with
  | EmptyString => true
  | String c s' => allowed c && all_allowed s'
  end.

(** [/^[a-zA-Z0-9_-]{3,15}$/.test(username)] *)
Definition usernameRegex_test (s : string) : bool :=
  all_allowed s && (3 <=? String.length s)%nat && (String.length s <=? 15)%nat.

(** The result is the stripped name, or [null] ([None]). *)
Definition validateSanitizeUsername (username : string) : option string :=
  let username := strip username in
  let valid := usernameRegex_test username in
  if valid then Some username else None.

(** ** Accounts *)

(** The password primitive, [bcrypt.hash(value, 10)] and [bcrypt.compare]. *)
Class Bcrypt : Type := {
  bcrypt_hash : string → string;
  bcrypt_compare : string → string → bool;
}.

(** A stand-in to run the model with: the hash is the text itself. *)
Definition bcrypt_plain : Bcrypt :=
  {| bcrypt_hash := λ value, value;
     bcrypt_compare := λ password hash, bool_decide (password = hash) |}.

Section accounts.
Context `{Bcrypt}.

Definition hashString (value : string) : string := bcrypt_hash value.

Definition comparePasswords (password testPassHash : string) : bool :=
  bcrypt_compare password testPassHash.

Definition checkMatchingPasswords (password confirmPassword : string) : bool :=
  bool_decide (password = confirmPassword).

(** What [getUserWithUsernamePassword] returns: [{ error }] or the user row. *)
Inductive login_result : Type :=
  | LoginError (error : string)
  | LoginUser (user : Db.user_row).

Definition getUserWithUsernamePassword (username password : string) (d : Db.t)
    : login_result * Db.t :=
  if bool_decide (password = "")
  then (LoginError "Please enter a password!", d)
  else
    let username := validateSanitizeUsername username in
    let '(response, d) := Db.getUserWithUsername username d in
    match response with
    | None => (LoginError "Username or password incorrect!", d)
    | Some user =>
        let testPassword := default "" (Db.password user) in
        if comparePasswords password testPassword
        then (LoginUser user, d)
        else (LoginError "Username or password incorrect!", d)
    end.

(** What [addUser] returns: [{ error }], or what the storage layer answers. *)
Inductive add_result : Type :=
  | AddError (error : string)
  | AddStored (r : Db.insert_result).

Definition addUser (username password confirmPassword : string) (d : Db.t)
    : add_result * Db.t :=
  if bool_decide (password = "") || bool_decide (confirmPassword = "")
  then (AddError "Passwords are blank!", d)
  else
    let checkMatching := checkMatchingPasswords password confirmPassword in
    let passHash := hashString password in
    if negb checkMatching
    then (AddError "Passwords are not matching!", d)
    else
      let username := validateSanitizeUsername username in
      let password := passHash in
      let '(response, d) := Db.addUser username password d in
      (AddStored response, d).

End accounts.

(** ** Challenges and games *)

Definition getChallengeWithId (challengeId : jsval) (d : Db.t)
    : option Db.challenge_row * Db.t :=
  Db.getChallengeWithId challengeId d.

Definition getGameWithId (gameId : jsval) (d : Db.t)
    : option Db.game_row * Db.t :=
  Db.getGameWithId gameId d.

Definition createGame (userId opponentId : jsval) (d : Db.t)
    : completion Z * Db.t :=
  Db.createGame userId opponentId initialBoard d.

(** [DB.updateGameState(board, nextTurn, gameId)]: three arguments passed. *)
Definition updateGameState (board : list (list cell)) (nextTurn gameId : jsval)
    (d : Db.t) : completion Z * Db.t :=
  Db.updateGameState [Arr board; Prim nextTurn; Prim gameId] d.

(** ** Session tokens *)

(** [crypto.createHash('sha256').update(value).digest('hex')] *)
Definition hashTokenPart (value : string) : string := SHA256.digest value.

(** [hash[i]] as [+=] appends it: the character, or the text of [undefined]
    when [i] is past the end. *)
Definition char_at (hash : string) (i : nat) : string :=
  match String.get i hash with
  | Some c => String c EmptyString
  | None => "undefined"
  end.

(** The loop of [createWeave], from index [i] for [n] more rounds. *)
Fixpoint weave_loop (hash1 hash2 hash3 : string) (i n : nat)
    (weavedToken : string) : string :=
  match n with
  | O => weavedToken
  | S n' =>
      let weavedToken := weavedToken +:+ char_at hash1 i in
      let weavedToken := weavedToken +:+ char_at hash2 i in
      let weavedToken := weavedToken +:+ char_at hash3 i in
      weave_loop hash1 hash2 hash3 (S i) n' weavedToken
  end.

Definition createWeave (hash1 hash2 hash3 : string) : string :=
  let hashLength :=
    Nat.max (Nat.max (String.length hash1) (String.length hash2))
            (String.length hash3) in
  weave_loop hash1 hash2 hash3 0 hashLength "".

Definition createSessionToken (ip userId : jsval) (username : string) : string :=
  let ipHash := hashTokenPart (to_String ip) in
  let userIdHash := hashTokenPart (to_String userId) in
  let usernameHash := hashTokenPart username in
  createWeave ipHash userIdHash usernameHash.

(** The weave the data model describes: one character of each digest in
    turn, for as long as all three have one. *)
Fixpoint interleave (d1 d2 d3 : string) : string :=
  match d1, d2, d3 with
  | String a d1', String b d2', String c d3' =>
      String a (String b (String c (interleave d1' d2' d3')))
  | _, _, _ => EmptyString
  end.

End Logic.

(** * The server: HTTP move endpoint and the WebSocket channel *)

Module Server.

(** A WebSocket, known by its identity. *)
Definition conn : Type := nat.

(** What the server pushes over a socket. *)
Inductive outmsg : Type :=
  | MsgRoom (room message : jsval)             (* { action: "message", room, message } *)
  | MsgError (error : string)                  (* { error } *)
  | MsgChallenge (challengeId : jsval) (senderId : string) (message : jsval)
  | MsgChallengeDeclined (challengeId : jsval) (userId : string)
  | MsgStartGame (opponentId : jsval) (gameId : Z)
  | MsgGameMove (gameId : string) (col : Z)
                (row : binding_value (list (list cell))) (playerId : jsval).

(** The process state: the database behind [logic], the two module-level
    maps, and the sockets whose [readyState] is [OPEN]. *)
Record t : Type := {
  db : Db.t;
  userSockets : gmap jsval conn;
  rooms : gmap jsval (gset conn);
  open_sockets : gset conn;
}.

Definition with_db (st : t) (d : Db.t) : t :=
  {| db := d; userSockets := userSockets st; rooms := rooms st;
     open_sockets := open_sockets st |}.

Definition with_rooms (st : t) (r : gmap jsval (gset conn)) : t :=
  {| db := db st; userSockets := userSockets st; rooms := r;
     open_sockets := open_sockets st |}.

Definition lobby : jsval := JStr "lobby".

(** [rooms.set("lobby", new Set())] at start-up. *)
Definition initial (d : Db.t) : t :=
  {| db := d; userSockets := ∅; rooms := {[ lobby := ∅ ]}; open_sockets := ∅ |}.

(** The names bound at module level. *)
Definition module_scope : scope (list (list cell)) :=
  hosts ["express"; "app"; "cors"; "bodyParser"; "db"; "logic"; "http";
         "WebSocket"; "getClientIp"; "server"; "wss"; "userSockets";
         "storedChallenges"; "rooms"; "PORT"]
  ++ hosts node_globals.

(** [if (userSockets.has(user)) userSockets.get(user).send(m)] *)
Definition notify (user : jsval) (m : outmsg) (st : t) : list (conn * outmsg) :=
  match userSockets st !! user with
  | Some socket => [(socket, m)]
  | None => []
  end.

(** ** POST /game/:gameId/move *)

(** The handler answers, or its promise rejects with nobody to catch it and
    no answer goes out.  With [Unhandled] the state a handler returns is
    what the process holds at the moment the exception is raised; what Node
    does with an unhandled rejection (by default it ends the process, and
    with it every socket) comes after that and is not part of the
    handler. *)
Inductive http_outcome : Type :=
  | Responded (status : Z) (body : string)
  | Unhandled (e : js_error).

(** The bindings visible after the drop loop, where the move message is
    built: those of the handler, then the module's.  The loop's [let row]
    is not among them. *)
Definition move_scope (gameId : string) (playerId : jsval) (col : Z)
    (board : list (list cell)) (placed : bool) (nextTurn : jsval)
    : scope (list (list cell)) :=
  [("req", Host); ("res", Host); ("gameId", Prim (JStr gameId));
   ("playerId", Prim playerId); ("col", Prim (JNum col)); ("game", Host);
   ("board", Arr board); ("placed", Prim (JBool placed));
   ("nextTurn", Prim nextTurn)]
  ++ module_scope.

(** The end of the handler: the move message is built and pushed to each
    participant that has a socket registered, then the request is answered.
<<
    const moveMessage = { action: "gameMove", gameId, col, row, playerId };
    if (userSockets.has(game.player1_id)) { ... .send(moveMessage) }
    if (userSockets.has(game.player2_id)) { ... .send(moveMessage) }
    res.status(200).send("Move made");
>>
*)
Definition announce_move (gameId : string) (playerId : jsval) (col : Z)
    (game : Db.game_row) (board : list (list cell)) (placed : bool)
    (nextTurn : jsval) (st : t) : http_outcome * list (conn * outmsg) * t :=
  match ident (move_scope gameId playerId col board placed nextTurn) "row" with
  | Throw e => (Unhandled e, [], st)
  | Normal row =>
      let moveMessage := MsgGameMove gameId col row playerId in
      (Responded 200 "Move made",
       notify (Db.player1_id game) moveMessage st ++
       notify (Db.player2_id game) moveMessage st,
       st)
  end.

Definition post_move (gameId : string) (playerId : jsval) (col : Z) (st : t)
    : http_outcome * list (conn * outmsg) * t :=
  if bool_decide (col < 0 ∨ col >= 7)
  then (Responded 400 "Invalid column", [], st)
  else
    let '(game, d) := Logic.getGameWithId (JStr gameId) (db st) in
    let st := with_db st d in
    match game with
    | None => (Responded 404 "Game not found", [], st)
    | Some game =>
        if negb (strict_eq (Db.current_turn game) playerId)
        then (Responded 400 "Not your turn", [], st)
        else
          let mark := if strict_eq playerId (Db.player1_id game)
                      then Red else Yellow in
          let '(placed, board) :=
            drop_in_column (Db.game_state game) (Z.to_nat col) mark in
          if negb placed
          then (Responded 400 "Column is full", [], st)
          else
            let nextTurn := if strict_eq playerId (Db.player1_id game)
                            then Db.player2_id game else Db.player1_id game in
            let '(updated, d) :=
              Logic.updateGameState board nextTurn (JStr gameId) (db st) in
            let st := with_db st d in
            match updated with
            | Throw e => (Unhandled e, [], st)
            | Normal _ =>
                announce_move gameId playerId col game board placed nextTurn st
            end
    end.

(** ** The WebSocket channel *)

(** [rooms.get(room).add(ws)], the room made first when it is missing. *)
Definition add_to_room (room : jsval) (ws : conn)
    (r : gmap jsval (gset conn)) : gmap jsval (gset conn) :=
  <[room := {[ws]} ∪ default ∅ (r !! room)]> r.

(** [if (rooms.has(room)) rooms.get(room).delete(ws)] *)
Definition remove_from_room (room : jsval) (ws : conn)
    (r : gmap jsval (gset conn)) : gmap jsval (gset conn) :=
  match r !! room with
  | Some clients => <[room := clients ∖ {[ws]}]> r
  | None => r
  end.

(** A query parameter: [null] when absent, else a string. *)
Definition param_truthy (p : option string) : bool :=
  match p with
  | Some s => negb (bool_decide (s = ""))
  | None => false
  end.

(** [wss.on('connection')]: the socket is registered and placed in its game
    room or the lobby; without a [userId] it is closed and gets no handlers
    ([None]).  [rooms.get("lobby")] is taken to be there: the lobby is made
    at start-up and no event removes it. *)
Definition on_connection (ws : conn) (userId gameId : option string) (st : t)
    : option string * t :=
  match userId with
  | Some uid =>
      if param_truthy userId then
        let sockets := <[JStr uid := ws]> (userSockets st) in
        let r :=
          match gameId with
          | Some gid =>
              if param_truthy gameId
              then remove_from_room lobby ws (add_to_room (JStr gid) ws (rooms st))
              else add_to_room lobby ws (rooms st)
          | None => add_to_room lobby ws (rooms st)
          end in
        (Some uid,
         {| db := db st; userSockets := sockets; rooms := r;
            open_sockets := {[ws]} ∪ open_sockets st |})
      else (None, st)
  | None => (None, st)
  end.

(** The outcome of [JSON.parse(message)]: a primitive, an array, or an
    object with its fields.  The fields hold primitive values; a field that
    holds an array or an object is outside this type. *)
Inductive json : Type :=
  | JsonPrim (v : jsval)
  | JsonArray
  | JsonObject (fields : gmap string jsval).

(** [data.name], and the fields a destructuring pattern picks. *)
Definition field (data : json) (name : string) : jsval :=
  match data with
  | JsonObject fields => default JUndefined (fields !! name)
  | _ => JUndefined
  end.

(** Destructuring [null] raises. *)
Definition destructurable (data : json) : completion unit :=
  match data with
  | JsonPrim JNull | JsonPrim JUndefined =>
      Throw (TypeError "Cannot destructure")
  | _ => Normal ()
  end.

(** [challege.length]: reading a property of [undefined] raises; a row has
    the two selected columns and no [length]. *)
Definition challege_length (challege : option Db.challenge_row)
    : completion jsval :=
  match challege with
  | None => Throw (TypeError "Cannot read properties of undefined")
  | Some _ => Normal JUndefined
  end.

(** The bindings visible in the body of the [switch]. *)
Definition message_scope : scope (list (list cell)) :=
  hosts ["challengeId"; "challege"; "sendId"; "senderId"; "accepterId"; "game";
         "gameId"; "sender"; "gmId"; "col"; "row"; "playerId"; "board";
         "data"; "room"; "action"; "textMessage"; "targetUserId"; "message";
         "ws"; "req"; "urlParams"; "userId"]
  ++ module_scope.

(** The [try] block of the message handler: how it completes, what it sent,
    and the state it leaves. *)
Definition dispatch (ws : conn) (userId : string) (data : json) (st : t)
    : completion unit * list (conn * outmsg) * t :=
  let room := field data "room" in
  let action := field data "action" in
  let textMessage := field data "message" in
  if bool_decide (action = JStr "join") then
    (Normal (), [], with_rooms st (add_to_room room ws (rooms st)))
  else if bool_decide (action = JStr "leave") then
    (Normal (), [], with_rooms st (remove_from_room room ws (rooms st)))
  else if bool_decide (action = JStr "message") then
    match rooms st !! room with
    | Some clients =>
        (Normal (),
         (λ client, (client, MsgRoom room textMessage)) <$>
           filter (λ client, client ∈ open_sockets st) (elements clients),
         st)
    | None => (Normal (), [(ws, MsgError "Room does not exist")], st)
    end
  else if bool_decide (action = JStr "sendChallenge") then
    let target := field data "targetUserId" in
    match (if truthy target then userSockets st !! target else None) with
    | Some targetSocket =>
        (Normal (),
         [(targetSocket,
           MsgChallenge (field data "challengeId") userId (field data "message"))],
         st)
    | None => (Normal (), [(ws, MsgError "Target user is not connected")], st)
    end
  else if bool_decide (action = JStr "declineChallenge") then
    let challengeId := field data "challengeId" in
    if negb (truthy challengeId) then
      (Normal (),
       [(ws, MsgError "challengeId is required to decline a challenge")], st)
    else
      let '(challege, d) := Logic.getChallengeWithId challengeId (db st) in
      let st := with_db st d in
      match challege_length challege, challege with
      | Normal len, Some row =>
          if strict_eq len (JNum 0) then
            (Normal (),
             [(ws, MsgError ("Challenge with ID " +:+ to_String challengeId
                             +:+ " not found"))], st)
          else
            let sendId := to_String (Db.sender_id row) in
            (Normal (),
             notify (JStr sendId) (MsgChallengeDeclined challengeId userId) st,
             st)
      | _, _ =>
          (* the inner [catch] *)
          (Normal (), [(ws, MsgError "Failed to decline challenge")], st)
      end
  else if bool_decide (action = JStr "startGame") then
    let senderId := field data "senderId" in
    let accepterId := field data "accepterId" in
    let '(game, d) := Logic.createGame senderId accepterId (db st) in
    let st := with_db st d in
    match game with
    | Throw e => (Throw e, [], st)
    | Normal game =>
        (Normal (),
         notify senderId (MsgStartGame accepterId game) st ++
         notify accepterId (MsgStartGame senderId game) st,
         st)
    end
  else if bool_decide (action = JStr "gameChat") then
    (* [if (gameRooms.has(gameId))] *)
    match ident message_scope "gameRooms" with
    | Throw e => (Throw e, [], st)
    | Normal _ => (Throw (TypeError "gameRooms.has is not a function"), [], st)
    end
  else if bool_decide (action = JStr "gameMove") then
    (* [if (gameRooms.has(gmId))] *)
    match ident message_scope "gameRooms" with
    | Throw e => (Throw e, [], st)
    | Normal _ => (Throw (TypeError "gameRooms.has is not a function"), [], st)
    end
  else
    (Normal (), [(ws, MsgError "Unknown action")], st).

(** [ws.on('message')]: parse, destructure, dispatch; whatever is raised in
    between is answered by the one [catch]. *)
Definition on_message (ws : conn) (userId : string) (parsed : completion json)
    (st : t) : list (conn * outmsg) * t :=
  let '(done, out, st') :=
    match parsed with
    | Throw e => (Throw e, [], st)
    | Normal data =>
        match destructurable data with
        | Throw e => (Throw e, [], st)
        | Normal _ => dispatch ws userId data st
        end
    end in
  match done with
  | Normal _ => (out, st')
  | Throw _ => (out ++ [(ws, MsgError "Invalid message format")], st')
  end.

(** [ws.on('close')]; the socket is no longer open when it runs. *)
Definition on_close (ws : conn) (userId : string) (st : t) : t :=
  {| db := db st;
     userSockets := delete (JStr userId) (userSockets st);
     rooms :=
       map_imap (λ room clients,
         if bool_decide (ws ∈ clients) then
           let clients := clients ∖ {[ws]} in
           if bool_decide (room ≠ lobby ∧ size clients = 0%nat)
           then None
           else Some clients
         else Some clients) (rooms st);
     open_sockets := open_sockets st ∖ {[ws]} |}.

(** ** The process as a transition system

    One event is one callback run to completion. *)
Inductive event : Type :=
  | Connect (ws : conn) (userId gameId : option string)
  | Message (ws : conn) (userId : string) (parsed : completion json)
  | Close (ws : conn) (userId : string)
  | Move (gameId : string) (playerId : jsval) (col : Z).

Definition step (st : t) (e : event) : t :=
  match e with
  | Connect ws userId gameId => (on_connection ws userId gameId st).2
  | Message ws userId parsed => (on_message ws userId parsed st).2
  | Close ws userId => on_close ws userId st
  | Move gameId playerId col => (post_move gameId playerId col st).2
  end.

Definition run (d : Db.t) (events : list event) : t :=
  foldl step (initial d) events.

(** ** A worked scenario

    The game of the scenario: user "1" has created a game against user "2"
    (it gets key 1), and both have a socket open in the lobby. *)
Definition scenario_db : Db.t :=
  snd (Logic.createGame (JStr "1") (JStr "2") Db.empty).

Definition scenario : t :=
  snd (on_connection 12%nat (Some "2") None
         (snd (on_connection 11%nat (Some "1") None (initial scenario_db)))).

End Server.


(** * Vocabulary for the further properties *)

Module Spec.

(** The characters of the class [[a-zA-Z0-9_-]], written out. *)
Definition username_class : list ascii :=
  String.list_ascii_of_string
    "abcdefghijklmnopqrstuvwxyzABCDEFGHIJKLMNOPQRSTUVWXYZ0123456789_-".

(** The characters one read [h[i]] of the weave loop appends, and those of
    the reads of rounds [i .. i+n-1]. *)
Definition read_cost (h : string) (i : nat) : nat :=
  if decide (i < String.length h)%nat then 1%nat else 9%nat.

Fixpoint reads_cost (h : string) (i n : nat) : nat :=
  match n with
  | O => O
  | S n' => (read_cost h i + reads_cost h (S i) n')%nat
  end.

(** Socket [c] is a member of room [room]. *)
Definition member (r : gmap jsval (gset Server.conn)) (room : jsval)
    (c : Server.conn) : Prop :=
  ∃ clients, r !! room = Some clients ∧ c ∈ clients.

(** Every key of the registry is a non-empty string. *)
Definition string_keyed (sockets : gmap jsval Server.conn) : Prop :=
  ∀ k c, sockets !! k = Some c → ∃ s, k = JStr s ∧ s ≠ "".

(** The game keys in use lie below the next key to be handed out. *)
Definition keys_below (d : Db.t) : Prop :=
  ∀ k, is_Some (Db.game d !! k) → k < Db.game_seq d.

(** A game as it is when made: the empty board, player 1 on turn, no
    winner; and a database all of whose games are so. *)
Definition fresh_game (g : Db.game_row) : Prop :=
  Db.game_state g = initialBoard ∧
  Db.current_turn g = Db.player1_id g ∧
  Db.winner_id g = JNull.

Definition all_fresh (d : Db.t) : Prop :=
  ∀ k g, Db.game d !! k = Some g → fresh_game g.

End Spec.

(** * The storage layer, continued (db.js)

    The functions of db.js not met so far.  Sessions, the key counter of the
    challenge table and its [accept_deny] column are kept beside the tables
    of [Db.t]; the statement log of [Db.t] is left to the functions that
    write it. *)

Module DbMore.

(** [expr_date > NOW()] is the database's business: its clock, and how it
    reads the text of a date. *)
Class Clock : Type := {
  instant : Type;
  later : string → instant → bool;
}.

Record session_row : Type := {
  session_user : jsval;
  token : string;
  expr_date : string;
}.

Record t : Type := {
  core : Db.t;
  session : gmap Z session_row;
  session_seq : Z;
  challenge_seq : Z;
  accept_deny : gmap Z bool;
}.

Definition with_core (s : t) (d : Db.t) : t :=
  {| core := d; session := session s; session_seq := session_seq s;
     challenge_seq := challenge_seq s; accept_deny := accept_deny s |}.

Definition empty : t :=
  {| core := Db.empty; session := ∅; session_seq := 1; challenge_seq := 1;
     accept_deny := ∅ |}.

(** [SELECT username FROM users WHERE user_id = ? LIMIT 1], returning
    [results[0]]: a row with its (nullable) name, or [undefined]. *)
Definition getUsernameById (userId : jsval) (d : Db.t) : option (option string) :=
  match Db.row_key userId with
  | Some k => Db.username <$> head (filter (λ r, Db.user_id r = k) (Db.users d))
  | None => None
  end.

(** [SELECT user_id, username FROM users] *)
Definition getAllUsernames (d : Db.t) : list (Z * option string) :=
  (λ r, (Db.user_id r, Db.username r)) <$> Db.users d.

(** [SELECT token FROM session WHERE session_id = ? AND user_id = ? AND
    expr_date > NOW()], returning [results[0]]. *)
Definition getStoredSessionToken `{Clock} (sessionId userId : jsval)
    (now : instant) (s : t) : option string :=
  match Db.row_key sessionId with
  | Some k =>
      match session s !! k with
      | Some row =>
          match Db.row_key (session_user row), Db.row_key userId with
          | Some stored, Some asked =>
              if bool_decide (stored = asked) && later (expr_date row) now
              then Some (token row) else None
          | _, _ => None
          end
      | None => None
      end
  | None => None
  end.

(** [INSERT INTO session (user_id, token, expr_date) VALUES (?, ?, ?)],
    returning [insertId]. *)
Definition addSessionToUser (userId : jsval) (tok exprDate : string) (s : t)
    : Z * t :=
  (session_seq s,
   {| core := core s;
      session := <[session_seq s := {| session_user := userId; token := tok;
                                       expr_date := exprDate |}]> (session s);
      session_seq := session_seq s + 1;
      challenge_seq := challenge_seq s; accept_deny := accept_deny s |}).

(** [INSERT INTO challenge (sender_id, challenger_id) VALUES (?, ?)],
    returning [insertId].  The driver refuses [undefined]. *)
Definition sendAChallenge (userId challengerId : jsval) (s : t)
    : completion Z * t :=
  if bool_decide (userId = JUndefined ∨ challengerId = JUndefined)
  then (Throw (TypeError "Bind parameters must not contain undefined"), s)
  else
    let d := core s in
    (Normal (challenge_seq s),
     {| core :=
          {| Db.users := Db.users d; Db.user_seq := Db.user_seq d;
             Db.challenge :=
               <[challenge_seq s := {| Db.sender_id := userId;
                                       Db.challenger_id := challengerId |}]>
                 (Db.challenge d);
             Db.game := Db.game d; Db.game_seq := Db.game_seq d;
             Db.sent := Db.sent d |};
        session := session s; session_seq := session_seq s;
        challenge_seq := challenge_seq s + 1;
        accept_deny := accept_deny s |}).

(** [UPDATE challenge SET accept_deny = ? WHERE challenge_id = ?], returning
    [affectedRows > 0]: whether a row has that id. *)
Definition sendChallengeResponse (challengeId : jsval) (reply : bool) (s : t)
    : completion bool * t :=
  if bool_decide (challengeId = JUndefined)
  then (Throw (TypeError "Bind parameters must not contain undefined"), s)
  else
    match Db.row_key challengeId with
    | Some k =>
        match Db.challenge (core s) !! k with
        | Some _ =>
            (Normal true,
             {| core := core s; session := session s;
                session_seq := session_seq s;
                challenge_seq := challenge_seq s;
                accept_deny := <[k := reply]> (accept_deny s) |})
        | None => (Normal false, s)
        end
    | None => (Normal false, s)
    end.

(** [UPDATE game SET winner_id = ?, ended_at = NOW() WHERE game_id = ?] *)
Definition end_game (winnerId gameId : jsval) (d : Db.t) : Db.t :=
  match Db.row_key gameId with
  | Some k =>
      {| Db.users := Db.users d; Db.user_seq := Db.user_seq d;
         Db.challenge := Db.challenge d;
         Db.game := alter (λ g, {| Db.player1_id := Db.player1_id g;
                                   Db.player2_id := Db.player2_id g;
                                   Db.current_turn := Db.current_turn g;
                                   Db.game_state := Db.game_state g;
                                   Db.winner_id := winnerId |}) k (Db.game d);
         Db.game_seq := Db.game_seq d; Db.sent := Db.sent d |}
  | None => d
  end.

End DbMore.

(** * The business layer, continued (logic.js) *)

Module LogicMore.
Import DbMore.

(** [response.username]: reading it off [undefined] raises. *)
Definition getUsernameById (userId : jsval) (d : Db.t)
    : completion (option string) :=
  match DbMore.getUsernameById userId d with
  | Some name => Normal name
  | None => Throw (TypeError "Cannot read properties of undefined")
  end.

(** ** Dates *)

(** A [Date], as its local-time getters show it; [getMonth] counts from 0. *)
Record Date : Type := {
  getFullYear : Z;
  getMonth : Z;
  getDate : Z;
  getHours : Z;
  getMinutes : Z;
  getSeconds : Z;
}.

Definition leap_year (y : Z) : bool :=
  (y mod 4 =? 0) && (negb (y mod 100 =? 0) || (y mod 400 =? 0)).

Definition days_in_month (y m : Z) : Z :=
  if m =? 1 then (if leap_year y then 29 else 28)
  else if (m =? 3) || (m =? 5) || (m =? 8) || (m =? 10) then 30
  else 31.

(** The server's time zone, as far as [setDate] meets it.  [setDate] works
    on local time: it asks for the wall-clock fields of the new day at the
    old time of day, and the [Date] then shows the wall-clock time the zone
    has for them -- the same fields where the zone has that time, another
    time where it has not (a time skipped by daylight saving, a day skipped
    by a change of offset). *)
Class Zone : Type := {
  wall_clock : Date → Date;
}.

(** The calendar part of [date.setDate(day)] for a day at or past the first
    of the month: a day beyond the end of the month runs on into the months
    that follow. *)
Fixpoint roll_over (fuel : nat) (y m day : Z) : Z * Z * Z :=
  match fuel with
  | O => (y, m, day)
  | S fuel' =>
      if day >? days_in_month y m
      then if m =? 11
           then roll_over fuel' (y + 1) 0 (day - days_in_month y m)
           else roll_over fuel' y (m + 1) (day - days_in_month y m)
      else (y, m, day)
  end.

Definition setDate `{Zone} (date : Date) (day : Z) : Date :=
  let '(y, m, d) :=
    roll_over (Z.to_nat day) (getFullYear date) (getMonth date) day in
  wall_clock
    {| getFullYear := y; getMonth := m; getDate := d;
       getHours := getHours date; getMinutes := getMinutes date;
       getSeconds := getSeconds date |}.

(** [String(n).padStart(2, '0')] *)
Definition padStart2 (s : string) : string :=
  match String.length s with
  | 0%nat => "00"
  | 1%nat => "0" +:+ s
  | _ => s
  end.

Definition formatDateForSQL (date : Date) : string :=
  let year := getFullYear date in
  let month := padStart2 (pretty (getMonth date + 1)) in
  let day := padStart2 (pretty (getDate date)) in
  let hours := padStart2 (pretty (getHours date)) in
  let minutes := padStart2 (pretty (getMinutes date)) in
  let seconds := padStart2 (pretty (getSeconds date)) in
  pretty year +:+ "-" +:+ month +:+ "-" +:+ day +:+ " " +:+
  hours +:+ ":" +:+ minutes +:+ ":" +:+ seconds.

(** [now] stands for [new Date()]. *)
Definition generateExperationDate `{Zone} (now : Date) : string :=
  let exprDate := setDate now (getDate now + 3) in
  formatDateForSQL exprDate.

(** ** Accounts, on what a request body can hold

    The endpoints hand the fields of [req.body] on as they come: a field can
    be missing ([undefined]) or hold any JSON value.  ([jsval] has the
    primitive values; an array or an object is, for everything below, one
    more truthy value that is not a string.) *)

(** What an [await] can reject with: an exception of the language, or the
    [Error] with which bcrypt refuses data that is not a string. *)
Inductive raised : Type :=
  | Exception (e : js_error)
  | BcryptError (message : string).

Inductive awaited (A : Type) : Type :=
  | Resolved (a : A)
  | Rejected (r : raised).
Arguments Resolved {A} a.
Arguments Rejected {A} r.

(** [username.replace(...)] needs a string. *)
Definition validateSanitizeUsername (username : jsval)
    : completion (option string) :=
  match username with
  | JStr name => Normal (Logic.validateSanitizeUsername name)
  | JUndefined | JNull =>
      Throw (TypeError "Cannot read properties of undefined (reading 'replace')")
  | _ => Throw (TypeError "username.replace is not a function")
  end.

Section accounts.
Context `{Logic.Bcrypt}.

(** [bcrypt.hash(value, 10)] *)
Definition hashString (value : jsval) : awaited string :=
  match value with
  | JStr value => Resolved (Logic.hashString value)
  | _ => Rejected (BcryptError "data must be a string or Buffer and salt must either be a salt string or a number of rounds")
  end.

(** [bcrypt.compare(password, testPassHash)] *)
Definition comparePasswords (password : jsval) (testPassHash : string)
    : awaited bool :=
  match password with
  | JStr password => Resolved (Logic.comparePasswords password testPassHash)
  | _ => Rejected (BcryptError "data and hash must be strings")
  end.

Definition getUserWithUsernamePassword (username password : jsval) (d : Db.t)
    : awaited Logic.login_result * Db.t :=
  if negb (truthy password)
  then (Resolved (Logic.LoginError "Please enter a password!"), d)
  else
    match validateSanitizeUsername username with
    | Throw e => (Rejected (Exception e), d)
    | Normal username =>
        let '(response, d) := Db.getUserWithUsername username d in
        match response with
        | None =>
            (Resolved (Logic.LoginError "Username or password incorrect!"), d)
        | Some user =>
            let testPassword := default "" (Db.password user) in
            match comparePasswords password testPassword with
            | Rejected r => (Rejected r, d)
            | Resolved compare =>
                if compare
                then (Resolved (Logic.LoginUser user), d)
                else (Resolved
                        (Logic.LoginError "Username or password incorrect!"), d)
            end
        end
    end.

Definition addUser (username password confirmPassword : jsval) (d : Db.t)
    : awaited Logic.add_result * Db.t :=
  if negb (truthy password) || negb (truthy confirmPassword)
  then (Resolved (Logic.AddError "Passwords are blank!"), d)
  else
    let checkMatching := strict_eq password confirmPassword in
    match hashString password with
    | Rejected r => (Rejected r, d)
    | Resolved passHash =>
        if negb checkMatching
        then (Resolved (Logic.AddError "Passwords are not matching!"), d)
        else
          match validateSanitizeUsername username with
          | Throw e => (Rejected (Exception e), d)
          | Normal username =>
              let '(response, d) := Db.addUser username passHash d in
              (Resolved (Logic.AddStored response), d)
          end
    end.

End accounts.

(** ** Sessions *)

(** [createSessionToken] is reached with the sanitized name; [null] makes
    the hash refuse its argument. *)
Definition setSession `{Zone} (ip userId username : jsval) (now : Date)
    (s : t) : completion Z * t :=
  match validateSanitizeUsername username with
  | Throw e => (Throw e, s)
  | Normal username =>
      let exprDate := generateExperationDate now in
      match username with
      | None =>
          (Throw (TypeError "The data argument must be of type string"), s)
      | Some username =>
          let token := Logic.createSessionToken ip userId username in
          let '(response, s) := addSessionToUser userId token exprDate s in
          (Normal response, s)
      end
  end.

(** [response.token] *)
Definition getSessionTokenWithIdUserId `{Clock} (sessionId userId : jsval)
    (now : instant) (s : t) : completion string :=
  match getStoredSessionToken sessionId userId now s with
  | Some tok => Normal tok
  | None => Throw (TypeError "Cannot read properties of undefined")
  end.

(** ** Challenges *)

Definition sendChallenge (userId challengerId : jsval) (s : t)
    : completion Z * t :=
  sendAChallenge userId challengerId s.

(** What [sendChallengeResponse] resolves to: [{ error }], or the answer of
    the storage layer. *)
Inductive response_result : Type :=
  | ResponseError (error : string)
  | ResponseStored (done : completion bool).

Definition sendChallengeResponse (challengeId reply : jsval) (s : t)
    : response_result * t :=
  if bool_decide (reply = JStr "accept") then
    let '(r, s) := DbMore.sendChallengeResponse challengeId true s in
    (ResponseStored r, s)
  else if bool_decide (reply = JStr "decline") then
    let '(r, s) := DbMore.sendChallengeResponse challengeId false s in
    (ResponseStored r, s)
  else (ResponseError "There was an error sending the reply!", s).

End LogicMore.

(** * The HTTP endpoints (server), continued *)

Module Http.
Import DbMore.

(** What [getClientIp] reads off a request. *)
Record request : Type := {
  x_forwarded_for : jsval;      (* req.headers['x-forwarded-for'] *)
  remoteAddress : jsval;        (* req.connection.remoteAddress *)
  req_ip : jsval;               (* req.ip *)
}.

(** [a || b] *)
Definition js_or (a b : jsval) : jsval := if truthy a then a else b.

Definition getClientIp (req : request) : jsval :=
  let ip := js_or (js_or (x_forwarded_for req) (remoteAddress req)) (req_ip req) in
  if strict_eq ip (JStr "::1") then JStr "127.0.0.1" else ip.

(** The JSON or text a handler answers with. *)
Inductive body : Type :=
  | ErrorBody (error : string)                   (* { error } *)
  | LoginBody (userId sessionId : Z)             (* { message: { userId, sessionId } } *)
  | CreatedBody (userId : jsval)                 (* { message: { userId } } *)
  | UsernameBody (username : string)             (* { message: username } *)
  | UsernamesBody (rows : list (Z * option string))
  | ChallengeIdBody (challengeId : Z)            (* { message: challengeId } *)
  | PromiseBody                                  (* { message: <a promise> } *)
  | GameIdBody (gameId : Z)                      (* { message: gameId } *)
  | GameBody (gameId : option Z) (game : Db.game_row)
  | TextBody (text : string).

Inductive reply : Type := Reply (status : Z) (b : body).

Definition status_of (r : reply) : Z := let 'Reply status _ := r in status.

Section handlers.
Context `{Logic.Bcrypt} `{Clock} `{LogicMore.Zone}.

(** POST /login, with the [username] and [password] of the body.
    [result.length === 0] holds of neither an error object nor a row, so the
    first test never fires; whatever is raised inside the [try] is answered
    by the [catch]. *)
Definition post_login (req : request) (username password : jsval)
    (today : LogicMore.Date) (s : t) : reply * t :=
  let failed := Reply 500 (ErrorBody "Internal Server Error Occured") in
  let '(result, d) :=
    LogicMore.getUserWithUsernamePassword username password (core s) in
  let s := with_core s d in
  match result with
  | LogicMore.Rejected _ => (failed, s)
  | LogicMore.Resolved (Logic.LoginError error) =>
      (Reply 401 (ErrorBody error), s)
  | LogicMore.Resolved (Logic.LoginUser user) =>
      let userId := Db.user_id user in
      let clientIp := getClientIp req in
      match LogicMore.setSession clientIp (JNum userId) username today s with
      | (Normal sessionId, s) => (Reply 200 (LoginBody userId sessionId), s)
      | (Throw _, s) => (failed, s)
      end
  end.

(** POST /createAccount, with the three fields of the body.  On success
    [result] is the new key, a number, and [result.userId] reads [undefined]
    off it. *)
Definition post_createAccount (username password confirmPassword : jsval)
    (s : t) : reply * t :=
  let '(result, d) :=
    LogicMore.addUser username password confirmPassword (core s) in
  let s := with_core s d in
  match result with
  | LogicMore.Rejected _ =>
      (Reply 500 (ErrorBody "An error occurred on the server"), s)
  | LogicMore.Resolved (Logic.AddError error) =>
      (Reply 401 (ErrorBody error), s)
  | LogicMore.Resolved (Logic.AddStored (Db.Inserted _)) =>
      (Reply 201 (CreatedBody JUndefined), s)
  | LogicMore.Resolved (Logic.AddStored Db.DupEntry) =>
      (Reply 400 (ErrorBody "Username already exists"), s)
  end.

(** POST /getUsername *)
Definition post_getUsername (userId : jsval) (s : t) : reply :=
  match LogicMore.getUsernameById userId (core s) with
  | Normal result =>
      match result with
      | Some name =>
          if bool_decide (name = "")
          then Reply 404 (ErrorBody "No user found!")
          else Reply 200 (UsernameBody name)
      | None => Reply 404 (ErrorBody "No user found!")
      end
  | Throw _ => Reply 500 (ErrorBody "An error occurred on the server")
  end.

(** GET /usernames *)
Definition get_usernames (s : t) : reply :=
  Reply 200 (UsernamesBody (getAllUsernames (core s))).

(** POST /checkSession *)
Definition post_checkSession (req : request) (userId sessionId : jsval)
    (now : instant) (s : t) : reply :=
  let failed := Reply 500 (ErrorBody "An error occured on the server!") in
  let clientIp := getClientIp req in
  match LogicMore.getUsernameById userId (core s) with
  | Throw _ => failed
  | Normal None => failed          (* the hash refuses a null name *)
  | Normal (Some username) =>
      let token := Logic.createSessionToken clientIp userId username in
      match LogicMore.getSessionTokenWithIdUserId sessionId userId now s with
      | Throw _ => failed
      | Normal storedToken =>
          if bool_decide (storedToken = "") ||
             negb (bool_decide (storedToken = token))
          then Reply 401 (ErrorBody "Session is not verified!")
          else Reply 200 (UsernameBody username)
      end
  end.

(** POST /sendChallenge *)
Definition post_sendChallenge (userId challengerId : jsval) (s : t)
    : reply * t :=
  match LogicMore.sendChallenge userId challengerId s with
  | (Normal challengeId, s) =>
      if challengeId =? 0
      then (Reply 404 (ErrorBody "Challenger not found!"), s)
      else (Reply 200 (ChallengeIdBody challengeId), s)
  | (Throw _, s) => (Reply 500 (ErrorBody "An error occured on the server!"), s)
  end.

(** POST /challengeResponse.  [logic.sendChallengeResponse] is called and
    not awaited: what the handler holds is the promise, never falsy, and the
    answer goes out whatever becomes of it. *)
Definition post_challengeResponse (challengeId reply : jsval) (s : t)
    : Http.reply * t :=
  let '(_, s) := LogicMore.sendChallengeResponse challengeId reply s in
  (Reply 200 PromiseBody, s).

(** POST /game/create *)
Definition post_game_create (userId opponentId : jsval) (d : Db.t)
    : reply * Db.t :=
  match Logic.createGame userId opponentId d with
  | (Normal response, d) =>
      if response =? 0
      then (Reply 404 (ErrorBody "Game was not found!"), d)
      else (Reply 200 (GameIdBody response), d)
  | (Throw _, d) => (Reply 500 (ErrorBody "An error occurred on the server!"), d)
  end.

(** GET /game/:gameId *)
Definition get_game (gameId : string) (d : Db.t) : reply * Db.t :=
  let '(game, d) := Logic.getGameWithId (JStr gameId) d in
  match game with
  | None => (Reply 404 (ErrorBody "Game not found"), d)
  | Some game => (Reply 200 (GameBody (Db.row_key (JStr gameId)) game), d)
  end.

(** POST /game/:gameId/end.  The handler reaches for [pool], a binding of
    db.js that the server file does not have; the [catch] answers. *)
Definition end_scope (gameId : string) (winnerId : jsval)
    : scope (list (list cell)) :=
  [("req", Host); ("res", Host); ("gameId", Prim (JStr gameId));
   ("winnerId", Prim winnerId)]
  ++ Server.module_scope.

Definition post_game_end (gameId : string) (winnerId : jsval) (d : Db.t)
    : reply * Db.t :=
  match ident (end_scope gameId winnerId) "pool" with
  | Throw _ => (Reply 500 (TextBody "Error ending game"), d)
  | Normal _ =>
      (Reply 200 (TextBody "Game ended"), end_game winnerId (JStr gameId) d)
  end.

End handlers.

(** A clock to run the model with: [NOW()] as text of the same form, and
    the order of such texts. *)
Definition text_clock : Clock :=
  {| instant := string;
     later := λ exprDate now, String.ltb now exprDate |}.

(** A zone to run the model with: one whose offset never changes, so that
    every wall-clock time exists. *)
Definition fixed_offset : LogicMore.Zone :=
  {| LogicMore.wall_clock := λ date, date |}.

End Http.

(** * Calendar days, to state what the expiry date is *)

Module Calendar.
Import LogicMore.

(** The fields of a [Date] name a day of the calendar and a time of day. *)
Definition valid (date : Date) : Prop :=
  0 ≤ getMonth date ≤ 11 ∧
  1 ≤ getDate date ≤ days_in_month (getFullYear date) (getMonth date) ∧
  0 ≤ getHours date ≤ 23 ∧
  0 ≤ getMinutes date ≤ 59 ∧
  0 ≤ getSeconds date ≤ 59.

(** The month after month [m] of year [y]. *)
Definition next_month (y m : Z) : Z * Z :=
  if m =? 11 then (y + 1, 0) else (y, m + 1).

End Calendar.
(** * Checks and theorems *)

(** ** SHA-256 against published digests *)

Example sha_abc : SHA256.digest "abc" = "ba7816bf8f01cfea414140de5dae2223b00361a396177a9cb410ff61f20015ad".
Proof. vm_compute. reflexivity. Qed.
Example sha_empty : SHA256.digest "" = "e3b0c44298fc1c149afbf4c8996fb92427ae41e4649b934ca495991b7852b855".
Proof. vm_compute. reflexivity. Qed.
Example sha_long : SHA256.digest "aaaaaaaaaaaaaaaaaaaaaaaaaaaaaaaaaaaaaaaaaaaaaaaaaaaaaaaaaaaaaaaaaaaaaa" = "6bd5e5034855a11241f0dee8fc72850ffd9955b28347a86428b5fa19119f6ad0".
Proof. vm_compute. reflexivity. Qed.

(** ** Strings *)

Section string_facts.

Lemma string_app_cons (c : ascii) (s t : string) :
  String c s +:+ t = String c (s +:+ t).
Proof. reflexivity. Qed.

Lemma string_app_assoc (s t u : string) : (s +:+ t) +:+ u = s +:+ (t +:+ u).
Proof.
  induction s as [|c s IH]; [reflexivity|].
  rewrite !string_app_cons. f_equal. exact IH.
Qed.

Lemma string_app_length (s t : string) :
  String.length (s +:+ t) = (String.length s + String.length t)%nat.
Proof.
  induction s as [|c s IH]; [reflexivity|].
  rewrite string_app_cons. simpl. f_equal. exact IH.
Qed.

Lemma string_get_after (p : string) (c : ascii) (s : string) :
  String.get (String.length p) (p +:+ String c s) = Some c.
Proof.
  induction p as [|a p IH]; [reflexivity|].
  rewrite string_app_cons. simpl. exact IH.
Qed.

Lemma string_app_snoc (p : string) (c : ascii) (s : string) :
  p +:+ String c s = (p +:+ String c "") +:+ s.
Proof. rewrite string_app_assoc. reflexivity. Qed.

End string_facts.

(** ** Session tokens *)

Section session_token.
Import Logic.

(** A digest is always 64 hexadecimal characters. *)
Lemma digest_length (msg : string) : String.length (SHA256.digest msg) = 64%nat.
Proof. unfold SHA256.digest, SHA256.hex, SHA256.hex8. reflexivity. Qed.

Lemma hex_digit_is_hex (x : Z) : SHA256.is_hex (SHA256.hex_digit x) = true.
Proof. unfold SHA256.hex_digit. repeat case_match; reflexivity. Qed.

Lemma hex8_all_hex (x : Z) (rest : string) :
  SHA256.all_hex (SHA256.hex8 x rest) = SHA256.all_hex rest.
Proof.
  unfold SHA256.hex8, SHA256.nibble. cbn [SHA256.all_hex].
  by rewrite !hex_digit_is_hex.
Qed.

Lemma digest_all_hex (msg : string) : SHA256.all_hex (SHA256.digest msg) = true.
Proof.
  unfold SHA256.digest, SHA256.hex. by rewrite !hex8_all_hex.
Qed.

Lemma char_at_after (p : string) (c : ascii) (s : string) :
  char_at (p +:+ String c s) (String.length p) = String c "".
Proof. unfold char_at. rewrite string_get_after. reflexivity. Qed.

(** The loop, started after equally long prefixes, appends the interleaving
    of what is left of the three strings. *)
Lemma weave_loop_interleave (s1 : string) :
  ∀ (s2 s3 p1 p2 p3 acc : string),
    String.length s2 = String.length s1 →
    String.length s3 = String.length s1 →
    String.length p2 = String.length p1 →
    String.length p3 = String.length p1 →
    weave_loop (p1 +:+ s1) (p2 +:+ s2) (p3 +:+ s3)
               (String.length p1) (String.length s1) acc
    = acc +:+ interleave s1 s2 s3.
Proof.
  induction s1 as [|a s1 IH]; intros s2 s3 p1 p2 p3 acc L2 L3 P2 P3.
  - destruct s2, s3; try discriminate. simpl.
    clear. induction acc as [|c acc IH]; [reflexivity|].
    rewrite string_app_cons. f_equal. exact IH.
  - destruct s2 as [|b s2]; [discriminate|].
    destruct s3 as [|c s3]; [discriminate|].
    injection L2 as L2. injection L3 as L3.
    cbn [String.length weave_loop interleave].
    rewrite (char_at_after p1).
    replace (char_at (p2 +:+ String b s2) (String.length p1)) with (String b "")
      by (rewrite <- P2; symmetry; apply char_at_after).
    replace (char_at (p3 +:+ String c s3) (String.length p1)) with (String c "")
      by (rewrite <- P3; symmetry; apply char_at_after).
    rewrite (string_app_snoc p1), (string_app_snoc p2), (string_app_snoc p3).
    replace (S (String.length p1)) with (String.length (p1 +:+ String a "")).
    2:{ rewrite string_app_length. simpl. lia. }
    rewrite IH; try assumption.
    + rewrite !string_app_assoc. reflexivity.
    + rewrite !string_app_length. simpl. lia.
    + rewrite !string_app_length. simpl. lia.
Qed.

(** On three strings of one length [createWeave] is the interleaving. *)
Lemma createWeave_interleave (h1 h2 h3 : string) :
  String.length h2 = String.length h1 →
  String.length h3 = String.length h1 →
  createWeave h1 h2 h3 = interleave h1 h2 h3.
Proof.
  intros L2 L3. unfold createWeave. rewrite L2, L3, !Nat.max_id.
  exact (weave_loop_interleave h1 h2 h3 "" "" "" "" L2 L3 eq_refl eq_refl).
Qed.

Lemma interleave_length (d1 : string) :
  ∀ d2 d3 : string,
    String.length d2 = String.length d1 →
    String.length d3 = String.length d1 →
    String.length (interleave d1 d2 d3) = (3 * String.length d1)%nat.
Proof.
  induction d1 as [|a d1 IH]; intros [|b d2] [|c d3] L2 L3;
    try discriminate; [reflexivity|].
  injection L2 as L2. injection L3 as L3.
  cbn [interleave String.length]. rewrite IH by assumption. lia.
Qed.

(** Character [i] of each digest sits at positions [3i], [3i+1], [3i+2]. *)
Lemma interleave_get (d1 : string) :
  ∀ (d2 d3 : string) (i : nat),
    String.length d2 = String.length d1 →
    String.length d3 = String.length d1 →
    (i < String.length d1)%nat →
    String.get (3 * i) (interleave d1 d2 d3) = String.get i d1 ∧
    String.get (3 * i + 1) (interleave d1 d2 d3) = String.get i d2 ∧
    String.get (3 * i + 2) (interleave d1 d2 d3) = String.get i d3.
Proof.
  induction d1 as [|a d1 IH]; intros [|b d2] [|c d3] i L2 L3 Hi;
    try discriminate; simpl in Hi; [lia|].
  injection L2 as L2. injection L3 as L3.
  destruct i as [|i]; [repeat split; reflexivity|].
  replace (3 * S i)%nat with (S (S (S (3 * i)))) by lia.
  cbn [interleave String.get Nat.add].
  apply IH; [assumption..|lia].
Qed.

Lemma get_in_range (s : string) (i : nat) :
  (i < String.length s)%nat → is_Some (String.get i s).
Proof.
  revert i. induction s as [|c s IH]; intros i Hi; simpl in Hi; [lia|].
  destruct i as [|i]; simpl; [eauto|]. apply IH. lia.
Qed.

End session_token.

(** C4. For all inputs, the session token is the character-interleaving of
    the three 64-character hex digests of ip, userId and username: character
    [i] of the first digest is at position [3i], of the second at [3i+1], of
    the third at [3i+2]; the loop runs 64 times and every index it reads lies
    inside each digest (no overrun); and a call on the same inputs yields the
    same token. *)
Theorem session_token_is_interleaving (ip userId : jsval) (username : string) :
  let d1 := Logic.hashTokenPart (to_String ip) in
  let d2 := Logic.hashTokenPart (to_String userId) in
  let d3 := Logic.hashTokenPart username in
  let token := Logic.createSessionToken ip userId username in
  (String.length d1 = 64 ∧ String.length d2 = 64 ∧ String.length d3 = 64)%nat ∧
  (SHA256.all_hex d1 ∧ SHA256.all_hex d2 ∧ SHA256.all_hex d3) ∧
  Nat.max (Nat.max (String.length d1) (String.length d2)) (String.length d3)
    = 64%nat ∧
  token = Logic.interleave d1 d2 d3 ∧
  String.length token = 192%nat ∧
  (∀ i : nat, (i < 64)%nat →
     String.get (3 * i) token = String.get i d1 ∧
     String.get (3 * i + 1) token = String.get i d2 ∧
     String.get (3 * i + 2) token = String.get i d3 ∧
     is_Some (String.get i d1) ∧ is_Some (String.get i d2) ∧
     is_Some (String.get i d3)) ∧
  (∀ ip' userId' username',
     ip' = ip → userId' = userId → username' = username →
     Logic.createSessionToken ip' userId' username' = token).
Proof.
  intros d1 d2 d3 token.
  assert (L1 : String.length d1 = 64%nat) by apply digest_length.
  assert (L2 : String.length d2 = 64%nat) by apply digest_length.
  assert (L3 : String.length d3 = 64%nat) by apply digest_length.
  assert (E : token = Logic.interleave d1 d2 d3).
  { apply createWeave_interleave; congruence. }
  split; [auto|].
  split; [unfold d1, d2, d3, Logic.hashTokenPart; by rewrite !digest_all_hex|].
  split; [by rewrite L1, L2, L3|].
  split; [exact E|]. split; [|split].
  - rewrite E, interleave_length by congruence. rewrite L1. reflexivity.
  - intros i Hi. rewrite E.
    destruct (interleave_get d1 d2 d3 i) as (G1 & G2 & G3);
      [congruence | congruence | lia |].
    repeat split; try assumption; apply get_in_range; lia.
  - intros ip' userId' username' -> -> ->. reflexivity.
Qed.

Lemma session_token_is_interleaving_witness :
  String.get 4 (Logic.createSessionToken (JStr "127.0.0.1") (JNum 1) "bob")
  = String.get 1 (Logic.hashTokenPart "1").
Proof.
  pose proof (session_token_is_interleaving (JStr "127.0.0.1") (JNum 1) "bob")
    as (_ & _ & _ & _ & _ & H & _).
  destruct (H 1%nat) as (_ & H2 & _); [lia|]. exact H2.
Defined.

Example session_token_example :
  Logic.createSessionToken (JStr "127.0.0.1") (JNum 1) "bob"
  = "1682b1c8ba661b3727b7d4389ffafcf3d2422fc8c69ed41a3966d3f653b908e3"
    +:+ "06e490e61f36f16510a333a0f1a51277140e7d5ae2d75a9d452ee6a46abe2722"
    +:+ "20f591b2d864479d4c130e3108eb05412cadf8ddfb9d7e48c0757581bca4e0b9".
Proof. vm_compute. reflexivity. Qed.

(** ** Usernames on their way to the database *)

Section usernames.
Import Logic.

Lemma strip_filter (s : string) :
  String.list_ascii_of_string (strip s)
  = filter (λ c, allowed c = true) (String.list_ascii_of_string s).
Proof.
  induction s as [|c s IH]; [reflexivity|].
  cbn [strip String.list_ascii_of_string]. rewrite filter_cons.
  destruct (allowed c) eqn:E.
  - rewrite decide_True by reflexivity. cbn [String.list_ascii_of_string]. by f_equal.
  - rewrite decide_False by discriminate. exact IH.
Qed.

(** The class of the code is the class [[a-zA-Z0-9_-]], character by
    character over all 256 bytes. *)
Lemma allowed_iff_class (c : ascii) :
  allowed c = true ↔ c ∈ Spec.username_class.
Proof.
  assert (Hall : allowed c = bool_decide (c ∈ Spec.username_class)).
  { destruct c as [[] [] [] [] [] [] [] []]; vm_compute; reflexivity. }
  rewrite Hall. split; [apply bool_decide_eq_true_1|apply bool_decide_eq_true_2].
Qed.

Lemma strip_class (s : string) :
  String.list_ascii_of_string (strip s)
  = filter (.∈ Spec.username_class) (String.list_ascii_of_string s).
Proof.
  rewrite strip_filter. apply list_filter_iff. intros c.
  apply allowed_iff_class.
Qed.

Lemma strip_all_allowed (s : string) : all_allowed (strip s) = true.
Proof.
  induction s as [|c s IH]; [reflexivity|].
  cbn [strip]. destruct (allowed c) eqn:E; [|exact IH].
  cbn [all_allowed]. by rewrite E, IH.
Qed.

Lemma validateSanitizeUsername_spec (raw : string) :
  validateSanitizeUsername raw =
  if bool_decide (3 ≤ String.length (strip raw) ≤ 15)%nat
  then Some (strip raw) else None.
Proof.
  unfold validateSanitizeUsername, usernameRegex_test.
  rewrite strip_all_allowed. cbn [andb].
  case_bool_decide as Hlen.
  - destruct Hlen as [H3 H15].
    apply Nat.leb_le in H3, H15. by rewrite H3, H15.
  - destruct (3 <=? String.length (strip raw))%nat eqn:H3; [|reflexivity].
    destruct (String.length (strip raw) <=? 15)%nat eqn:H15; [|reflexivity].
    apply Nat.leb_le in H3, H15. exfalso. apply Hlen. lia.
Qed.



End usernames.



(** ** The drop loop *)

Section drop_facts.

Lemma row_assign_lookup (r : list cell) (col c : nat) (mark : color) :
  match row_assign r col mark !! c with Some x => x | None => None end
  = if decide (c = col) then Some mark
    else match r !! c with Some x => x | None => None end.
Proof.
  unfold row_assign, cell in *.
  destruct (decide (col < length r)%nat) as [Hin|Hout].
  - destruct (decide (c = col)) as [->|Hne].
    + by rewrite list_lookup_insert_eq.
    + by rewrite list_lookup_insert_ne.
  - destruct (decide (c = col)) as [->|Hne].
    + rewrite lookup_app_r by lia.
      rewrite lookup_app_r by (rewrite length_replicate; lia).
      rewrite length_replicate.
      replace (col - length r - (col - length r))%nat with 0%nat by lia.
      reflexivity.
    + destruct (decide (c < length r)%nat) as [Hc|Hc].
      * by rewrite lookup_app_l.
      * rewrite (lookup_ge_None_2 r c) by lia.
        rewrite lookup_app_r by lia.
        destruct (decide (c < col)%nat) as [Hlt|Hge].
        -- rewrite lookup_app_l by (rewrite length_replicate; lia).
           rewrite lookup_replicate_2 by lia. reflexivity.
        -- rewrite lookup_app_r by (rewrite length_replicate; lia).
           rewrite length_replicate.
           rewrite lookup_ge_None_2; [reflexivity|]. simpl. lia.
Qed.

Lemma cell_at_assign_same (board : list (list cell)) (row col : nat) mark :
  (row < length board)%nat →
  cell_at (assign board row col mark) row col = Some mark.
Proof.
  intros Hrow. unfold cell_at, assign. rewrite list_lookup_alter_eq.
  destruct (lookup_lt_is_Some_2 board row Hrow) as [r ->]. cbn [fmap option_fmap option_map].
  rewrite row_assign_lookup. by rewrite decide_True.
Qed.

Lemma cell_at_assign_other (board : list (list cell)) (row col r c : nat) mark :
  (r, c) ≠ (row, col) →
  cell_at (assign board row col mark) r c = cell_at board r c.
Proof.
  intros Hne. unfold cell_at, assign.
  destruct (decide (r = row)) as [->|Hr].
  - rewrite list_lookup_alter_eq. destruct (board !! row) as [x|]; [|reflexivity].
    cbn [fmap option_fmap option_map]. rewrite row_assign_lookup.
    rewrite decide_False; [reflexivity|]. congruence.
  - by rewrite list_lookup_alter_ne.
Qed.

Lemma assign_six_by_seven (board : list (list cell)) (row col : nat) mark :
  six_by_seven board → (col < 7)%nat → six_by_seven (assign board row col mark).
Proof.
  intros [Hlen Hrows] Hcol. split.
  - unfold assign. by rewrite length_alter.
  - unfold assign. apply Forall_alter; [assumption|].
    intros r _. rewrite Forall_forall in Hrows.
    intros Hr. unfold row_assign. rewrite decide_True by lia.
    by rewrite length_insert.
Qed.

(** A column with no empty cell among the rows still to visit: nothing is
    placed and the board is as it was. *)
Lemma drop_loop_full (board : list (list cell)) (col : nat) mark (n : nat) :
  (∀ r, (r < n)%nat → cell_at board r col ≠ None) →
  drop_loop board n col mark = (false, board).
Proof.
  induction n as [|n IH]; intros Hfull; [reflexivity|].
  cbn [drop_loop]. destruct (cell_at board n col) eqn:E.
  - apply IH. intros r Hr. apply Hfull. lia.
  - exfalso. apply (Hfull n); [lia | assumption].
Qed.

(** The loop stops at the empty row that has only occupied rows below it. *)
Lemma drop_loop_lowest (board : list (list cell)) (col : nat) mark (n r : nat) :
  (r < n)%nat →
  cell_at board r col = None →
  (∀ r', (r < r' < n)%nat → cell_at board r' col ≠ None) →
  drop_loop board n col mark = (true, assign board r col mark).
Proof.
  induction n as [|n IH]; intros Hr Hempty Hbelow; [lia|].
  cbn [drop_loop]. destruct (decide (r = n)) as [->|Hne].
  - by rewrite Hempty.
  - destruct (cell_at board n col) eqn:E.
    + apply IH; [lia | assumption |]. intros r' Hr'. apply Hbelow. lia.
    + exfalso. apply (Hbelow n); [lia | assumption].
Qed.

Lemma lowest_empty_exists (board : list (list cell)) (col n : nat) :
  (∃ r, (r < n)%nat ∧ cell_at board r col = None) →
  ∃ r, (r < n)%nat ∧ cell_at board r col = None ∧
       ∀ r', (r < r' < n)%nat → cell_at board r' col ≠ None.
Proof.
  induction n as [|n IH]; intros (r & Hr & Hempty); [lia|].
  destruct (cell_at board n col) eqn:E.
  - destruct IH as (r0 & Hr0 & He0 & Hb0).
    { exists r. split; [|assumption].
      destruct (decide (r = n)) as [->|]; [congruence | lia]. }
    exists r0. split; [lia|]. split; [assumption|].
    intros r' Hr'. destruct (decide (r' = n)) as [->|]; [congruence|].
    apply Hb0. lia.
  - exists n. split; [lia|]. split; [assumption|]. intros r' Hr'. lia.
Qed.

End drop_facts.

(** ** The move endpoint *)

Section move_endpoint.
Import Server.

(** The storage function raises before any statement is sent to the pool:
    none of the names it reads is bound, whatever the caller passes. *)
Lemma updateGameState_throws args (d : Db.t) :
  Db.updateGameState args d = (Throw (ReferenceError "board"), d).
Proof. reflexivity. Qed.

(** Where the move message is built, [row] is not bound: the last stage of
    the handler raises and pushes nothing, whoever is registered. *)
Lemma announce_move_throws gameId playerId col game board placed nextTurn
    (st : t) :
  announce_move gameId playerId col game board placed nextTurn st
  = (Unhandled (ReferenceError "row"), [], st).
Proof. reflexivity. Qed.

(** Reading leaves the tables alone. *)
Lemma tables_send q (d : Db.t) : Db.tables (Db.send q d) = Db.tables d.
Proof. reflexivity. Qed.

Lemma getGameWithId_send gameId q (d : Db.t) :
  fst (Logic.getGameWithId gameId (Db.send q d))
  = fst (Logic.getGameWithId gameId d).
Proof. reflexivity. Qed.

(** What the handler does with a move it accepts. *)
Lemma post_move_accepted gameId playerId col (st : t) game r :
  0 ≤ col < 7 →
  fst (Logic.getGameWithId (JStr gameId) (db st)) = Some game →
  Db.current_turn game = playerId →
  (r < length (Db.game_state game))%nat →
  cell_at (Db.game_state game) r (Z.to_nat col) = None →
  post_move gameId playerId col st
  = (Unhandled (ReferenceError "board"), [],
     with_db st (Db.send (Db.SelectGame (JStr gameId)) (db st))).
Proof.
  intros Hcol Hgame Hturn Hr Hempty. unfold post_move.
  rewrite bool_decide_false by lia.
  unfold Logic.getGameWithId, Db.getGameWithId in *. cbn [fst] in Hgame.
  rewrite Hgame.
  unfold strict_eq at 1. rewrite bool_decide_true by assumption. cbn [negb].
  destruct (lowest_empty_exists (Db.game_state game) (Z.to_nat col)
              (length (Db.game_state game))) as (r0 & Hr0 & He0 & Hb0);
    [eauto|].
  unfold drop_in_column.
  rewrite (drop_loop_lowest _ _ _ _ r0 Hr0 He0 Hb0). cbn [negb].
  unfold Logic.updateGameState. rewrite updateGameState_throws.
  reflexivity.
Qed.

(** What it does when the column is full. *)
Lemma post_move_full gameId playerId col (st : t) game :
  0 ≤ col < 7 →
  fst (Logic.getGameWithId (JStr gameId) (db st)) = Some game →
  Db.current_turn game = playerId →
  (∀ r, (r < length (Db.game_state game))%nat →
        cell_at (Db.game_state game) r (Z.to_nat col) ≠ None) →
  post_move gameId playerId col st
  = (Responded 400 "Column is full", [],
     with_db st (Db.send (Db.SelectGame (JStr gameId)) (db st))).
Proof.
  intros Hcol Hgame Hturn Hfull. unfold post_move.
  rewrite bool_decide_false by lia.
  unfold Logic.getGameWithId, Db.getGameWithId in *. cbn [fst] in Hgame.
  rewrite Hgame.
  unfold strict_eq at 1. rewrite bool_decide_true by assumption. cbn [negb].
  unfold drop_in_column. rewrite drop_loop_full by assumption.
  reflexivity.
Qed.

(** What it does when the player is not the one on turn. *)
Lemma post_move_not_turn gameId playerId col (st : t) game :
  0 ≤ col < 7 →
  fst (Logic.getGameWithId (JStr gameId) (db st)) = Some game →
  Db.current_turn game ≠ playerId →
  post_move gameId playerId col st
  = (Responded 400 "Not your turn", [],
     with_db st (Db.send (Db.SelectGame (JStr gameId)) (db st))).
Proof.
  intros Hcol Hgame Hturn. unfold post_move.
  rewrite bool_decide_false by lia.
  unfold Logic.getGameWithId, Db.getGameWithId in *. cbn [fst] in Hgame.
  rewrite Hgame.
  unfold strict_eq at 1. rewrite bool_decide_false by assumption.
  reflexivity.
Qed.

End move_endpoint.

(** C1 (the code departs from the claim).  An accepted move -- the player is
    the one whose turn it is and the column has an empty cell -- is not
    persisted: the handler stops on the [ReferenceError] raised inside
    [updateGameState], the only statement sent is the SELECT of the game, the
    tables are as before, and the stored row is the one read: the stored turn
    is still the mover's, not the opponent's. *)
Theorem accepted_move_is_not_persisted
    gameId playerId col (st : Server.t) game (r : nat) :
  0 ≤ col < 7 →
  fst (Logic.getGameWithId (JStr gameId) (Server.db st)) = Some game →
  Db.current_turn game = playerId →
  (r < length (Db.game_state game))%nat →
  cell_at (Db.game_state game) r (Z.to_nat col) = None →
  let result := Server.post_move gameId playerId col st in
  result.1.1 = Server.Unhandled (ReferenceError "board") ∧
  Db.sent (Server.db result.2)
    = Db.sent (Server.db st) ++ [Db.SelectGame (JStr gameId)] ∧
  Db.tables (Server.db result.2) = Db.tables (Server.db st) ∧
  fst (Logic.getGameWithId (JStr gameId) (Server.db result.2)) = Some game ∧
  Db.current_turn <$>
    fst (Logic.getGameWithId (JStr gameId) (Server.db result.2))
  = Some playerId.
Proof.
  intros Hcol Hgame Hturn Hr Hempty result. subst result.
  rewrite (post_move_accepted _ _ _ _ _ _ Hcol Hgame Hturn Hr Hempty).
  cbn [fst snd Server.with_db Server.db].
  rewrite tables_send, getGameWithId_send, Hgame.
  cbn [fmap option_fmap option_map]. rewrite Hturn. auto.
Qed.

Lemma accepted_move_is_not_persisted_witness :
  Db.current_turn <$>
    fst (Logic.getGameWithId (JStr "1")
           (Server.db (Server.post_move "1" (JStr "1") 3 Server.scenario).2))
  = Some (JStr "1").
Proof.
  pose proof (accepted_move_is_not_persisted "1" (JStr "1") 3 Server.scenario
    {| Db.player1_id := JStr "1"; Db.player2_id := JStr "2";
       Db.current_turn := JStr "1"; Db.game_state := initialBoard;
       Db.winner_id := JNull |} 5%nat) as H.
  destruct H as (_ & _ & _ & _ & H);
    [lia | reflexivity | reflexivity | simpl; lia | reflexivity |].
  exact H.
Defined.

(** C5 (the code departs from the claim).  On an accepted move no participant
    is sent anything, though both are registered: the handler has stopped on
    the [ReferenceError] of [updateGameState] before the message is built.
    And the stage that builds and pushes the message raises on its own,
    whenever it is entered: it reads [row], which is bound only inside the
    drop loop. *)
Theorem accepted_move_notifies_nobody
    gameId playerId col (st : Server.t) game (r : nat) (s1 s2 : Server.conn) :
  0 ≤ col < 7 →
  fst (Logic.getGameWithId (JStr gameId) (Server.db st)) = Some game →
  Db.current_turn game = playerId →
  (r < length (Db.game_state game))%nat →
  cell_at (Db.game_state game) r (Z.to_nat col) = None →
  Server.userSockets st !! Db.player1_id game = Some s1 →
  Server.userSockets st !! Db.player2_id game = Some s2 →
  let result := Server.post_move gameId playerId col st in
  result.1.2 = [] ∧
  result.1.1 = Server.Unhandled (ReferenceError "board") ∧
  ∀ board placed nextTurn,
    Server.announce_move gameId playerId col game board placed nextTurn st
    = (Server.Unhandled (ReferenceError "row"), [], st).
Proof.
  intros Hcol Hgame Hturn Hr Hempty _ _ result. subst result.
  rewrite (post_move_accepted _ _ _ _ _ _ Hcol Hgame Hturn Hr Hempty).
  split; [reflexivity|]. split; [reflexivity|].
  intros. apply announce_move_throws.
Qed.

Lemma accepted_move_notifies_nobody_witness :
  (Server.post_move "1" (JStr "1") 3 Server.scenario).1.2 = [].
Proof.
  pose proof (accepted_move_notifies_nobody "1" (JStr "1") 3 Server.scenario
    {| Db.player1_id := JStr "1"; Db.player2_id := JStr "2";
       Db.current_turn := JStr "1"; Db.game_state := initialBoard;
       Db.winner_id := JNull |} 5%nat 11%nat 12%nat) as H.
  destruct H as (H & _);
    [lia | reflexivity | reflexivity | simpl; lia | reflexivity
    | reflexivity | reflexivity |].
  exact H.
Defined.

Lemma initialBoard_six_by_seven : six_by_seven initialBoard.
Proof. split; [reflexivity | repeat constructor]. Qed.

(** On the empty board the first disc of a column comes to rest on row 5 and
    the next one on row 4. *)
Lemma first_two_drops (c : nat) (first second : color) :
  (c < 7)%nat →
  drop_in_column initialBoard c first = (true, assign initialBoard 5 c first) ∧
  drop_in_column (assign initialBoard 5 c first) c second
  = (true, assign (assign initialBoard 5 c first) 4 c second).
Proof.
  intros Hc.
  do 7 (destruct c as [|c]; [split; reflexivity|]). lia.
Qed.

(** C2, amended.  On a 6x7 board and a column 0..6: when the column has an
    empty cell the drop takes the lowest one -- the empty cell with only
    occupied cells below it -- and changes no other cell; when all six cells
    of the column are occupied nothing is placed, a request by the player on
    turn is answered "Column is full" and the tables are unchanged.  On the fresh board the first drop in a column
    lands on row 5 and the second on row 4. *)
Theorem gravity_drop (board : list (list cell)) (col : Z) (mark : color) :
  six_by_seven board →
  0 ≤ col < 7 →
  let c := Z.to_nat col in
  ((∃ r, (r < 6)%nat ∧ cell_at board r c = None) →
   ∃ r, (r < 6)%nat ∧
        cell_at board r c = None ∧
        (∀ r', (r < r' < 6)%nat → cell_at board r' c ≠ None) ∧
        drop_in_column board c mark = (true, assign board r c mark) ∧
        cell_at (assign board r c mark) r c = Some mark ∧
        (∀ r' c', (r', c') ≠ (r, c) →
           cell_at (assign board r c mark) r' c' = cell_at board r' c') ∧
        six_by_seven (assign board r c mark)) ∧
  ((∀ r, (r < 6)%nat → cell_at board r c ≠ None) →
   drop_in_column board c mark = (false, board) ∧
   ∀ gameId playerId (st : Server.t) game,
     fst (Logic.getGameWithId (JStr gameId) (Server.db st)) = Some game →
     Db.game_state game = board →
     Db.current_turn game = playerId →
     let result := Server.post_move gameId playerId col st in
     result.1 = (Server.Responded 400 "Column is full", []) ∧
     Db.tables (Server.db result.2) = Db.tables (Server.db st) ∧
     fst (Logic.getGameWithId (JStr gameId) (Server.db result.2)) = Some game) ∧
  (∀ second,
     let first_board := (drop_in_column initialBoard c mark).2 in
     let second_board := (drop_in_column first_board c second).2 in
     drop_in_column initialBoard c mark = (true, assign initialBoard 5 c mark) ∧
     drop_in_column first_board c second
     = (true, assign (assign initialBoard 5 c mark) 4 c second) ∧
     cell_at first_board 5 c = Some mark ∧
     cell_at second_board 5 c = Some mark ∧
     cell_at second_board 4 c = Some second).
Proof.
  intros Hwf Hcol c. pose proof Hwf as [Hlen Hrows].
  assert (Hc : (c < 7)%nat) by (subst c; lia).
  split; [|split].
  - intros Hsome.
    destruct (lowest_empty_exists board c 6) as (r & Hr & He & Hb);
      [assumption|].
    exists r. split; [assumption|]. split; [assumption|].
    split; [assumption|]. split; [|split; [|split]].
    + unfold drop_in_column. rewrite Hlen. by apply drop_loop_lowest.
    + apply cell_at_assign_same. lia.
    + intros r' c' Hne. by apply cell_at_assign_other.
    + by apply assign_six_by_seven.
  - intros Hfull. split.
    + unfold drop_in_column. rewrite Hlen. by apply drop_loop_full.
    + intros gameId playerId st game Hgame Hboard Hturn result. subst result.
      rewrite (post_move_full _ _ _ _ game Hcol Hgame Hturn).
      2:{ rewrite Hboard, Hlen. exact Hfull. }
      cbn [fst snd Server.with_db Server.db].
      rewrite tables_send, getGameWithId_send. auto.
  - intros second first_board second_board.
    destruct (first_two_drops c mark second Hc) as [H1 H2].
    subst second_board first_board. rewrite H1. cbn [snd]. rewrite H2.
    cbn [snd]. split; [reflexivity|]. split; [reflexivity|].
    split; [|split].
    + apply cell_at_assign_same. simpl. lia.
    + rewrite cell_at_assign_other by (intros [=]).
      apply cell_at_assign_same. simpl. lia.
    + apply cell_at_assign_same. unfold assign. rewrite length_alter.
      simpl. lia.
Qed.

Lemma gravity_drop_witness :
  drop_in_column initialBoard 3 Red = (true, assign initialBoard 5 3 Red) ∧
  drop_in_column (assign initialBoard 5 3 Red) 3 Yellow
  = (true, assign (assign initialBoard 5 3 Red) 4 3 Yellow).
Proof.
  pose proof (gravity_drop initialBoard 3 Red initialBoard_six_by_seven) as H.
  destruct H as (_ & _ & H); [lia|].
  destruct (H Yellow) as (H1 & H2 & _). cbn [Z.to_nat Pos.to_nat Pos.iter_op Nat.add] in *.
  split; [exact H1|]. rewrite H1 in H2. exact H2.
Defined.

(** C2 as first stated, for every move request, fails: on a full column a
    request by the player who is not on turn is answered "Not your turn" --
    the turn is tested before the column is scanned. *)
Lemma gravity_drop_counterexample :
  let drop1 board := snd (drop_in_column board 0 Red) in
  let full := drop1 (drop1 (drop1 (drop1 (drop1 (drop1 initialBoard))))) in
  let game := {| Db.player1_id := JStr "1"; Db.player2_id := JStr "2";
                 Db.current_turn := JStr "1"; Db.game_state := full;
                 Db.winner_id := JNull |} in
  let st := Server.initial
              {| Db.users := []; Db.user_seq := 1; Db.challenge := ∅;
                 Db.game := {[ 1 := game ]}; Db.game_seq := 2;
                 Db.sent := [] |} in
  six_by_seven full ∧
  (∀ r, (r < 6)%nat → cell_at full r 0 ≠ None) ∧
  fst (Logic.getGameWithId (JStr "1") (Server.db st)) = Some game ∧
  (Server.post_move "1" (JStr "2") 0 st).1
  = (Server.Responded 400 "Not your turn", []) ∧
  (Server.post_move "1" (JStr "1") 0 st).1
  = (Server.Responded 400 "Column is full", []).
Proof.
  cbn zeta. split; [|split; [|split; [|split]]].
  - split; [reflexivity|]. repeat constructor.
  - intros r Hr. do 6 (destruct r as [|r]; [discriminate|]). lia.
  - reflexivity.
  - reflexivity.
  - reflexivity.
Qed.

(** C3, amended.  For a stored, non-terminal game and a move request on a
    column 0..6 whose playerId differs from the game's current turn, the
    endpoint answers "Not your turn", sends nothing, and leaves the tables,
    the stored game, the registry and the rooms as they were. *)
Theorem not_your_turn gameId playerId col (st : Server.t) game :
  0 ≤ col < 7 →
  fst (Logic.getGameWithId (JStr gameId) (Server.db st)) = Some game →
  Db.winner_id game = JNull →
  Db.current_turn game ≠ playerId →
  let result := Server.post_move gameId playerId col st in
  result.1 = (Server.Responded 400 "Not your turn", []) ∧
  Db.tables (Server.db result.2) = Db.tables (Server.db st) ∧
  fst (Logic.getGameWithId (JStr gameId) (Server.db result.2)) = Some game ∧
  Server.userSockets result.2 = Server.userSockets st ∧
  Server.rooms result.2 = Server.rooms st ∧
  Server.open_sockets result.2 = Server.open_sockets st.
Proof.
  intros Hcol Hgame _ Hturn result. subst result.
  rewrite (post_move_not_turn _ _ _ _ game Hcol Hgame Hturn).
  cbn [fst snd Server.with_db Server.db Server.userSockets Server.rooms
       Server.open_sockets].
  rewrite tables_send, getGameWithId_send. repeat split; assumption.
Qed.

Lemma not_your_turn_witness :
  (Server.post_move "1" (JStr "2") 3 Server.scenario).1
  = (Server.Responded 400 "Not your turn", []).
Proof.
  pose proof (not_your_turn "1" (JStr "2") 3 Server.scenario
    {| Db.player1_id := JStr "1"; Db.player2_id := JStr "2";
       Db.current_turn := JStr "1"; Db.game_state := initialBoard;
       Db.winner_id := JNull |}) as H.
  destruct H as (H & _);
    [lia | reflexivity | reflexivity | discriminate |].
  exact H.
Defined.

(** C3 as first stated, for every column, fails: with a column outside 0..6
    the answer to the player who is not on turn is "Invalid column". *)
Lemma not_your_turn_counterexample :
  ∃ game,
    fst (Logic.getGameWithId (JStr "1") (Server.db Server.scenario)) = Some game ∧
    Db.winner_id game = JNull ∧
    Db.current_turn game ≠ JStr "2" ∧
    Server.post_move "1" (JStr "2") 7 Server.scenario
    = (Server.Responded 400 "Invalid column", [], Server.scenario).
Proof.
  eexists. split; [reflexivity|]. split; [reflexivity|].
  split; [discriminate | reflexivity].
Qed.

(** ** The WebSocket channel *)

Section channel.
Import Server.

Lemma not_elem_of_removed (ws : conn) (clients : gset conn) :
  ws ∉ clients ∖ {[ws]}.
Proof.
  intros [_ Hnot]%elem_of_difference. apply Hnot. by apply elem_of_singleton.
Qed.

Lemma alone_union (ws : conn) (clients : gset conn) :
  clients ⊆ {[ws]} → {[ws]} ∪ clients = {[ws]}.
Proof.
  intros Halone. apply set_eq. intros x.
  rewrite elem_of_union, elem_of_singleton. split; [|tauto].
  intros [?|Hx]; [done|]. apply Halone in Hx. by apply elem_of_singleton in Hx.
Qed.

Lemma add_to_room_lookup room ws (r : gmap jsval (gset conn)) :
  add_to_room room ws r !! room = Some ({[ws]} ∪ default ∅ (r !! room)).
Proof. unfold add_to_room. apply lookup_insert_eq. Qed.

Lemma add_to_room_lookup_ne room room' ws (r : gmap jsval (gset conn)) :
  room ≠ room' → add_to_room room ws r !! room' = r !! room'.
Proof. intros Hne. unfold add_to_room. by apply lookup_insert_ne. Qed.

Lemma remove_from_room_lookup room ws (r : gmap jsval (gset conn)) :
  remove_from_room room ws r !! room = (λ clients, clients ∖ {[ws]}) <$> r !! room.
Proof.
  unfold remove_from_room. destruct (r !! room) as [clients|] eqn:E.
  - by rewrite lookup_insert_eq.
  - by rewrite E.
Qed.

Lemma remove_from_room_lookup_ne room room' ws (r : gmap jsval (gset conn)) :
  room ≠ room' → remove_from_room room ws r !! room' = r !! room'.
Proof.
  intros Hne. unfold remove_from_room.
  destruct (r !! room); [by apply lookup_insert_ne | reflexivity].
Qed.

Lemma on_message_join ws userId fields (st : t) :
  fields !! "action" = Some (JStr "join") →
  on_message ws userId (Normal (JsonObject fields)) st
  = ([], with_rooms st
           (add_to_room (field (JsonObject fields) "room") ws (rooms st))).
Proof.
  intros Ha. unfold on_message, dispatch. cbn [destructurable field].
  rewrite Ha. reflexivity.
Qed.

Lemma on_message_leave ws userId fields (st : t) :
  fields !! "action" = Some (JStr "leave") →
  on_message ws userId (Normal (JsonObject fields)) st
  = ([], with_rooms st
           (remove_from_room (field (JsonObject fields) "room") ws (rooms st))).
Proof.
  intros Ha. unfold on_message, dispatch. cbn [destructurable field].
  rewrite Ha. reflexivity.
Qed.

Lemma on_message_game_action ws userId fields (st : t) :
  fields !! "action" = Some (JStr "gameChat") ∨
  fields !! "action" = Some (JStr "gameMove") →
  on_message ws userId (Normal (JsonObject fields)) st
  = ([(ws, MsgError "Invalid message format")], st).
Proof.
  intros [Ha|Ha]; unfold on_message, dispatch; cbn [destructurable field];
    rewrite Ha; reflexivity.
Qed.

Lemma on_message_decline ws userId fields (st : t) challengeId :
  fields !! "action" = Some (JStr "declineChallenge") →
  fields !! "challengeId" = Some challengeId →
  truthy challengeId = true →
  fst (Logic.getChallengeWithId challengeId (db st)) = None →
  on_message ws userId (Normal (JsonObject fields)) st
  = ([(ws, MsgError "Failed to decline challenge")],
     with_db st (Db.send (Db.SelectChallenge challengeId) (db st))).
Proof.
  intros Ha Hid Htruthy Hnone. unfold on_message, dispatch.
  cbn [destructurable field]. rewrite Ha, Hid. cbn [from_option id].
  rewrite (bool_decide_false (JStr "declineChallenge" = JStr "join")) by discriminate.
  rewrite (bool_decide_false (JStr "declineChallenge" = JStr "leave")) by discriminate.
  rewrite (bool_decide_false (JStr "declineChallenge" = JStr "message")) by discriminate.
  rewrite (bool_decide_false (JStr "declineChallenge" = JStr "sendChallenge")) by discriminate.
  rewrite (bool_decide_true (JStr "declineChallenge" = JStr "declineChallenge")) by reflexivity.
  rewrite Htruthy. cbn [negb].
  unfold Logic.getChallengeWithId, Db.getChallengeWithId in *.
  cbn [fst] in Hnone. rewrite Hnone. reflexivity.
Qed.

(** The state a message leaves behind is the one its dispatch leaves. *)
Lemma on_message_state ws userId parsed (st : t) :
  (on_message ws userId parsed st).2
  = match parsed with
    | Throw _ => st
    | Normal data =>
        match destructurable data with
        | Throw _ => st
        | Normal _ => (dispatch ws userId data st).2
        end
    end.
Proof.
  unfold on_message. destruct parsed as [data|e]; [|reflexivity].
  destruct (destructurable data); [|reflexivity].
  destruct (dispatch ws userId data st) as [[[u|e] out] st']; reflexivity.
Qed.

(** A dispatch touches neither the registry nor the open sockets, and of the
    rooms at most the one named: the socket is added to it or removed from
    it. *)
Lemma dispatch_state ws userId data (st : t) :
  let st' := (dispatch ws userId data st).2 in
  open_sockets st' = open_sockets st ∧
  userSockets st' = userSockets st ∧
  (rooms st' = rooms st ∨
   rooms st' = add_to_room (field data "room") ws (rooms st) ∨
   rooms st' = remove_from_room (field data "room") ws (rooms st)).
Proof.
  unfold dispatch.
  destruct (bool_decide (field data "action" = JStr "join")).
  { cbn [snd]. auto. }
  destruct (bool_decide (field data "action" = JStr "leave")).
  { cbn [snd]. auto. }
  destruct (bool_decide (field data "action" = JStr "message")).
  { destruct (rooms st !! field data "room"); cbn [snd]; auto. }
  destruct (bool_decide (field data "action" = JStr "sendChallenge")).
  { destruct (if truthy (field data "targetUserId")
              then userSockets st !! field data "targetUserId" else None);
      cbn [snd]; auto. }
  destruct (bool_decide (field data "action" = JStr "declineChallenge")).
  { destruct (negb (truthy (field data "challengeId"))); [cbn [snd]; auto|].
    unfold Logic.getChallengeWithId, Db.getChallengeWithId.
    destruct (Db.row_key (field data "challengeId")
                ≫= λ k, Db.challenge (db st) !! k) as [row|];
      cbn [challege_length]; [|cbn [snd]; auto].
    destruct (strict_eq JUndefined (JNum 0)); cbn [snd]; auto. }
  destruct (bool_decide (field data "action" = JStr "startGame")).
  { unfold Logic.createGame.
    destruct (Db.createGame (field data "senderId") (field data "accepterId")
                initialBoard (db st)) as [[game|e] d]; cbn [snd]; auto. }
  destruct (bool_decide (field data "action" = JStr "gameChat")).
  { destruct (ident message_scope "gameRooms"); cbn [snd]; auto. }
  destruct (bool_decide (field data "action" = JStr "gameMove")).
  { destruct (ident message_scope "gameRooms"); cbn [snd]; auto. }
  cbn [snd]. auto.
Qed.

(** The message handler never closes a socket. *)
Lemma on_message_keeps_open ws userId parsed (st : t) :
  open_sockets (on_message ws userId parsed st).2 = open_sockets st.
Proof.
  rewrite on_message_state. destruct parsed as [data|e]; [|reflexivity].
  destruct (destructurable data); [|reflexivity].
  apply dispatch_state.
Qed.

(** Parse errors and [null] are answered "Invalid message format"; an action
    outside the eight is answered "Unknown action". *)
Lemma on_message_parse_error ws userId e (st : t) :
  on_message ws userId (Throw e) st
  = ([(ws, MsgError "Invalid message format")], st).
Proof. reflexivity. Qed.

Lemma on_message_unknown_action ws userId fields (st : t) :
  default JUndefined (fields !! "action") ∉
    (JStr <$> ["join"; "leave"; "message"; "sendChallenge"; "declineChallenge";
               "startGame"; "gameChat"; "gameMove"]) →
  on_message ws userId (Normal (JsonObject fields)) st
  = ([(ws, MsgError "Unknown action")], st).
Proof.
  intros Hnot. unfold on_message, dispatch. cbn [destructurable field].
  repeat (rewrite bool_decide_false;
          [|intros Heq; apply Hnot; rewrite Heq; cbn [fmap list_fmap];
            repeat first [apply list_elem_of_here | apply list_elem_of_further]]).
  reflexivity.
Qed.

End channel.

(** C6 (the code departs from the claim).  After a socket joins room [R] and
    then leaves it, no other socket being a member, [R] is still in the room
    map, holding the empty set -- for "lobby" and for every other name alike:
    the "leave" case removes the socket and never deletes a room. *)
Theorem join_then_leave_keeps_room
    (ws : Server.conn) (userId R : string) (join leave : gmap string jsval)
    (st : Server.t) :
  join !! "action" = Some (JStr "join") →
  join !! "room" = Some (JStr R) →
  leave !! "action" = Some (JStr "leave") →
  leave !! "room" = Some (JStr R) →
  (∀ clients, Server.rooms st !! JStr R = Some clients → clients ⊆ {[ws]}) →
  let joined :=
    (Server.on_message ws userId (Normal (Server.JsonObject join)) st).2 in
  let left :=
    (Server.on_message ws userId (Normal (Server.JsonObject leave)) joined).2 in
  Server.rooms joined !! JStr R = Some {[ws]} ∧
  Server.rooms left !! JStr R = Some ∅.
Proof.
  intros Hja Hjr Hla Hlr Halone joined left. subst left joined.
  rewrite (on_message_join ws userId join st Hja).
  rewrite on_message_leave by assumption.
  cbn [snd Server.field Server.with_rooms Server.rooms]. rewrite Hjr, Hlr.
  cbn [from_option id].
  rewrite remove_from_room_lookup, add_to_room_lookup.
  assert (Hset : {[ws]} ∪ default ∅ (Server.rooms st !! JStr R)
                 = ({[ws]} : gset Server.conn)).
  { destruct (Server.rooms st !! JStr R) as [clients|] eqn:E;
      cbn [from_option id].
    - apply alone_union, Halone. reflexivity.
    - apply (right_id_L ∅ (∪)). }
  rewrite Hset. split; [reflexivity|].
  cbn [fmap option_fmap option_map]. f_equal. apply difference_diag_L.
Qed.

Lemma join_then_leave_keeps_room_witness :
  Server.rooms
    (Server.on_message 11%nat "1"
       (Normal (Server.JsonObject
                  {[ "action" := JStr "leave"; "room" := JStr "table-7" ]}))
       (Server.on_message 11%nat "1"
          (Normal (Server.JsonObject
                     {[ "action" := JStr "join"; "room" := JStr "table-7" ]}))
          Server.scenario).2).2
  !! JStr "table-7" = Some ∅.
Proof.
  pose proof (join_then_leave_keeps_room 11%nat "1" "table-7"
    {[ "action" := JStr "join"; "room" := JStr "table-7" ]}
    {[ "action" := JStr "leave"; "room" := JStr "table-7" ]}
    Server.scenario) as H.
  destruct H as (_ & H);
    [reflexivity | reflexivity | reflexivity | reflexivity | |exact H].
  intros clients Hc. vm_compute in Hc. discriminate.
Defined.

(** C7. When a socket closes, in the one step of the close handler: its
    userId is gone from the registry, the other entries staying; no room
    holds the socket any more; a
    room other than "lobby" that held it and is thereby empty is deleted; a
    room that keeps other members keeps exactly those; a room that did not
    hold it is untouched; and "lobby", when present, stays present. *)
Theorem close_cleans_up (ws : Server.conn) (userId : string) (st : Server.t) :
  let st' := Server.on_close ws userId st in
  Server.userSockets st' !! JStr userId = None ∧
  (∀ other, other ≠ JStr userId →
     Server.userSockets st' !! other = Server.userSockets st !! other) ∧
  (∀ room clients, Server.rooms st' !! room = Some clients → ws ∉ clients) ∧
  (∀ room clients,
     room ≠ Server.lobby →
     Server.rooms st !! room = Some clients → ws ∈ clients →
     clients ∖ {[ws]} = ∅ →
     Server.rooms st' !! room = None) ∧
  (∀ room clients,
     Server.rooms st !! room = Some clients → ws ∈ clients →
     clients ∖ {[ws]} ≠ ∅ →
     Server.rooms st' !! room = Some (clients ∖ {[ws]})) ∧
  (∀ room clients,
     Server.rooms st !! room = Some clients → ws ∉ clients →
     Server.rooms st' !! room = Some clients) ∧
  (∀ room, Server.rooms st !! room = None → Server.rooms st' !! room = None) ∧
  (is_Some (Server.rooms st !! Server.lobby) →
   is_Some (Server.rooms st' !! Server.lobby)) ∧
  ws ∉ Server.open_sockets st'.
Proof.
  intros st'. subst st'. unfold Server.on_close.
  cbn [Server.userSockets Server.rooms Server.open_sockets].
  split; [apply lookup_delete_eq|].
  split; [intros other Hother; by apply lookup_delete_ne|].
  split; [|split; [|split; [|split; [|split; [|split]]]]].
  - intros room clients. rewrite map_lookup_imap.
    destruct (Server.rooms st !! room) as [c|]; cbn [mbind option_bind];
      [|discriminate].
    repeat case_bool_decide; intros; simplify_eq;
      [apply not_elem_of_removed | assumption].
  - intros room clients Hroom Hget Hin Hempty. rewrite map_lookup_imap, Hget.
    cbn [mbind option_bind].
    rewrite bool_decide_true by assumption.
    rewrite bool_decide_true; [reflexivity|].
    split; [assumption|]. rewrite Hempty. apply size_empty.
  - intros room clients Hget Hin Hrest. rewrite map_lookup_imap, Hget.
    cbn [mbind option_bind].
    rewrite bool_decide_true by assumption.
    rewrite bool_decide_false; [reflexivity|].
    intros [_ Hsize]. apply Hrest. apply size_empty_inv in Hsize.
    by apply leibniz_equiv.
  - intros room clients Hget Hin. rewrite map_lookup_imap, Hget.
    cbn [mbind option_bind]. by rewrite bool_decide_false.
  - intros room Hget. by rewrite map_lookup_imap, Hget.
  - intros [clients Hget]. rewrite map_lookup_imap, Hget.
    cbn [mbind option_bind].
    case_bool_decide; [|eauto].
    rewrite bool_decide_false; [eauto|]. intros [Hne _]. by apply Hne.
  - apply not_elem_of_removed.
Qed.

Lemma close_cleans_up_witness :
  Server.rooms
    (Server.on_close 11%nat "1"
       (Server.with_rooms Server.scenario
          (Server.add_to_room (JStr "table-7") 11%nat
             (Server.rooms Server.scenario))))
  !! JStr "table-7" = None.
Proof.
  pose proof (close_cleans_up 11%nat "1"
    (Server.with_rooms Server.scenario
       (Server.add_to_room (JStr "table-7") 11%nat
          (Server.rooms Server.scenario)))) as H.
  destruct H as (_ & _ & _ & H & _).
  apply (H (JStr "table-7") {[11%nat]}).
  - discriminate.
  - reflexivity.
  - by apply elem_of_singleton.
  - apply difference_diag_L.
Defined.

(** C8 (the code departs from the claim).  A payload that decodes into an
    object whose action is "gameChat" or "gameMove" -- two of the eight known
    actions -- is answered "Invalid message format": the case reads
    [gameRooms], which nothing binds, and the [ReferenceError] lands in the
    handler's one [catch].  Nothing else is sent and the state, the set of
    open sockets included, is unchanged. *)
Theorem known_action_answered_invalid_format
    (ws : Server.conn) (userId : string) (fields : gmap string jsval)
    (st : Server.t) :
  fields !! "action" = Some (JStr "gameChat") ∨
  fields !! "action" = Some (JStr "gameMove") →
  Server.on_message ws userId (Normal (Server.JsonObject fields)) st
  = ([(ws, Server.MsgError "Invalid message format")], st).
Proof. apply on_message_game_action. Qed.

Lemma known_action_answered_invalid_format_witness :
  Server.on_message 11%nat "1"
    (Normal (Server.JsonObject
               {[ "action" := JStr "gameChat"; "gameId" := JStr "1";
                  "sender" := JStr "1"; "message" := JStr "good luck" ]}))
    Server.scenario
  = ([(11%nat, Server.MsgError "Invalid message format")], Server.scenario).
Proof.
  apply known_action_answered_invalid_format. left. reflexivity.
Defined.

(** C9 (the code departs from the claim).  A declineChallenge request whose
    challengeId identifies no stored challenge is answered, to the decliner
    alone, "Failed to decline challenge" -- not a "not found" error: the
    lookup yields [undefined], reading its [length] raises, and the inner
    [catch] answers.  No other socket is sent anything and the tables, the
    registry and the rooms are unchanged. *)
Theorem decline_unknown_challenge
    (ws : Server.conn) (userId : string) (fields : gmap string jsval)
    (challengeId : jsval) (st : Server.t) :
  fields !! "action" = Some (JStr "declineChallenge") →
  fields !! "challengeId" = Some challengeId →
  truthy challengeId = true →
  fst (Logic.getChallengeWithId challengeId (Server.db st)) = None →
  let result :=
    Server.on_message ws userId (Normal (Server.JsonObject fields)) st in
  result.1 = [(ws, Server.MsgError "Failed to decline challenge")] ∧
  Db.tables (Server.db result.2) = Db.tables (Server.db st) ∧
  Server.userSockets result.2 = Server.userSockets st ∧
  Server.rooms result.2 = Server.rooms st ∧
  Server.open_sockets result.2 = Server.open_sockets st.
Proof.
  intros Ha Hid Htruthy Hnone result. subst result.
  rewrite (on_message_decline ws userId fields st challengeId) by assumption.
  repeat split.
Qed.

Lemma decline_unknown_challenge_witness :
  (Server.on_message 12%nat "2"
     (Normal (Server.JsonObject
                {[ "action" := JStr "declineChallenge";
                   "challengeId" := JNum 41 ]}))
     Server.scenario).1
  = [(12%nat, Server.MsgError "Failed to decline challenge")].
Proof.
  pose proof (decline_unknown_challenge 12%nat "2"
    {[ "action" := JStr "declineChallenge"; "challengeId" := JNum 41 ]}
    (JNum 41) Server.scenario) as H.
  destruct H as (H & _); [reflexivity | reflexivity | reflexivity | reflexivity |].
  exact H.
Defined.

(** ** The lobby outlives every event *)

Section lobby.
Import Server.

Lemma add_to_room_keeps room ws (r : gmap jsval (gset conn)) k :
  is_Some (r !! k) → is_Some (add_to_room room ws r !! k).
Proof.
  intros Hk. destruct (decide (room = k)) as [->|Hne].
  - rewrite add_to_room_lookup. eauto.
  - by rewrite add_to_room_lookup_ne.
Qed.

Lemma remove_from_room_keeps room ws (r : gmap jsval (gset conn)) k :
  is_Some (r !! k) → is_Some (remove_from_room room ws r !! k).
Proof.
  intros Hk. destruct (decide (room = k)) as [->|Hne].
  - rewrite remove_from_room_lookup. destruct Hk as [c ->]. eauto.
  - by rewrite remove_from_room_lookup_ne.
Qed.

Lemma on_connection_keeps ws userId gameId (st : t) k :
  is_Some (rooms st !! k) →
  is_Some (rooms (on_connection ws userId gameId st).2 !! k).
Proof.
  intros Hk. unfold on_connection.
  repeat case_match; cbn [snd rooms];
    auto using add_to_room_keeps, remove_from_room_keeps.
Qed.

Lemma on_message_keeps ws userId parsed (st : t) k :
  is_Some (rooms st !! k) →
  is_Some (rooms (on_message ws userId parsed st).2 !! k).
Proof.
  intros Hk. rewrite on_message_state.
  destruct parsed as [data|e]; [|assumption].
  destruct (destructurable data); [|assumption].
  destruct (dispatch_state ws userId data st) as (_ & _ & [Hr|[Hr|Hr]]);
    rewrite Hr; auto using add_to_room_keeps, remove_from_room_keeps.
Qed.

Lemma post_move_rooms gameId playerId col (st : t) :
  rooms (post_move gameId playerId col st).2 = rooms st.
Proof.
  unfold post_move, announce_move.
  repeat (case_match || case_bool_decide); simplify_eq/=; reflexivity.
Qed.

Lemma on_close_keeps_lobby ws userId (st : t) :
  is_Some (rooms st !! lobby) → is_Some (rooms (on_close ws userId st) !! lobby).
Proof.
  intros [clients Hget]. unfold on_close. cbn [rooms].
  rewrite map_lookup_imap, Hget. cbn [mbind option_bind].
  case_bool_decide; [|eauto].
  rewrite bool_decide_false; [eauto|]. intros [Hne _]. by apply Hne.
Qed.

Lemma step_keeps_lobby (st : t) (e : event) :
  is_Some (rooms st !! lobby) → is_Some (rooms (step st e) !! lobby).
Proof.
  intros Hl. destruct e; cbn [step].
  - by apply on_connection_keeps.
  - by apply on_message_keeps.
  - by apply on_close_keeps_lobby.
  - by rewrite post_move_rooms.
Qed.

(** Whatever happens, the room map has a lobby. *)
Lemma lobby_always_present (d : Db.t) (events : list event) :
  is_Some (rooms (run d events) !! lobby).
Proof.
  unfold run. induction events as [|e events IH] using rev_ind.
  - cbn [foldl]. unfold initial. cbn [rooms].
    rewrite lookup_singleton_eq. eauto.
  - rewrite foldl_app. cbn [foldl]. by apply step_keeps_lobby.
Qed.

End lobby.

(** ** The scenarios of the design *)

(** A new game has an empty 6x7 board and its creator on turn. *)
Example scenario_create_game :
  fst (Logic.getGameWithId (JNum 1) Server.scenario_db)
  = Some {| Db.player1_id := JStr "1"; Db.player2_id := JStr "2";
            Db.current_turn := JStr "1"; Db.game_state := initialBoard;
            Db.winner_id := JNull |}
  ∧ six_by_seven initialBoard
  ∧ ∀ r c, cell_at initialBoard r c = None.
Proof.
  split; [reflexivity|]. split; [apply initialBoard_six_by_seven|].
  intros r c. unfold cell_at.
  do 6 (destruct r as [|r]; [do 7 (destruct c as [|c]; [reflexivity|]);
                             reflexivity|]).
  reflexivity.
Qed.

(** A challenge for a user with no socket is answered to its sender. *)
Example scenario_offline_challenge :
  Server.on_message 11%nat "1"
    (Normal (Server.JsonObject
               {[ "action" := JStr "sendChallenge"; "targetUserId" := JStr "99";
                  "challengeId" := JNum 5 ]}))
    Server.scenario
  = ([(11%nat, Server.MsgError "Target user is not connected")],
     Server.scenario).
Proof. reflexivity. Qed.

(** A column takes six discs, bottom row first; the seventh is refused. *)
Example scenario_fill_column :
  let drop1 board := snd (drop_in_column board 0 Red) in
  let full := drop1 (drop1 (drop1 (drop1 (drop1 (drop1 initialBoard))))) in
  (∀ r, (r < 6)%nat → cell_at full r 0 = Some Red) ∧
  drop_in_column full 0 Red = (false, full).
Proof.
  split; [|reflexivity].
  intros r Hr. do 6 (destruct r as [|r]; [reflexivity|]). lia.
Qed.

(** An account made as "bob" is found again by a login typed with stray
    characters: both statements carry the stripped name. *)
Example scenario_login :
  let created := @Logic.addUser Logic.bcrypt_plain "bob" "secret" "secret" Db.empty in
  let login := @Logic.getUserWithUsernamePassword Logic.bcrypt_plain
                 "b.o b!" "secret" (snd created) in
  fst created = Logic.AddStored (Db.Inserted 1) ∧
  fst login = Logic.LoginUser {| Db.user_id := 1; Db.username := Some "bob";
                                 Db.password := Some "secret" |} ∧
  Db.sent (snd login)
  = [Db.InsertUser (Some "bob") "secret"; Db.SelectUser (Some "bob")].
Proof. repeat split. Qed.

(** * Further properties of the code *)

(** ** Usernames and accounts *)

Section more_accounts.
Import Logic.

Lemma strip_allowed_id (s : string) : all_allowed s = true → strip s = s.
Proof.
  induction s as [|c s IH]; [reflexivity|].
  cbn [all_allowed strip]. intros [Hc Hs]%andb_prop.
  rewrite Hc. f_equal. by apply IH.
Qed.

Lemma head_filter_Some {A} (P : A → Prop) `{∀ x, Decision (P x)}
    (l : list A) (x : A) :
  head (filter P l) = Some x → x ∈ l ∧ P x.
Proof.
  intros Hhead.
  assert (Hin : x ∈ filter P l).
  { destruct (filter P l) as [|y l']; [discriminate|].
    injection Hhead as ->. apply list_elem_of_here. }
  by apply list_elem_of_filter in Hin as [? ?].
Qed.

Lemma filter_none {A} (P : A → Prop) `{∀ x, Decision (P x)} (l : list A) :
  ¬ Exists P l → filter P l = [].
Proof.
  intros Hnone. induction l as [|x l IH]; [reflexivity|].
  rewrite filter_cons. destruct (decide (P x)) as [Hx|Hx].
  - exfalso. apply Hnone. by constructor.
  - apply IH. intros Hl. apply Hnone. by constructor 2.
Qed.

End more_accounts.

Lemma all_allowed_class (s : string) :
  Logic.all_allowed s = true
  ↔ Forall (.∈ Spec.username_class) (String.list_ascii_of_string s).
Proof.
  induction s as [|c s IH]; cbn [Logic.all_allowed String.list_ascii_of_string].
  - split; [constructor|reflexivity].
  - rewrite andb_true_iff, Forall_cons, IH, allowed_iff_class. reflexivity.
Qed.

(** X1. What the sanitizer lets through is the typed name without the
    characters outside a..z, A..Z, 0..9, [_] and [-]: it has only characters
    of that class and 3 to 15 of them, and sanitizing it again returns it as
    it is; a name that is already of that form is its own result. *)
Theorem sanitized_name_is_stable (raw clean : string) :
  Logic.validateSanitizeUsername raw = Some clean →
  String.list_ascii_of_string clean
  = filter (.∈ Spec.username_class) (String.list_ascii_of_string raw) ∧
  Forall (.∈ Spec.username_class) (String.list_ascii_of_string clean) ∧
  (3 ≤ String.length clean ≤ 15)%nat ∧
  Logic.validateSanitizeUsername clean = Some clean ∧
  (∀ name,
     Forall (.∈ Spec.username_class) (String.list_ascii_of_string name) →
     (3 ≤ String.length name ≤ 15)%nat →
     Logic.validateSanitizeUsername name = Some name).
Proof.
  assert (Hown : ∀ name,
            Forall (.∈ Spec.username_class) (String.list_ascii_of_string name) →
            (3 ≤ String.length name ≤ 15)%nat →
            Logic.validateSanitizeUsername name = Some name).
  { intros name Hclass%all_allowed_class Hlen.
    rewrite validateSanitizeUsername_spec, (strip_allowed_id _ Hclass).
    by rewrite bool_decide_true. }
  rewrite validateSanitizeUsername_spec. case_bool_decide as Hlen; [|discriminate].
  intros [= <-].
  pose proof (strip_all_allowed raw) as Hall.
  split; [apply strip_class|].
  split; [by apply all_allowed_class|]. split; [exact Hlen|].
  split; [|exact Hown].
  apply Hown; [by apply all_allowed_class|exact Hlen].
Qed.

Lemma sanitized_name_is_stable_witness :
  String.list_ascii_of_string "bob_01"
  = filter (.∈ Spec.username_class)
      (String.list_ascii_of_string "b'o;b_0!1") ∧
  Logic.validateSanitizeUsername "bob_01" = Some "bob_01".
Proof.
  destruct (sanitized_name_is_stable "b'o;b_0!1" "bob_01")
    as (Hfilter & _ & _ & Hagain & _); [reflexivity|].
  split; [exact Hfilter | exact Hagain].
Defined.

(** What a login that hands out a row has established, and what its errors are. *)
Lemma login_row_facts `{Logic.Bcrypt} (raw password : string) (d : Db.t) :
  match fst (Logic.getUserWithUsernamePassword raw password d) with
  | Logic.LoginUser user =>
      password ≠ "" ∧
      user ∈ Db.users d ∧
      ∃ clean hash,
        Logic.validateSanitizeUsername raw = Some clean ∧
        Db.username user = Some clean ∧
        Db.password user = Some hash ∧ hash ≠ "" ∧
        Logic.bcrypt_compare password hash = true
  | Logic.LoginError error =>
      (password = "" ∧ error = "Please enter a password!") ∨
      (password ≠ "" ∧ error = "Username or password incorrect!")
  end.
Proof.
  unfold Logic.getUserWithUsernamePassword.
  case_bool_decide as Hpw; [cbn; auto|].
  unfold Db.getUserWithUsername.
  destruct (head (filter _ (Db.users d))) as [u|] eqn:Hhead; [|cbn; auto].
  apply head_filter_Some in Hhead as [Hin Hmatch].
  destruct (Db.password u) as [hash|] eqn:Hhash; [|cbn; auto].
  case_bool_decide as Hempty; [cbn; auto|].
  cbn [fst snd]. unfold Logic.comparePasswords. rewrite Hhash. cbn [from_option id].
  destruct (Logic.bcrypt_compare password hash) eqn:Hcmp; [|cbn; auto].
  cbn [fst]. split; [assumption|]. split; [assumption|].
  unfold Db.name_matches in Hmatch.
  destruct (Logic.validateSanitizeUsername raw) as [clean|]; [|discriminate].
  destruct (Db.username u) as [m|]; [|discriminate].
  apply bool_decide_eq_true in Hmatch as <-.
  exists clean, hash. auto.
Qed.

(** X2. Login hands out a row only when a password was typed, the row is in
    the table under the sanitized name, its stored hash is non-empty and
    bcrypt accepts the password against it.  Every other outcome is an error,
    and an unknown name and a wrong password get the same one. *)
Theorem login_is_sound `{Logic.Bcrypt} (raw password : string) (d : Db.t) :
  match fst (Logic.getUserWithUsernamePassword raw password d) with
  | Logic.LoginUser user =>
      password ≠ "" ∧
      user ∈ Db.users d ∧
      ∃ clean hash,
        Logic.validateSanitizeUsername raw = Some clean ∧
        Db.username user = Some clean ∧
        Db.password user = Some hash ∧ hash ≠ "" ∧
        Logic.bcrypt_compare password hash = true
  | Logic.LoginError error =>
      (password = "" ∧ error = "Please enter a password!") ∨
      (password ≠ "" ∧ error = "Username or password incorrect!")
  end.
Proof. exact (login_row_facts raw password d). Qed.

(** X3. After [addUser] has inserted a row (given that bcrypt accepts a
    password against its own, non-empty, hash): when the name sanitizes to 3
    to 15 characters, a login with the same password and any spelling that
    sanitizes to the same name returns that very row; when it does not, the
    row is stored with a null name and no login, whatever name and password
    it is made with, returns it. *)
Theorem register_then_login `{Logic.Bcrypt}
    (raw raw' password : string) (d d1 : Db.t) (id : Z) :
  (∀ p, Logic.bcrypt_compare p (Logic.bcrypt_hash p) = true) →
  Logic.bcrypt_hash password ≠ "" →
  Logic.addUser raw password password d = (Logic.AddStored (Db.Inserted id), d1) →
  let row := {| Db.user_id := id;
                Db.username := Logic.validateSanitizeUsername raw;
                Db.password := Some (Logic.bcrypt_hash password) |} in
  row ∈ Db.users d1 ∧
  (is_Some (Logic.validateSanitizeUsername raw) →
   Logic.validateSanitizeUsername raw' = Logic.validateSanitizeUsername raw →
   fst (Logic.getUserWithUsernamePassword raw' password d1)
   = Logic.LoginUser row) ∧
  (Logic.validateSanitizeUsername raw = None →
   ∀ name pw,
     fst (Logic.getUserWithUsernamePassword name pw d1) ≠ Logic.LoginUser row).
Proof.
  intros Hlaw Hhash Hadd row.
  unfold Logic.addUser in Hadd.
  destruct (bool_decide (password = "")) eqn:Hpw; [discriminate|].
  apply bool_decide_eq_false in Hpw. cbn [orb] in Hadd.
  unfold Logic.checkMatchingPasswords in Hadd.
  rewrite bool_decide_true in Hadd by reflexivity. cbn [negb] in Hadd.
  unfold Db.addUser, Logic.hashString in Hadd. cbn [Db.send Db.users] in Hadd.
  case_bool_decide as Hdup; [discriminate|].
  injection Hadd as <- <-. fold row.
  split; [|split].
  - cbn [Db.users]. apply elem_of_app. right. apply list_elem_of_here.
  - intros [clean Hclean] Hsame.
    unfold Logic.getUserWithUsernamePassword.
    rewrite bool_decide_false by assumption.
    rewrite Hsame. unfold Db.getUserWithUsername. cbn [Db.users].
    rewrite filter_app, (filter_none _ _ Hdup), app_nil_l.
    rewrite filter_cons, decide_True.
    2:{ unfold Db.name_matches. subst row. cbn [Db.username]. rewrite Hclean.
        by rewrite bool_decide_true. }
    cbn [head Db.password row]. rewrite bool_decide_false by assumption.
    unfold Logic.comparePasswords. cbn [from_option id]. by rewrite Hlaw.
  - intros Hnone name pw Hlogin.
    pose proof (login_row_facts name pw
                  {| Db.users := Db.users d ++ [row]; Db.user_seq := Db.user_seq d + 1;
                     Db.challenge := Db.challenge d; Db.game := Db.game d;
                     Db.game_seq := Db.game_seq d;
                     Db.sent := Db.sent d ++
                       [Db.InsertUser (Logic.validateSanitizeUsername raw)
                          (Logic.bcrypt_hash password)] |}) as Hfacts.
    rewrite Hlogin in Hfacts.
    destruct Hfacts as (_ & _ & clean & hash & _ & Hname & _).
    subst row. cbn [Db.username] in Hname. congruence.
Qed.

Lemma register_then_login_witness :
  fst (@Logic.getUserWithUsernamePassword Logic.bcrypt_plain "al.ice!" "pw"
         (snd (@Logic.addUser Logic.bcrypt_plain "al ice" "pw" "pw" Db.empty)))
  = Logic.LoginUser {| Db.user_id := 1; Db.username := Some "alice";
                       Db.password := Some "pw" |}.
Proof.
  destruct (@register_then_login Logic.bcrypt_plain "al ice" "al.ice!" "pw"
              Db.empty
              (snd (@Logic.addUser Logic.bcrypt_plain "al ice" "pw" "pw" Db.empty))
              1) as (_ & Hlogin & _).
  - intros p. cbn. by rewrite bool_decide_true.
  - discriminate.
  - reflexivity.
  - apply Hlogin; [by eexists | reflexivity].
Defined.

(** ** The weave *)

Section more_weave.
Import Logic.

Lemma interleave_inj (d1 : string) :
  ∀ d2 d3 e1 e2 e3 : string,
    String.length d2 = String.length d1 →
    String.length d3 = String.length d1 →
    String.length e2 = String.length e1 →
    String.length e3 = String.length e1 →
    interleave d1 d2 d3 = interleave e1 e2 e3 →
    d1 = e1 ∧ d2 = e2 ∧ d3 = e3.
Proof.
  induction d1 as [|a d1 IH];
    intros [|b d2] [|c d3] [|a' e1] [|b' e2] [|c' e3] L2 L3 M2 M3 Heq;
    try discriminate; [auto|].
  cbn [interleave] in Heq. injection Heq as -> -> -> Heq.
  injection L2 as L2. injection L3 as L3.
  injection M2 as M2. injection M3 as M3.
  destruct (IH d2 d3 e1 e2 e3 L2 L3 M2 M3 Heq) as (-> & -> & ->). auto.
Qed.

Lemma get_None_iff (s : string) (i : nat) :
  String.get i s = None ↔ (String.length s ≤ i)%nat.
Proof.
  revert i. induction s as [|c s IH]; intros i; simpl.
  - split; [lia|done].
  - destruct i as [|i]; [split; [discriminate|lia]|].
    rewrite IH. lia.
Qed.

(** What one read of the loop adds: the character, or the nine letters of
    "undefined". *)
Lemma char_at_length (h : string) (i : nat) :
  String.length (char_at h i)
  = if decide (i < String.length h)%nat then 1%nat else 9%nat.
Proof.
  unfold char_at. destruct (String.get i h) eqn:E.
  - rewrite decide_True; [reflexivity|].
    destruct (decide (i < String.length h)%nat); [assumption|].
    assert (String.get i h = None) by (apply get_None_iff; lia). congruence.
  - rewrite decide_False; [reflexivity|]. apply get_None_iff in E. lia.
Qed.

Lemma weave_loop_length (h1 h2 h3 : string) (n : nat) :
  ∀ (i : nat) (acc : string),
    String.length (weave_loop h1 h2 h3 i n acc)
    = (String.length acc + Spec.reads_cost h1 i n + Spec.reads_cost h2 i n
       + Spec.reads_cost h3 i n)%nat.
Proof.
  induction n as [|n IH]; intros i acc.
  - cbn [weave_loop Spec.reads_cost]. lia.
  - cbn [weave_loop Spec.reads_cost].
    rewrite IH, !string_app_length, !char_at_length.
    unfold Spec.read_cost. lia.
Qed.

Lemma reads_cost_past_end (h : string) (n : nat) :
  ∀ i, (String.length h ≤ i)%nat → Spec.reads_cost h i n = (9 * n)%nat.
Proof.
  induction n as [|n IH]; intros i Hi; [reflexivity|].
  cbn [Spec.reads_cost]. rewrite IH by lia.
  unfold Spec.read_cost. rewrite decide_False by lia. lia.
Qed.

Lemma reads_cost_to_end (h : string) (n : nat) :
  ∀ i, (i ≤ String.length h ≤ i + n)%nat →
    Spec.reads_cost h i n
    = (String.length h - i + 9 * (i + n - String.length h))%nat.
Proof.
  induction n as [|n IH]; intros i Hi.
  - cbn [Spec.reads_cost]. lia.
  - cbn [Spec.reads_cost]. unfold Spec.read_cost.
    destruct (decide (i < String.length h)%nat) as [Hlt|Hge].
    + rewrite IH by lia. lia.
    + rewrite reads_cost_past_end by lia. lia.
Qed.

End more_weave.

(** X4. Two session tokens are equal exactly when the three digests behind
    them are equal, one by one: the weave loses nothing. *)
Theorem session_tokens_equal_iff
    (ip userId ip' userId' : jsval) (username username' : string) :
  Logic.createSessionToken ip userId username
  = Logic.createSessionToken ip' userId' username'
  ↔ Logic.hashTokenPart (to_String ip) = Logic.hashTokenPart (to_String ip') ∧
    Logic.hashTokenPart (to_String userId)
    = Logic.hashTokenPart (to_String userId') ∧
    Logic.hashTokenPart username = Logic.hashTokenPart username'.
Proof.
  unfold Logic.createSessionToken, Logic.hashTokenPart. split.
  - rewrite !createWeave_interleave by (by rewrite !digest_length).
    apply interleave_inj; by rewrite !digest_length.
  - intros (-> & -> & ->). reflexivity.
Qed.

(** X5. [createWeave] on strings of any lengths runs as many rounds as the
    longest has characters, and every read past the end of a shorter string
    appends the nine letters of "undefined": the result has the characters
    of the three strings plus nine for each such read. *)
Theorem weave_length (hash1 hash2 hash3 : string) :
  let l1 := String.length hash1 in
  let l2 := String.length hash2 in
  let l3 := String.length hash3 in
  let rounds := Nat.max (Nat.max l1 l2) l3 in
  String.length (Logic.createWeave hash1 hash2 hash3)
  = (l1 + l2 + l3
     + 9 * ((rounds - l1) + (rounds - l2) + (rounds - l3)))%nat.
Proof.
  intros l1 l2 l3 rounds. unfold Logic.createWeave. fold l1 l2 l3 rounds.
  rewrite weave_loop_length.
  rewrite !reads_cost_to_end by (fold l1 l2 l3; lia).
  fold l1 l2 l3. cbn [String.length]. lia.
Qed.

Example weave_overrun : Logic.createWeave "ab" "c" "" = "acundefinedbundefinedundefined".
Proof. reflexivity. Qed.

(** ** Rooms and the registry *)

Section more_rooms.
Import Server Spec.

Lemma member_add_to_room R ws (r : gmap jsval (gset conn)) room c :
  member (add_to_room R ws r) room c ↔ member r room c ∨ (room = R ∧ c = ws).
Proof.
  unfold member. destruct (decide (R = room)) as [->|Hne].
  - rewrite add_to_room_lookup. split.
    + intros (clients & [= <-] & [Hc|Hc]%elem_of_union).
      * right. split; [reflexivity|]. by apply elem_of_singleton in Hc.
      * left. destruct (r !! room) as [old|]; cbn [from_option id] in Hc.
        -- eauto.
        -- by apply not_elem_of_empty in Hc.
    + intros [(clients & Hget & Hc)|[_ ->]]; eexists; (split; [reflexivity|]).
      * rewrite Hget. cbn [from_option id]. apply elem_of_union. by right.
      * apply elem_of_union. left. by apply elem_of_singleton.
  - rewrite add_to_room_lookup_ne by assumption. split; [by left|].
    intros [?|[-> _]]; [assumption|done].
Qed.

Lemma member_remove_from_room R ws (r : gmap jsval (gset conn)) room c :
  member (remove_from_room R ws r) room c
  ↔ member r room c ∧ ¬ (room = R ∧ c = ws).
Proof.
  unfold member. destruct (decide (R = room)) as [->|Hne].
  - rewrite remove_from_room_lookup. split.
    + intros (clients & Hget & Hc).
      destruct (r !! room) as [old|]; [|discriminate].
      injection Hget as <-. apply elem_of_difference in Hc as [Hc Hnot].
      split; [eauto|]. intros [_ ->]. apply Hnot. by apply elem_of_singleton.
    + intros [(clients & Hget & Hc) Hnot]. rewrite Hget.
      eexists. split; [reflexivity|]. apply elem_of_difference.
      split; [assumption|]. intros ->%elem_of_singleton. by apply Hnot.
  - rewrite remove_from_room_lookup_ne by assumption. split.
    + intros Hm. split; [assumption|]. intros [-> _]. done.
    + by intros [? _].
Qed.

End more_rooms.

(** What a connection does to the registry and the rooms. *)
Lemma on_connection_facts
    (ws : Server.conn) (uid : string) (gameId : option string) (st : Server.t) :
  uid ≠ "" →
  let st' := (Server.on_connection ws (Some uid) gameId st).2 in
  Server.userSockets st' !! JStr uid = Some ws ∧
  (∀ k, k ≠ JStr uid →
     Server.userSockets st' !! k = Server.userSockets st !! k) ∧
  ws ∈ Server.open_sockets st' ∧
  Server.db st' = Server.db st ∧
  (∀ room c, c ≠ ws →
     Spec.member (Server.rooms st') room c
     ↔ Spec.member (Server.rooms st) room c) ∧
  (∀ gid, gameId = Some gid → gid ≠ "" →
     ¬ Spec.member (Server.rooms st') Server.lobby ws ∧
     (gid ≠ "lobby" → Spec.member (Server.rooms st') (JStr gid) ws)) ∧
  (gameId = None ∨ gameId = Some "" →
     Spec.member (Server.rooms st') Server.lobby ws) ∧
  Server.on_connection ws None gameId st = (None, st) ∧
  Server.on_connection ws (Some "") gameId st = (None, st).
Proof.
  intros Huid st'. subst st'. unfold Server.on_connection.
  cbn [Server.param_truthy]. rewrite (bool_decide_false (uid = "")) by assumption.
  rewrite (bool_decide_true ("" = "")) by reflexivity.
  cbn [negb snd Server.userSockets Server.rooms Server.open_sockets Server.db].
  split; [apply lookup_insert_eq|].
  split; [intros k Hk; by apply lookup_insert_ne|].
  split; [apply elem_of_union; left; by apply elem_of_singleton|].
  split; [reflexivity|].
  split; [|split; [|split; [|split; reflexivity]]].
  - intros room c Hc. destruct gameId as [gid|].
    + cbn [Server.param_truthy].
      destruct (bool_decide (gid = "")); cbn [negb].
      * rewrite member_add_to_room. tauto.
      * rewrite member_remove_from_room, member_add_to_room. tauto.
    + rewrite member_add_to_room. tauto.
  - intros gid -> Hgid. cbn [Server.param_truthy].
    rewrite (bool_decide_false (gid = "")) by assumption.
    cbn [negb]. split.
    + rewrite member_remove_from_room. tauto.
    + intros Hlobby. rewrite member_remove_from_room, member_add_to_room.
      split; [tauto|]. intros [[= Heq] _]. by apply Hlobby.
  - intros [->| ->].
    + rewrite member_add_to_room. tauto.
    + cbn [Server.param_truthy].
      rewrite (bool_decide_true ("" = "")) by reflexivity. cbn [negb].
      rewrite member_add_to_room. tauto.
Qed.

(** The rooms of the connecting socket itself. *)
Lemma on_connection_own_rooms
    (ws : Server.conn) (uid : string) (gameId : option string) (st : Server.t) :
  uid ≠ "" →
  let st' := (Server.on_connection ws (Some uid) gameId st).2 in
  (∀ gid, gameId = Some gid → gid ≠ "" →
     ∀ room, Spec.member (Server.rooms st') room ws
             ↔ room ≠ Server.lobby ∧
               (room = JStr gid ∨ Spec.member (Server.rooms st) room ws)) ∧
  (gameId = None ∨ gameId = Some "" →
     ∀ room, Spec.member (Server.rooms st') room ws
             ↔ room = Server.lobby ∨ Spec.member (Server.rooms st) room ws).
Proof.
  intros Huid st'. subst st'. unfold Server.on_connection.
  cbn [Server.param_truthy]. rewrite (bool_decide_false (uid = "")) by assumption.
  cbn [negb snd Server.rooms]. split.
  - intros gid -> Hgid room. cbn [Server.param_truthy].
    rewrite (bool_decide_false (gid = "")) by assumption. cbn [negb].
    rewrite member_remove_from_room, member_add_to_room. tauto.
  - intros [->| ->] room.
    + rewrite member_add_to_room. tauto.
    + cbn [Server.param_truthy].
      rewrite (bool_decide_true ("" = "")) by reflexivity. cbn [negb].
      rewrite member_add_to_room. tauto.
Qed.

(** X6. A connection that names a user is registered under that name, in
    place of whatever socket was there, and is open.  With a game id the
    socket is added to the room of that name and then taken out of the
    lobby: it is in that room and not in the lobby, except that with the
    game id "lobby" it ends up in neither.  Without a game id it is added to
    the lobby.  Its other memberships, those of every other socket, the
    replaced one included, and the database are untouched.  A connection
    that names no user changes nothing. *)
Theorem connection_registers
    (ws : Server.conn) (uid : string) (gameId : option string) (st : Server.t) :
  uid ≠ "" →
  let st' := (Server.on_connection ws (Some uid) gameId st).2 in
  Server.userSockets st' !! JStr uid = Some ws ∧
  (∀ k, k ≠ JStr uid →
     Server.userSockets st' !! k = Server.userSockets st !! k) ∧
  ws ∈ Server.open_sockets st' ∧
  Server.db st' = Server.db st ∧
  (∀ room c, c ≠ ws →
     Spec.member (Server.rooms st') room c
     ↔ Spec.member (Server.rooms st) room c) ∧
  (∀ gid, gameId = Some gid → gid ≠ "" →
     ∀ room, Spec.member (Server.rooms st') room ws
             ↔ room ≠ Server.lobby ∧
               (room = JStr gid ∨ Spec.member (Server.rooms st) room ws)) ∧
  (gameId = Some "lobby" →
     ∀ room, Spec.member (Server.rooms st') room ws
             ↔ room ≠ Server.lobby ∧ Spec.member (Server.rooms st) room ws) ∧
  (gameId = None ∨ gameId = Some "" →
     ∀ room, Spec.member (Server.rooms st') room ws
             ↔ room = Server.lobby ∨ Spec.member (Server.rooms st) room ws) ∧
  Server.on_connection ws None gameId st = (None, st) ∧
  Server.on_connection ws (Some "") gameId st = (None, st).
Proof.
  intros Huid st'.
  destruct (on_connection_facts ws uid gameId st Huid)
    as (Hreg & Hothers & Hopen & Hdb & Hrooms & _ & _ & Hnone & Hempty).
  destruct (on_connection_own_rooms ws uid gameId st Huid) as (Hgame & Hlobby).
  fold st' in Hreg, Hothers, Hopen, Hdb, Hrooms, Hgame, Hlobby.
  repeat (split; [assumption|]).
  split; [|split; [exact Hlobby|split; [exact Hnone|exact Hempty]]].
  intros Hgid room. rewrite (Hgame "lobby" Hgid) by discriminate.
  unfold Server.lobby. tauto.
Qed.

Lemma connection_registers_witness :
  Server.userSockets
    (Server.on_connection 13%nat (Some "1") (Some "lobby") Server.scenario).2
  !! JStr "1" = Some 13%nat ∧
  ∀ room,
    ¬ Spec.member
        (Server.rooms
           (Server.on_connection 13%nat (Some "1") (Some "lobby")
              Server.scenario).2)
        room 13%nat.
Proof.
  pose proof (connection_registers 13%nat "1" (Some "lobby") Server.scenario) as H.
  destruct H as (Hreg & _ & _ & _ & _ & _ & Hlobby & _); [discriminate|].
  split; [exact Hreg|].
  intros room Hmember. apply (Hlobby eq_refl) in Hmember as [Hroom Hwas].
  destruct Hwas as (clients & Hget & Hin).
  change (Server.rooms Server.scenario)
    with (Server.add_to_room Server.lobby 12%nat
            (Server.add_to_room Server.lobby 11%nat {[ Server.lobby := ∅ ]}))
    in Hget.
  rewrite !add_to_room_lookup_ne in Hget by done.
  rewrite lookup_singleton_ne in Hget by done. discriminate.
Defined.



(** Settle the tests of the [switch] once the action is known. *)
Ltac settle_action :=
  repeat match goal with
  | |- context [bool_decide (JStr ?a = JStr ?b)] =>
      first [ rewrite (bool_decide_false (JStr a = JStr b)) by discriminate
            | rewrite (bool_decide_true (JStr a = JStr b)) by reflexivity ]
  end.

Ltac enter_action Ha :=
  unfold Server.on_message, Server.dispatch;
  cbn [Server.destructurable Server.field];
  rewrite Ha; cbn [from_option id]; settle_action.

(** X8. For a payload whose [room] is a primitive value -- a string, an
    integer, a boolean, [null], or not given; the values a field of
    [Server.JsonObject] holds -- "join" and "leave" change one thing, the
    sender's membership of the room they name: after a join the sender is a
    member of it, after a leave it is not, and every other membership, of
    any socket in any room, is as before.  Neither sends anything; a leave of
    a room that does not exist is silent; joining twice is the same as
    joining once.  (A [room] that is an array or an object is a new key of
    the [Map] each time it is parsed, and is not covered.) *)
Theorem join_leave_membership
    (ws : Server.conn) (userId : string) (fields : gmap string jsval)
    (st : Server.t) :
  let R := Server.field (Server.JsonObject fields) "room" in
  let result :=
    Server.on_message ws userId (Normal (Server.JsonObject fields)) st in
  (fields !! "action" = Some (JStr "join") →
     result.1 = [] ∧
     (∀ room c, Spec.member (Server.rooms result.2) room c
                ↔ Spec.member (Server.rooms st) room c ∨ (room = R ∧ c = ws)) ∧
     Server.on_message ws userId (Normal (Server.JsonObject fields)) result.2
     = result) ∧
  (fields !! "action" = Some (JStr "leave") →
     result.1 = [] ∧
     (∀ room c, Spec.member (Server.rooms result.2) room c
                ↔ Spec.member (Server.rooms st) room c ∧ ¬ (room = R ∧ c = ws)) ∧
     (Server.rooms st !! R = None → result.2 = st)).
Proof.
  intros R result. split; intros Ha; subst result.
  - rewrite (on_message_join ws userId fields st Ha). fold R. cbn [fst snd].
    split; [reflexivity|]. split.
    + intros room c. cbn [Server.with_rooms Server.rooms].
      apply member_add_to_room.
    + rewrite on_message_join by assumption. fold R.
      cbn [Server.with_rooms Server.rooms Server.db Server.userSockets
           Server.open_sockets].
      do 2 f_equal. unfold Server.add_to_room at 1.
      rewrite add_to_room_lookup. cbn [from_option id].
      unfold Server.add_to_room. rewrite insert_insert_eq. f_equal.
      rewrite (assoc_L (∪)). f_equal. apply union_idemp_L.
  - rewrite (on_message_leave ws userId fields st Ha). fold R. cbn [fst snd].
    split; [reflexivity|]. split.
    + intros room c. cbn [Server.with_rooms Server.rooms].
      apply member_remove_from_room.
    + intros Hnone. unfold Server.remove_from_room. rewrite Hnone.
      by destruct st.
Qed.

Lemma join_leave_membership_witness :
  Spec.member
    (Server.rooms
       (Server.on_message 11%nat "1"
          (Normal (Server.JsonObject
                     {[ "action" := JStr "join"; "room" := JStr "table-7" ]}))
          Server.scenario).2)
    (JStr "table-7") 11%nat.
Proof.
  pose proof (join_leave_membership 11%nat "1"
    {[ "action" := JStr "join"; "room" := JStr "table-7" ]} Server.scenario)
    as [H _].
  destruct H as (_ & H & _); [reflexivity|].
  apply H. right. split; reflexivity.
Defined.

(** X9. A "message" for an existing room is pushed once to each member whose
    socket is open, the sender included when it is a member, and to nobody
    else; closed members are passed over.  For a room that does not exist
    the sender alone gets "Room does not exist".  The state is unchanged
    either way. *)
Theorem broadcast_reaches_open_members
    (ws : Server.conn) (userId : string) (fields : gmap string jsval)
    (st : Server.t) :
  fields !! "action" = Some (JStr "message") →
  let R := Server.field (Server.JsonObject fields) "room" in
  let text := Server.field (Server.JsonObject fields) "message" in
  let result :=
    Server.on_message ws userId (Normal (Server.JsonObject fields)) st in
  result.2 = st ∧
  match Server.rooms st !! R with
  | Some clients =>
      NoDup result.1 ∧
      ∀ c m, (c, m) ∈ result.1
             ↔ c ∈ clients ∧ c ∈ Server.open_sockets st ∧
               m = Server.MsgRoom R text
  | None => result.1 = [(ws, Server.MsgError "Room does not exist")]
  end.
Proof.
  intros Ha R text result. subst result R text. enter_action Ha.
  destruct (Server.rooms st !! default JUndefined (fields !! "room"))
    as [clients|]; cbn [fst snd]; [|split; reflexivity].
  split; [reflexivity|]. split.
  - apply NoDup_fmap_2; [intros c1 c2 [=]; assumption|].
    apply NoDup_filter, NoDup_elements.
  - intros c m. rewrite list_elem_of_fmap. split.
    + intros (c' & [= -> ->] & Hin). apply list_elem_of_filter in Hin as [Hopen Hin].
      apply elem_of_elements in Hin. auto.
    + intros (Hin & Hopen & ->). exists c. split; [reflexivity|].
      apply list_elem_of_filter. split; [assumption|]. by apply elem_of_elements.
Qed.

Lemma broadcast_reaches_open_members_witness :
  (Server.on_message 11%nat "1"
     (Normal (Server.JsonObject
                {[ "action" := JStr "message"; "room" := JStr "nowhere";
                   "message" := JStr "hello" ]}))
     Server.scenario).1
  = [(11%nat, Server.MsgError "Room does not exist")].
Proof.
  pose proof (broadcast_reaches_open_members 11%nat "1"
    {[ "action" := JStr "message"; "room" := JStr "nowhere";
       "message" := JStr "hello" ]} Server.scenario eq_refl) as [_ H].
  exact H.
Defined.

(** ** What messages and moves leave alone *)

Section more_frames.
Import Server.

Lemma on_message_registry ws userId parsed (st : t) :
  userSockets (on_message ws userId parsed st).2 = userSockets st.
Proof.
  rewrite on_message_state. destruct parsed as [data|e]; [|reflexivity].
  destruct (destructurable data); [|reflexivity].
  apply dispatch_state.
Qed.

(** The move endpoint, whatever it is asked: one of five outcomes, nothing
    pushed, nothing changed but the statement log. *)
Lemma post_move_frame gameId playerId col (st : t) :
  let result := post_move gameId playerId col st in
  result.1.2 = [] ∧
  Db.tables (db result.2) = Db.tables (db st) ∧
  userSockets result.2 = userSockets st ∧
  rooms result.2 = rooms st ∧
  open_sockets result.2 = open_sockets st ∧
  (result.1.1 = Responded 400 "Invalid column" ∨
   result.1.1 = Responded 404 "Game not found" ∨
   result.1.1 = Responded 400 "Not your turn" ∨
   result.1.1 = Responded 400 "Column is full" ∨
   result.1.1 = Unhandled (ReferenceError "board")).
Proof.
  unfold post_move.
  destruct (bool_decide (col < 0 ∨ col >= 7)); [cbn; auto 10|].
  unfold Logic.getGameWithId, Db.getGameWithId.
  destruct (Db.row_key (JStr gameId) ≫= λ k, Db.game (db st) !! k)
    as [game|]; [|cbn; auto 10].
  destruct (negb (strict_eq (Db.current_turn game) playerId)); [cbn; auto 10|].
  destruct (drop_in_column _ _ _) as [[|] board]; cbn [negb]; [|cbn; auto 10].
  unfold Logic.updateGameState. rewrite updateGameState_throws.
  cbn. auto 10.
Qed.

End more_frames.

(** X14. The move endpoint never answers 200.  Whatever the request and the
    state, its outcome is one of "Invalid column", "Game not found", "Not
    your turn", "Column is full", or the [ReferenceError] that nobody
    catches; it pushes nothing to any socket and the tables are as they
    were.  When it answers, the registry, the rooms and the open sockets are
    as they were too; after the uncaught error nothing is said of them (Node
    ends the process on an unhandled rejection). *)
Theorem move_endpoint_never_succeeds
    (gameId : string) (playerId : jsval) (col : Z) (st : Server.t) :
  let result := Server.post_move gameId playerId col st in
  (∀ body, result.1.1 ≠ Server.Responded 200 body) ∧
  result.1.2 = [] ∧
  Db.tables (Server.db result.2) = Db.tables (Server.db st) ∧
  (result.1.1 = Server.Responded 400 "Invalid column" ∨
   result.1.1 = Server.Responded 404 "Game not found" ∨
   result.1.1 = Server.Responded 400 "Not your turn" ∨
   result.1.1 = Server.Responded 400 "Column is full" ∨
   result.1.1 = Server.Unhandled (ReferenceError "board")) ∧
  (∀ status body,
     result.1.1 = Server.Responded status body →
     Server.userSockets result.2 = Server.userSockets st ∧
     Server.rooms result.2 = Server.rooms st ∧
     Server.open_sockets result.2 = Server.open_sockets st).
Proof.
  intros result.
  destruct (post_move_frame gameId playerId col st)
    as (Hout & Htab & Hreg & Hrooms & Hopen & Hcases).
  fold result in Hout, Htab, Hreg, Hrooms, Hopen, Hcases.
  split; [|auto 6].
  intros body Hok. rewrite Hok in Hcases.
  destruct Hcases as [H|[H|[H|[H|H]]]]; discriminate.
Qed.

Lemma move_endpoint_never_succeeds_witness :
  Server.rooms (Server.post_move "1" (JStr "2") 3 Server.scenario).2
  = Server.rooms Server.scenario.
Proof.
  destruct (move_endpoint_never_succeeds "1" (JStr "2") 3 Server.scenario)
    as (_ & _ & _ & _ & Hanswered).
  destruct (Hanswered 400 "Not your turn") as (_ & Hrooms & _);
    [reflexivity|exact Hrooms].
Defined.

(** X16. A message, whatever it holds, never deletes a room, never changes
    who is registered, and never closes a socket. *)
Theorem message_never_deletes
    (ws : Server.conn) (userId : string) (parsed : completion Server.json)
    (st : Server.t) :
  let st' := (Server.on_message ws userId parsed st).2 in
  (∀ room, is_Some (Server.rooms st !! room) →
           is_Some (Server.rooms st' !! room)) ∧
  Server.userSockets st' = Server.userSockets st ∧
  Server.open_sockets st' = Server.open_sockets st.
Proof.
  intros st'. split; [|split].
  - intros room. apply on_message_keeps.
  - apply on_message_registry.
  - apply on_message_keeps_open.
Qed.

(** X18. What cannot be dispatched is answered to the sender alone and
    changes nothing: a payload that does not parse, or parses to [null],
    gets "Invalid message format"; one that parses to a number, a string, a
    boolean or an array, or to an object whose action is none of the eight,
    gets "Unknown action". *)
Theorem undispatchable_messages
    (ws : Server.conn) (userId : string) (st : Server.t) :
  (∀ e, Server.on_message ws userId (Throw e) st
        = ([(ws, Server.MsgError "Invalid message format")], st)) ∧
  Server.on_message ws userId (Normal (Server.JsonPrim JNull)) st
  = ([(ws, Server.MsgError "Invalid message format")], st) ∧
  (∀ v, v ≠ JNull → v ≠ JUndefined →
        Server.on_message ws userId (Normal (Server.JsonPrim v)) st
        = ([(ws, Server.MsgError "Unknown action")], st)) ∧
  Server.on_message ws userId (Normal Server.JsonArray) st
  = ([(ws, Server.MsgError "Unknown action")], st) ∧
  (∀ fields,
     default JUndefined (fields !! "action") ∉
       (JStr <$> ["join"; "leave"; "message"; "sendChallenge";
                  "declineChallenge"; "startGame"; "gameChat"; "gameMove"]) →
     Server.on_message ws userId (Normal (Server.JsonObject fields)) st
     = ([(ws, Server.MsgError "Unknown action")], st)).
Proof.
  split; [reflexivity|]. split; [reflexivity|].
  split; [|split; [reflexivity|]].
  - intros [| |b|n|s] Hnull Hundef; try done; reflexivity.
  - intros fields. apply on_message_unknown_action.
Qed.

Lemma undispatchable_messages_witness :
  Server.on_message 11%nat "1"
    (Normal (Server.JsonObject {[ "action" := JStr "shout" ]})) Server.scenario
  = ([(11%nat, Server.MsgError "Unknown action")], Server.scenario).
Proof.
  pose proof (undispatchable_messages 11%nat "1" Server.scenario)
    as (_ & _ & _ & _ & H).
  apply H. cbn.
  intros Hin. repeat (apply elem_of_cons in Hin as [Hin|Hin]; [discriminate|]).
  by apply elem_of_nil in Hin.
Defined.

(** ** The registry holds strings *)

Section more_registry.
Import Server Spec.

Lemma step_string_keyed (st : t) (e : event) :
  string_keyed (userSockets st) → string_keyed (userSockets (step st e)).
Proof.
  intros Hkeys. destruct e as [ws userId gameId|ws userId parsed|ws userId|g p c];
    cbn [step].
  - unfold on_connection. destruct userId as [uid|]; [|exact Hkeys].
    cbn [param_truthy]. case_bool_decide as Huid; cbn [negb]; [exact Hkeys|].
    cbn [snd userSockets]. intros k c.
    destruct (decide (k = JStr uid)) as [->|Hne].
    + intros _. eauto.
    + rewrite lookup_insert_ne by done. apply Hkeys.
  - by rewrite on_message_registry.
  - unfold on_close. cbn [userSockets]. intros k c.
    destruct (decide (k = JStr userId)) as [->|Hne].
    + by rewrite lookup_delete_eq.
    + rewrite lookup_delete_ne by done. apply Hkeys.
  - destruct (post_move_frame g p c st) as (_ & _ & Hreg & _).
    by rewrite Hreg.
Qed.

End more_registry.

(** X10. In every state the server can reach, each key of the registry is a
    non-empty string (the [userId] of a connection URL).  A lookup by number
    therefore finds nobody: a push addressed to a numeric user id, such as
    the ids the database hands back, is dropped. *)
Theorem registry_keys_are_strings (d : Db.t) (events : list Server.event) :
  Spec.string_keyed (Server.userSockets (Server.run d events)) ∧
  ∀ (n : Z) (m : Server.outmsg),
    Server.notify (JNum n) m (Server.run d events) = [].
Proof.
  assert (Hkeys : Spec.string_keyed (Server.userSockets (Server.run d events))).
  { unfold Server.run. induction events as [|e events IH] using rev_ind.
    - cbn [foldl]. intros k c. unfold Server.initial. cbn [Server.userSockets].
      by rewrite lookup_empty.
    - rewrite foldl_app. cbn [foldl]. by apply step_string_keyed. }
  split; [exact Hkeys|].
  intros n m. unfold Server.notify.
  destruct (Server.userSockets (Server.run d events) !! JNum n) as [c|] eqn:E;
    [|reflexivity].
  destruct (Hkeys _ _ E) as (s & [=] & _).
Qed.

(** ** Challenges and games over the channel *)

(** X11. A "sendChallenge" is delivered to the socket registered for the
    target and to nobody else, and the sender id it carries is the user id of
    the connection it came in on, not a field of the payload; when the target
    is missing, falsy or not registered, the sender alone is told "Target
    user is not connected".  The state is unchanged. *)
Theorem challenge_delivery
    (ws : Server.conn) (userId : string) (fields : gmap string jsval)
    (st : Server.t) :
  fields !! "action" = Some (JStr "sendChallenge") →
  let target := default JUndefined (fields !! "targetUserId") in
  let result :=
    Server.on_message ws userId (Normal (Server.JsonObject fields)) st in
  result.2 = st ∧
  match Server.userSockets st !! target with
  | Some socket =>
      if truthy target
      then result.1
           = [(socket,
               Server.MsgChallenge (default JUndefined (fields !! "challengeId"))
                 userId (default JUndefined (fields !! "message")))]
      else result.1 = [(ws, Server.MsgError "Target user is not connected")]
  | None => result.1 = [(ws, Server.MsgError "Target user is not connected")]
  end.
Proof.
  intros Ha target result. subst result target. enter_action Ha.
  destruct (truthy (default JUndefined (fields !! "targetUserId")));
    destruct (Server.userSockets st !! default JUndefined (fields !! "targetUserId"));
    split; reflexivity.
Qed.

Lemma challenge_delivery_witness :
  Server.on_message 11%nat "1"
    (Normal (Server.JsonObject
               {[ "action" := JStr "sendChallenge"; "targetUserId" := JStr "2";
                  "challengeId" := JNum 5; "senderId" := JStr "someone else" ]}))
    Server.scenario
  = ([(12%nat, Server.MsgChallenge (JNum 5) "1" JUndefined)], Server.scenario).
Proof.
  pose proof (challenge_delivery 11%nat "1"
    {[ "action" := JStr "sendChallenge"; "targetUserId" := JStr "2";
       "challengeId" := JNum 5; "senderId" := JStr "someone else" ]}
    Server.scenario eq_refl) as [H1 H2].
  apply injective_projections; [exact H2 | exact H1].
Defined.

(** What a decline does, challenge id given or not, challenge stored or not. *)
Lemma on_message_decline_facts
    (ws : Server.conn) (userId : string) (fields : gmap string jsval)
    (st : Server.t) :
  fields !! "action" = Some (JStr "declineChallenge") →
  let challengeId := default JUndefined (fields !! "challengeId") in
  let result :=
    Server.on_message ws userId (Normal (Server.JsonObject fields)) st in
  Db.tables (Server.db result.2) = Db.tables (Server.db st) ∧
  (truthy challengeId = false →
     result = ([(ws, Server.MsgError
                       "challengeId is required to decline a challenge")], st)) ∧
  (∀ row,
     truthy challengeId = true →
     fst (Logic.getChallengeWithId challengeId (Server.db st)) = Some row →
     result.1 = Server.notify (JStr (to_String (Db.sender_id row)))
                  (Server.MsgChallengeDeclined challengeId userId) st).
Proof.
  intros Ha challengeId result. subst result challengeId. enter_action Ha.
  destruct (truthy (default JUndefined (fields !! "challengeId"))) eqn:Htruthy;
    cbn [negb].
  - unfold Logic.getChallengeWithId, Db.getChallengeWithId. cbn [fst].
    destruct (Db.row_key _ ≫= _) as [row|]; cbn [Server.challege_length].
    + cbn. split; [reflexivity|]. split; [discriminate|].
      intros row' _ [= <-]. reflexivity.
    + cbn. split; [reflexivity|]. split; discriminate.
  - cbn. split; [reflexivity|]. split; [reflexivity|]. discriminate.
Qed.

(** X12. Declining a stored challenge pushes "challengeDeclined", with the
    challenge id and the decliner's user id, to the socket registered under
    the text of the challenge's sender id, and nothing to the decliner; when
    that user is not registered nothing is sent at all.  A decline without a
    truthy challengeId is answered "challengeId is required to decline a
    challenge" before the database is asked.  No table changes. *)
Theorem decline_stored_challenge
    (ws : Server.conn) (userId : string) (fields : gmap string jsval)
    (st : Server.t) :
  fields !! "action" = Some (JStr "declineChallenge") →
  let challengeId := default JUndefined (fields !! "challengeId") in
  let result :=
    Server.on_message ws userId (Normal (Server.JsonObject fields)) st in
  Db.tables (Server.db result.2) = Db.tables (Server.db st) ∧
  (truthy challengeId = false →
     result = ([(ws, Server.MsgError
                       "challengeId is required to decline a challenge")], st)) ∧
  (∀ row,
     truthy challengeId = true →
     fst (Logic.getChallengeWithId challengeId (Server.db st)) = Some row →
     result.1 = Server.notify (JStr (to_String (Db.sender_id row)))
                  (Server.MsgChallengeDeclined challengeId userId) st).
Proof. exact (on_message_decline_facts ws userId fields st). Qed.

Lemma decline_stored_challenge_witness :
  (Server.on_message 12%nat "2"
     (Normal (Server.JsonObject
                {[ "action" := JStr "declineChallenge"; "challengeId" := JNum 7 ]}))
     (Server.with_db Server.scenario
        {| Db.users := []; Db.user_seq := 1;
           Db.challenge := {[ 7 := {| Db.sender_id := JNum 1;
                                      Db.challenger_id := JNum 2 |} ]};
           Db.game := ∅; Db.game_seq := 1; Db.sent := [] |})).1
  = [(11%nat, Server.MsgChallengeDeclined (JNum 7) "2")].
Proof.
  pose proof (decline_stored_challenge 12%nat "2"
    {[ "action" := JStr "declineChallenge"; "challengeId" := JNum 7 ]}
    (Server.with_db Server.scenario
        {| Db.users := []; Db.user_seq := 1;
           Db.challenge := {[ 7 := {| Db.sender_id := JNum 1;
                                      Db.challenger_id := JNum 2 |} ]};
           Db.game := ∅; Db.game_seq := 1; Db.sent := [] |}) eq_refl)
    as (_ & _ & H).
  rewrite (H {| Db.sender_id := JNum 1; Db.challenger_id := JNum 2 |});
    reflexivity.
Defined.

Section more_games.
Import Server Spec.

(** Creating a game stores it under the next key and leaves the games
    already stored alone. *)
Lemma createGame_stores userId opponentId board (d : Db.t) :
  userId ≠ JUndefined → opponentId ≠ JUndefined →
  let result := Db.createGame userId opponentId board d in
  result.1 = Normal (Db.game_seq d) ∧
  Db.game result.2 !! Db.game_seq d
  = Some {| Db.player1_id := userId; Db.player2_id := opponentId;
            Db.current_turn := userId; Db.game_state := board;
            Db.winner_id := JNull |} ∧
  Db.game_seq result.2 = Db.game_seq d + 1 ∧
  (∀ k, k ≠ Db.game_seq d → Db.game result.2 !! k = Db.game d !! k).
Proof.
  intros Hu Ho result. subst result. unfold Db.createGame.
  rewrite bool_decide_false by tauto.
  cbn [fst snd Db.game Db.game_seq Db.send].
  split; [reflexivity|]. split; [apply lookup_insert_eq|].
  split; [reflexivity|]. intros k Hk. by apply lookup_insert_ne.
Qed.

Lemma createGame_keeps userId opponentId board (d : Db.t) k g :
  keys_below d → Db.game d !! k = Some g →
  let d' := (Db.createGame userId opponentId board d).2 in
  keys_below d' ∧ Db.game d' !! k = Some g.
Proof.
  intros Hbelow Hget d'. subst d'. unfold Db.createGame.
  case_bool_decide; [by split|].
  unfold keys_below in *. cbn [snd Db.game Db.game_seq Db.send]. split.
  - intros k'. destruct (decide (k' = Db.game_seq d)) as [->|Hne];
      [intros _; lia|].
    rewrite lookup_insert_ne by done. intros Hk'%Hbelow. lia.
  - rewrite lookup_insert_ne; [assumption|].
    intros <-. pose proof (Hbelow (Db.game_seq d)) as Hlt.
    rewrite Hget in Hlt. specialize (Hlt (ltac:(eauto))). lia.
Qed.

(** What a message can do to the database: read it, or create one game. *)
Lemma on_message_db ws userId parsed (st : t) :
  let d' := db (on_message ws userId parsed st).2 in
  Db.tables d' = Db.tables (db st) ∨
  ∃ u o, d' = (Db.createGame u o initialBoard (db st)).2.
Proof.
  cbn zeta. rewrite on_message_state. destruct parsed as [data|e]; [|by left].
  destruct (destructurable data); [|by left].
  unfold dispatch.
  destruct (bool_decide (field data "action" = JStr "join")); [by left|].
  destruct (bool_decide (field data "action" = JStr "leave")); [by left|].
  destruct (bool_decide (field data "action" = JStr "message")).
  { destruct (rooms st !! field data "room"); by left. }
  destruct (bool_decide (field data "action" = JStr "sendChallenge")).
  { destruct (if truthy (field data "targetUserId")
              then userSockets st !! field data "targetUserId" else None);
      by left. }
  destruct (bool_decide (field data "action" = JStr "declineChallenge")).
  { destruct (negb (truthy (field data "challengeId"))); [by left|].
    unfold Logic.getChallengeWithId, Db.getChallengeWithId.
    destruct (Db.row_key (field data "challengeId")
                ≫= λ k, Db.challenge (db st) !! k) as [row|];
      cbn [challege_length]; [|by left].
    destruct (strict_eq JUndefined (JNum 0)); by left. }
  destruct (bool_decide (field data "action" = JStr "startGame")).
  { right. exists (field data "senderId"), (field data "accepterId").
    unfold Logic.createGame.
    destruct (Db.createGame (field data "senderId") (field data "accepterId")
                initialBoard (db st)) as [[game|e] d]; reflexivity. }
  destruct (bool_decide (field data "action" = JStr "gameChat")).
  { destruct (ident message_scope "gameRooms"); by left. }
  destruct (bool_decide (field data "action" = JStr "gameMove")).
  { destruct (ident message_scope "gameRooms"); by left. }
  by left.
Qed.

Lemma tables_keep (d d' : Db.t) k g :
  Db.tables d' = Db.tables d →
  keys_below d → Db.game d !! k = Some g →
  keys_below d' ∧ Db.game d' !! k = Some g.
Proof.
  unfold Db.tables, keys_below. intros [= _ _ _ Hgame Hseq] Hbelow Hget.
  rewrite Hgame, Hseq. auto.
Qed.

Lemma step_keeps_game (st : t) (e : event) k g :
  keys_below (db st) → Db.game (db st) !! k = Some g →
  keys_below (db (step st e)) ∧ Db.game (db (step st e)) !! k = Some g.
Proof.
  intros Hbelow Hget.
  destruct e as [ws userId gameId|ws userId parsed|ws userId|gid p c];
    cbn [step].
  - unfold on_connection. repeat case_match; cbn [snd db]; auto.
  - destruct (on_message_db ws userId parsed st) as [Htab|(u & o & ->)].
    + by apply (tables_keep (db st)).
    + by apply createGame_keeps.
  - unfold on_close. cbn [db]. auto.
  - destruct (post_move_frame gid p c st) as (_ & Htab & _).
    by apply (tables_keep (db st)).
Qed.

End more_games.

(** X13. "startGame" with both ids given stores a new game under the next
    key -- sender as player 1 and on turn, accepter as player 2, the empty
    6x7 board, no winner -- leaves every other game alone, and pushes
    "startGame" with that key to each of the two who is registered, each
    being told the other as opponent. *)
Theorem start_game_stores_and_announces
    (ws : Server.conn) (userId : string) (fields : gmap string jsval)
    (st : Server.t) :
  fields !! "action" = Some (JStr "startGame") →
  let senderId := default JUndefined (fields !! "senderId") in
  let accepterId := default JUndefined (fields !! "accepterId") in
  senderId ≠ JUndefined → accepterId ≠ JUndefined →
  let id := Db.game_seq (Server.db st) in
  let result :=
    Server.on_message ws userId (Normal (Server.JsonObject fields)) st in
  fst (Logic.getGameWithId (JNum id) (Server.db result.2))
  = Some {| Db.player1_id := senderId; Db.player2_id := accepterId;
            Db.current_turn := senderId; Db.game_state := initialBoard;
            Db.winner_id := JNull |} ∧
  (∀ k, k ≠ id →
     Db.game (Server.db result.2) !! k = Db.game (Server.db st) !! k) ∧
  result.1
  = Server.notify senderId (Server.MsgStartGame accepterId id) st ++
    Server.notify accepterId (Server.MsgStartGame senderId id) st ∧
  Server.userSockets result.2 = Server.userSockets st ∧
  Server.rooms result.2 = Server.rooms st.
Proof.
  intros Ha senderId accepterId Hs Hacc id result.
  subst result id. enter_action Ha. fold senderId accepterId.
  unfold Logic.createGame.
  destruct (createGame_stores senderId accepterId initialBoard (Server.db st)
              Hs Hacc) as (Hid & Hrow & _ & Hothers).
  destruct (Db.createGame senderId accepterId initialBoard (Server.db st))
    as [game d'] eqn:Hcreate.
  cbn [fst snd] in Hid, Hrow, Hothers. subst game.
  cbn [fst snd Server.with_db Server.db Server.userSockets Server.rooms].
  split; [|split; [exact Hothers|split; [|split; reflexivity]]].
  - unfold Logic.getGameWithId, Db.getGameWithId. cbn [fst Db.row_key mbind option_bind].
    exact Hrow.
  - unfold Server.notify. cbn [Server.userSockets]. reflexivity.
Qed.

Lemma start_game_stores_and_announces_witness :
  (Server.on_message 11%nat "1"
     (Normal (Server.JsonObject
                {[ "action" := JStr "startGame"; "senderId" := JStr "1";
                   "accepterId" := JStr "2" ]}))
     Server.scenario).1
  = [(11%nat, Server.MsgStartGame (JStr "2") 2);
     (12%nat, Server.MsgStartGame (JStr "1") 2)].
Proof.
  pose proof (start_game_stores_and_announces 11%nat "1"
    {[ "action" := JStr "startGame"; "senderId" := JStr "1";
       "accepterId" := JStr "2" ]} Server.scenario eq_refl) as H.
  destruct H as (_ & _ & H & _); [discriminate | discriminate |].
  rewrite H. reflexivity.
Defined.

(** X17. A stored game never changes.  From a database whose game keys lie
    below the next key, whatever connections, messages, closes and move
    requests follow, a game that is stored stays stored exactly as it is:
    same players, same board, same turn, no winner set. *)
Theorem stored_game_never_changes
    (d : Db.t) (events : list Server.event) (k : Z) (game : Db.game_row) :
  Spec.keys_below d →
  Db.game d !! k = Some game →
  Db.game (Server.db (Server.run d events)) !! k = Some game.
Proof.
  intros Hbelow Hget.
  cut (Spec.keys_below (Server.db (Server.run d events)) ∧
       Db.game (Server.db (Server.run d events)) !! k = Some game);
    [by intros [_ ?]|].
  unfold Server.run. induction events as [|e events IH] using rev_ind.
  - cbn [foldl]. unfold Server.initial. cbn [Server.db]. auto.
  - rewrite foldl_app. cbn [foldl]. destruct IH as [IH1 IH2].
    by apply step_keeps_game.
Qed.

Lemma stored_game_never_changes_witness :
  Db.game
    (Server.db
       (Server.run Server.scenario_db
          [Server.Connect 11%nat (Some "1") (Some "1");
           Server.Move "1" (JStr "1") 3;
           Server.Message 11%nat "1"
             (Normal (Server.JsonObject
                        {[ "action" := JStr "startGame";
                           "senderId" := JStr "1"; "accepterId" := JStr "3" ]}));
           Server.Move "1" (JStr "2") 3]))
  !! 1
  = Some {| Db.player1_id := JStr "1"; Db.player2_id := JStr "2";
            Db.current_turn := JStr "1"; Db.game_state := initialBoard;
            Db.winner_id := JNull |}.
Proof.
  apply stored_game_never_changes.
  - intros k [g Hg].
    change (Db.game_seq Server.scenario_db) with 2.
    destruct (decide (k = 1)) as [->|Hne]; [lia|].
    unfold Server.scenario_db, Logic.createGame, Db.createGame in Hg.
    cbn [snd Db.game Db.send Db.empty Db.game_seq bool_decide] in Hg.
    rewrite bool_decide_false in Hg by (intros [?|?]; discriminate).
    cbn [snd Db.game Db.send Db.empty Db.game_seq] in Hg.
    rewrite lookup_insert_ne in Hg by done. by rewrite lookup_empty in Hg.
  - reflexivity.
Defined.

(** ** The HTTP endpoints *)

(** X19. POST /getUsername answers 200 with the name when the first row
    with that user id has a non-empty name, 404 when that row has a null or
    empty name, and 500 -- not 404 -- when no row has that id: the name is
    read off [undefined] before the handler can test for a missing user. *)
Theorem get_username_statuses (userId : jsval) (s : DbMore.t) :
  let answer := Http.post_getUsername userId s in
  ((∀ k, Db.row_key userId = Some k →
         ∀ r, r ∈ Db.users (DbMore.core s) → Db.user_id r ≠ k) →
     answer = Http.Reply 500 (Http.ErrorBody "An error occurred on the server")) ∧
  (∀ name, DbMore.getUsernameById userId (DbMore.core s) = Some (Some name) →
           name ≠ "" → answer = Http.Reply 200 (Http.UsernameBody name)) ∧
  (Http.status_of answer = 404
   ↔ DbMore.getUsernameById userId (DbMore.core s) = Some None ∨
     DbMore.getUsernameById userId (DbMore.core s) = Some (Some "")).
Proof.
  intros answer. subst answer.
  unfold Http.post_getUsername, LogicMore.getUsernameById.
  split; [|split].
  - intros Hnone. unfold DbMore.getUsernameById.
    destruct (Db.row_key userId) as [k|]; [|reflexivity].
    rewrite filter_none; [reflexivity|].
    intros Hex. apply Exists_exists in Hex as (r & Hin & Hid).
    by apply (Hnone k eq_refl r).
  - intros name -> Hname. by rewrite bool_decide_false.
  - destruct (DbMore.getUsernameById userId (DbMore.core s)) as [[name|]|].
    + case_bool_decide as Hname; cbn [Http.status_of].
      * subst name. split; [auto|reflexivity].
      * split; [discriminate|]. intros [[=]|[= ->]]. done.
    + cbn. split; auto.
    + cbn. split; [discriminate|]. intros [[=]|[=]].
Qed.

Lemma get_username_statuses_witness :
  Http.post_getUsername (JNum 99) DbMore.empty
  = Http.Reply 500 (Http.ErrorBody "An error occurred on the server").
Proof.
  pose proof (get_username_statuses (JNum 99) DbMore.empty) as [H _].
  apply H. intros k _ r Hin. by apply elem_of_nil in Hin.
Defined.

(** X20. POST /challengeResponse answers 200 whatever it is sent: an unknown
    challenge or a reply that is neither "accept" nor "decline" is not
    refused.  Behind the answer, "accept" and "decline" on a stored challenge
    record the decision as true and false; every other request records
    nothing. *)
Theorem challenge_response_always_ok
    (challengeId reply : jsval) (s : DbMore.t) :
  let result := Http.post_challengeResponse challengeId reply s in
  result.1 = Http.Reply 200 Http.PromiseBody ∧
  DbMore.core result.2 = DbMore.core s ∧
  (∀ k, challengeId ≠ JUndefined →
        Db.row_key challengeId = Some k →
        is_Some (Db.challenge (DbMore.core s) !! k) →
        (reply = JStr "accept" →
           DbMore.accept_deny result.2 !! k = Some true) ∧
        (reply = JStr "decline" →
           DbMore.accept_deny result.2 !! k = Some false)) ∧
  ((reply ≠ JStr "accept" ∧ reply ≠ JStr "decline") ∨
   (∀ k, Db.row_key challengeId = Some k →
         Db.challenge (DbMore.core s) !! k = None) →
   result.2 = s).
Proof.
  intros result. subst result.
  unfold Http.post_challengeResponse, LogicMore.sendChallengeResponse,
    DbMore.sendChallengeResponse.
  destruct (decide (reply = JStr "accept")) as [->|Hacc];
    [rewrite bool_decide_true by reflexivity
    |rewrite (bool_decide_false (reply = JStr "accept")) by assumption;
     destruct (decide (reply = JStr "decline")) as [->|Hdec];
     [rewrite bool_decide_true by reflexivity
     |rewrite (bool_decide_false (reply = JStr "decline")) by assumption]].
  3:{ cbn [fst snd]. split; [reflexivity|]. split; [reflexivity|].
      split; [|reflexivity]. intros k _ _ _. split; intros ->; done. }
  all: destruct (bool_decide (challengeId = JUndefined)) eqn:Hundef;
    [ apply bool_decide_eq_true in Hundef; cbn [fst snd];
      split; [reflexivity|]; split; [reflexivity|];
      split; [intros k Hk; done | reflexivity]
    | ].
  all: destruct (Db.row_key challengeId) as [k|];
    [ destruct (Db.challenge (DbMore.core s) !! k) as [row|] eqn:Hrow | ];
    cbn [fst snd DbMore.core DbMore.accept_deny];
    (split; [reflexivity|]); (split; [reflexivity|]).
  - split.
    + intros k' _ [= <-] _. split; [intros _; apply lookup_insert_eq|discriminate].
    + intros [[Hno _]|Hnone]; [done|]. specialize (Hnone k eq_refl). congruence.
  - split; [|reflexivity]. intros k' _ [= <-] [? Hsome]. congruence.
  - split; [|reflexivity]. intros k' _ [=].
  - split.
    + intros k' _ [= <-] _. split; [discriminate|intros _; apply lookup_insert_eq].
    + intros [[_ Hno]|Hnone]; [done|]. specialize (Hnone k eq_refl). congruence.
  - split; [|reflexivity]. intros k' _ [= <-] [? Hsome]. congruence.
  - split; [|reflexivity]. intros k' _ [=].
Qed.

Lemma challenge_response_always_ok_witness :
  (Http.post_challengeResponse (JNum 1) (JStr "maybe") DbMore.empty)
  = (Http.Reply 200 Http.PromiseBody, DbMore.empty).
Proof.
  pose proof (challenge_response_always_ok (JNum 1) (JStr "maybe") DbMore.empty)
    as (H1 & _ & _ & H2).
  apply injective_projections; [exact H1|].
  apply H2. left. split; discriminate.
Defined.

Section more_progress.
Import Server Spec.

Lemma createGame_fresh userId opponentId (d : Db.t) :
  all_fresh d → all_fresh (Db.createGame userId opponentId initialBoard d).2.
Proof.
  intros Hfresh. unfold Db.createGame. case_bool_decide; [assumption|].
  intros k g. cbn [snd Db.game Db.send Db.game_seq].
  destruct (decide (k = Db.game_seq d)) as [->|Hne].
  - rewrite lookup_insert_eq. intros [= <-]. by split.
  - rewrite lookup_insert_ne by done. apply Hfresh.
Qed.

Lemma tables_fresh (d d' : Db.t) :
  Db.tables d' = Db.tables d → all_fresh d → all_fresh d'.
Proof.
  unfold Db.tables, all_fresh. intros [= _ _ _ Hgame _] Hfresh.
  by rewrite Hgame.
Qed.

Lemma step_keeps_fresh (st : t) (e : event) :
  all_fresh (db st) → all_fresh (db (step st e)).
Proof.
  intros Hfresh.
  destruct e as [ws userId gameId|ws userId parsed|ws userId|gid p c];
    cbn [step].
  - unfold on_connection. repeat case_match; cbn [snd db]; auto.
  - destruct (on_message_db ws userId parsed st) as [Htab|(u & o & ->)].
    + by apply (tables_fresh (db st)).
    + by apply createGame_fresh.
  - unfold on_close. cbn [db]. auto.
  - destruct (post_move_frame gid p c st) as (_ & Htab & _).
    by apply (tables_fresh (db st)).
Qed.

End more_progress.

(** X21. No game ever progresses.  If every stored game is as it was made --
    empty board, player 1 on turn, no winner -- then so is every stored game
    after any sequence of connections, messages, closes and move requests,
    and after a POST /game/create; and POST /game/:gameId/end answers 500
    "Error ending game" for every game and winner and stores nothing. *)
Theorem no_game_ever_progresses
    (d : Db.t) (events : list Server.event) (userId opponentId winnerId : jsval)
    (gameId : string) :
  Spec.all_fresh d →
  let d' := Server.db (Server.run d events) in
  Spec.all_fresh d' ∧
  Spec.all_fresh (Http.post_game_create userId opponentId d').2 ∧
  Http.post_game_end gameId winnerId d'
  = (Http.Reply 500 (Http.TextBody "Error ending game"), d').
Proof.
  intros Hfresh d'.
  assert (Hrun : Spec.all_fresh d').
  { subst d'. unfold Server.run.
    induction events as [|e events IH] using rev_ind; [exact Hfresh|].
    rewrite foldl_app. cbn [foldl]. by apply step_keeps_fresh. }
  split; [exact Hrun|]. split; [|reflexivity].
  unfold Http.post_game_create, Logic.createGame.
  pose proof (createGame_fresh userId opponentId d' Hrun) as Hcreated.
  destruct (Db.createGame userId opponentId initialBoard d') as [[id|e] d1];
    cbn [snd] in Hcreated |- *; [|exact Hcreated].
  by destruct (id =? 0).
Qed.

Lemma no_game_ever_progresses_witness :
  Spec.all_fresh
    (Server.db
       (Server.run Server.scenario_db
          [Server.Connect 11%nat (Some "1") (Some "1");
           Server.Move "1" (JStr "1") 3;
           Server.Move "1" (JStr "2") 3;
           Server.Close 11%nat "1"])).
Proof.
  apply (no_game_ever_progresses Server.scenario_db
           [Server.Connect 11%nat (Some "1") (Some "1");
            Server.Move "1" (JStr "1") 3;
            Server.Move "1" (JStr "2") 3;
            Server.Close 11%nat "1"] (JStr "1") (JStr "2") (JStr "1") "1").
  intros k g Hget.
  assert (Hgames : Db.game Server.scenario_db
            = <[1 := {| Db.player1_id := JStr "1"; Db.player2_id := JStr "2";
                        Db.current_turn := JStr "1";
                        Db.game_state := initialBoard;
                        Db.winner_id := JNull |}]> ∅) by reflexivity.
  rewrite Hgames in Hget.
  apply lookup_insert_Some in Hget as [[_ <-]|[_ Hget]]; [by split|].
  by rewrite lookup_empty in Hget.
Defined.

(** For strings the functions on body fields are the ones on strings. *)
Lemma body_login_strings `{Logic.Bcrypt} (raw pw : string) (d : Db.t) :
  LogicMore.getUserWithUsernamePassword (JStr raw) (JStr pw) d
  = (LogicMore.Resolved (Logic.getUserWithUsernamePassword raw pw d).1,
     (Logic.getUserWithUsernamePassword raw pw d).2).
Proof.
  unfold LogicMore.getUserWithUsernamePassword,
    Logic.getUserWithUsernamePassword.
  cbn [truthy LogicMore.validateSanitizeUsername].
  destruct (bool_decide (pw = "")); cbn [negb]; [reflexivity|].
  destruct (Db.getUserWithUsername (Logic.validateSanitizeUsername raw) d)
    as [[user|] d']; [|reflexivity].
  cbn [LogicMore.comparePasswords].
  destruct (Logic.comparePasswords pw (default "" (Db.password user)));
    reflexivity.
Qed.

Lemma body_login_user `{Logic.Bcrypt} (username password : jsval) (d d' : Db.t)
    (user : Db.user_row) :
  LogicMore.getUserWithUsernamePassword username password d
  = (LogicMore.Resolved (Logic.LoginUser user), d') →
  ∃ raw pw, username = JStr raw ∧ password = JStr pw.
Proof.
  unfold LogicMore.getUserWithUsernamePassword.
  destruct (truthy password); cbn [negb]; [|discriminate].
  destruct username as [| |b|n|raw]; cbn [LogicMore.validateSanitizeUsername];
    try discriminate.
  destruct (Db.getUserWithUsername (Logic.validateSanitizeUsername raw) d)
    as [[row|] d1]; [|discriminate].
  destruct password as [| |b|n|pw]; cbn [LogicMore.comparePasswords];
    try discriminate.
  eauto.
Qed.

Lemma body_addUser_strings `{Logic.Bcrypt} (raw pw confirm : string) (d : Db.t) :
  LogicMore.addUser (JStr raw) (JStr pw) (JStr confirm) d
  = (LogicMore.Resolved (Logic.addUser raw pw confirm d).1,
     (Logic.addUser raw pw confirm d).2).
Proof.
  unfold LogicMore.addUser, Logic.addUser, Logic.checkMatchingPasswords,
    strict_eq.
  cbn [truthy LogicMore.hashString LogicMore.validateSanitizeUsername].
  rewrite !negb_involutive.
  destruct (bool_decide (pw = "") || bool_decide (confirm = ""));
    [reflexivity|].
  destruct (decide (pw = confirm)) as [->|Hne].
  - rewrite !bool_decide_true by reflexivity. cbn [negb].
    destruct (Db.addUser _ _ d) as [response d']. reflexivity.
  - rewrite (bool_decide_false (JStr pw = JStr confirm)) by congruence.
    rewrite (bool_decide_false (pw = confirm)) by assumption. reflexivity.
Qed.

(** X22. POST /createAccount, on whatever the body holds.  A missing or
    otherwise falsy password or confirmation is answered 401 "Passwords are
    blank!".  Otherwise a password that is not a string is answered 500
    (bcrypt refuses it); a confirmation that differs from the password, 401
    "Passwords are not matching!"; and, the two being the same string, a
    username that is missing or not a string is answered 500; a username
    whose sanitized form a stored row already carries, 400; any other, 201 --
    with a body whose [userId] is undefined, the key being read off a
    number -- after adding one row that holds the sanitized name and the
    hash.  Nothing is stored unless the answer is 201. *)
Theorem create_account_statuses `{Logic.Bcrypt}
    (username password confirmPassword : jsval) (s : DbMore.t) :
  let result := Http.post_createAccount username password confirmPassword s in
  let failed := Http.Reply 500 (Http.ErrorBody "An error occurred on the server") in
  (truthy password = false ∨ truthy confirmPassword = false →
     result.1 = Http.Reply 401 (Http.ErrorBody "Passwords are blank!")) ∧
  (truthy password = true → truthy confirmPassword = true →
     (∀ pw, password ≠ JStr pw) → result.1 = failed) ∧
  (∀ pw, password = JStr pw → pw ≠ "" → truthy confirmPassword = true →
     confirmPassword ≠ password →
     result.1 = Http.Reply 401 (Http.ErrorBody "Passwords are not matching!")) ∧
  (∀ pw, password = JStr pw → pw ≠ "" → confirmPassword = password →
     ((∀ name, username ≠ JStr name) → result.1 = failed) ∧
     (∀ name, username = JStr name →
        let clean := Logic.validateSanitizeUsername name in
        let taken :=
          Exists (λ r, Db.name_matches clean r = true)
            (Db.users (DbMore.core s)) in
        (taken →
           result.1 = Http.Reply 400 (Http.ErrorBody "Username already exists")) ∧
        (¬ taken →
           result.1 = Http.Reply 201 (Http.CreatedBody JUndefined) ∧
           Db.users (DbMore.core result.2)
           = Db.users (DbMore.core s) ++
             [{| Db.user_id := Db.user_seq (DbMore.core s);
                 Db.username := clean;
                 Db.password := Some (Logic.bcrypt_hash pw) |}]))) ∧
  (Http.status_of result.1 ≠ 201 →
     Db.tables (DbMore.core result.2) = Db.tables (DbMore.core s)).
Proof.
  intros result failed. subst result failed.
  unfold Http.post_createAccount, LogicMore.addUser.
  split; [|split; [|split; [|split]]].
  - intros [-> | ->]; cbn [negb orb]; [reflexivity|].
    by rewrite orb_true_r.
  - intros -> -> Hnot. cbn [negb orb].
    destruct password as [| |b|n|pw]; cbn [LogicMore.hashString];
      try reflexivity.
    by destruct (Hnot pw).
  - intros pw -> Hpw -> Hdiffer. cbn [truthy LogicMore.hashString].
    rewrite (bool_decide_false (pw = "")) by assumption. cbn [negb orb].
    unfold strict_eq. rewrite bool_decide_false by congruence. reflexivity.
  - intros pw -> Hpw ->. cbn [truthy LogicMore.hashString].
    rewrite (bool_decide_false (pw = "")) by assumption. cbn [negb orb].
    unfold strict_eq. rewrite bool_decide_true by reflexivity. cbn [negb].
    split.
    + intros Hnot.
      destruct username as [| |b|n|name];
        cbn [LogicMore.validateSanitizeUsername]; try reflexivity.
      by destruct (Hnot name).
    + intros name ->.
      cbn [LogicMore.validateSanitizeUsername].
      unfold Db.addUser, Logic.hashString. cbn [Db.users Db.send]. split.
      * intros Htaken. rewrite bool_decide_true by assumption. reflexivity.
      * intros Hfree. rewrite bool_decide_false by assumption. by cbn.
  - destruct (negb (truthy password) || negb (truthy confirmPassword));
      [reflexivity|].
    destruct (LogicMore.hashString password) as [passHash|r]; [|reflexivity].
    destruct (negb (strict_eq password confirmPassword)); [reflexivity|].
    destruct (LogicMore.validateSanitizeUsername username) as [clean|e];
      [|reflexivity].
    unfold Db.addUser. cbn [Db.users Db.send].
    destruct (bool_decide (Exists _ _)); [reflexivity|].
    cbn. intros Hstatus. by destruct Hstatus.
Qed.

Lemma create_account_statuses_witness :
  (@Http.post_createAccount Logic.bcrypt_plain (JStr "carol") (JStr "pw")
     (JStr "pw") DbMore.empty).1
  = Http.Reply 201 (Http.CreatedBody JUndefined) ∧
  (@Http.post_createAccount Logic.bcrypt_plain JUndefined (JStr "pw")
     (JStr "pw") DbMore.empty).1
  = Http.Reply 500 (Http.ErrorBody "An error occurred on the server").
Proof.
  split.
  - pose proof (@create_account_statuses Logic.bcrypt_plain (JStr "carol")
                  (JStr "pw") (JStr "pw") DbMore.empty) as (_ & _ & _ & H & _).
    destruct (H "pw" eq_refl) as (_ & Hname); [discriminate|reflexivity|].
    destruct (Hname "carol" eq_refl) as (_ & Hfree).
    apply Hfree. intros Hex. by apply Exists_nil in Hex.
  - pose proof (@create_account_statuses Logic.bcrypt_plain JUndefined
                  (JStr "pw") (JStr "pw") DbMore.empty) as (_ & _ & _ & H & _).
    destruct (H "pw" eq_refl) as (Hmissing & _); [discriminate|reflexivity|].
    apply Hmissing. discriminate.
Defined.

(** ** Sessions *)

Section more_sessions.
Import DbMore.

Lemma head_filter_unique (l : list Db.user_row) (u : Db.user_row) :
  NoDup (Db.user_id <$> l) → u ∈ l →
  head (filter (λ r, Db.user_id r = Db.user_id u) l) = Some u.
Proof.
  induction l as [|x l IH]; intros Hnodup Hin; [by apply elem_of_nil in Hin|].
  rewrite fmap_cons in Hnodup. apply NoDup_cons in Hnodup as [Hx Hnodup].
  rewrite filter_cons. apply elem_of_cons in Hin as [->|Hin].
  - by rewrite decide_True.
  - rewrite decide_False; [by apply IH|].
    intros Heq. apply Hx. rewrite Heq. by apply list_elem_of_fmap_2.
Qed.

Lemma token_not_empty ip userId username :
  Logic.createSessionToken ip userId username ≠ "".
Proof.
  intros Hempty.
  assert (Hlen : String.length (Logic.createSessionToken ip userId username)
                 = 192%nat).
  { unfold Logic.createSessionToken, Logic.hashTokenPart.
    rewrite createWeave_interleave by (by rewrite !digest_length).
    rewrite interleave_length by (by rewrite !digest_length).
    by rewrite digest_length. }
  rewrite Hempty in Hlen. discriminate.
Qed.

(** Reading does not touch the rows. *)
Lemma login_keeps_users `{Logic.Bcrypt} raw password (d : Db.t) :
  Db.users (Logic.getUserWithUsernamePassword raw password d).2 = Db.users d.
Proof.
  unfold Logic.getUserWithUsernamePassword, Db.getUserWithUsername.
  case_bool_decide; [reflexivity|].
  repeat case_match; reflexivity.
Qed.

End more_sessions.

(** X23. A session that login has opened is accepted by /checkSession: with
    unique user ids in the table, after POST /login has answered 200 with a
    user id and a session id, a check of those two from the same client
    address, made before the stored expiry, answers 200 with the user's
    sanitized name -- whatever spelling of the name was typed at login.  (A
    login that is answered 200 was sent a string as username.) *)
Theorem login_then_check_session
    `{Logic.Bcrypt} `{DbMore.Clock} `{LogicMore.Zone}
    (req req' : Http.request) (username password : jsval)
    (today : LogicMore.Date) (now : DbMore.instant) (s s1 : DbMore.t)
    (uid sid : Z) :
  NoDup (Db.user_id <$> Db.users (DbMore.core s)) →
  Http.post_login req username password today s
  = (Http.Reply 200 (Http.LoginBody uid sid), s1) →
  Http.getClientIp req' = Http.getClientIp req →
  DbMore.later (LogicMore.generateExperationDate today) now = true →
  ∃ raw clean,
    username = JStr raw ∧
    Logic.validateSanitizeUsername raw = Some clean ∧
    Http.post_checkSession req' (JNum uid) (JNum sid) now s1
    = Http.Reply 200 (Http.UsernameBody clean).
Proof.
  intros Hnodup Hlogin Hip Hlater. unfold Http.post_login in Hlogin.
  destruct (LogicMore.getUserWithUsernamePassword username password
              (DbMore.core s)) as [[[error|user]|r] d] eqn:Hfound;
    try discriminate.
  destruct (body_login_user _ _ _ _ _ Hfound) as (raw & pw & -> & ->).
  rewrite body_login_strings in Hfound.
  pose proof (login_row_facts raw pw (DbMore.core s)) as Hfacts.
  pose proof (login_keeps_users raw pw (DbMore.core s)) as Husers.
  injection Hfound as Hfirst Hsecond. rewrite Hfirst in Hfacts.
  rewrite Hsecond in Husers.
  destruct Hfacts as (_ & Hin & clean & hash & Hclean & Hname & _).
  unfold LogicMore.setSession in Hlogin.
  cbn [LogicMore.validateSanitizeUsername] in Hlogin.
  rewrite Hclean in Hlogin.
  unfold DbMore.addSessionToUser in Hlogin.
  cbn [DbMore.with_core DbMore.session_seq DbMore.session DbMore.core
       DbMore.challenge_seq DbMore.accept_deny] in Hlogin.
  injection Hlogin as <- <- <-.
  exists raw, clean. split; [reflexivity|]. split; [exact Hclean|].
  unfold Http.post_checkSession, LogicMore.getUsernameById,
    DbMore.getUsernameById.
  cbn [Db.row_key DbMore.core]. rewrite Husers.
  rewrite (head_filter_unique _ user Hnodup Hin).
  cbn [fmap option_fmap option_map]. rewrite Hname.
  unfold LogicMore.getSessionTokenWithIdUserId, DbMore.getStoredSessionToken.
  cbn [Db.row_key DbMore.session]. rewrite lookup_insert_eq.
  cbn [DbMore.session_user DbMore.expr_date DbMore.token Db.row_key].
  rewrite bool_decide_true by reflexivity. rewrite Hlater. cbn [andb].
  rewrite Hip.
  rewrite bool_decide_false by apply token_not_empty.
  rewrite bool_decide_true by reflexivity. reflexivity.
Qed.

Lemma login_then_check_session_witness :
  let req := {| Http.x_forwarded_for := JUndefined;
                Http.remoteAddress := JStr "::1";
                Http.req_ip := JStr "::1" |} in
  let today := {| LogicMore.getFullYear := 2024; LogicMore.getMonth := 0;
                  LogicMore.getDate := 30; LogicMore.getHours := 9;
                  LogicMore.getMinutes := 5; LogicMore.getSeconds := 0 |} in
  let s := DbMore.with_core DbMore.empty
             (@Logic.addUser Logic.bcrypt_plain "alice" "pw" "pw" Db.empty).2 in
  ∃ raw clean,
    JStr "al.ice!" = JStr raw ∧
    Logic.validateSanitizeUsername raw = Some clean ∧
    @Http.post_checkSession Http.text_clock req (JNum 1) (JNum 1)
      "2024-02-01 23:59:59"
      (@Http.post_login Logic.bcrypt_plain Http.fixed_offset req
         (JStr "al.ice!") (JStr "pw") today s).2
    = Http.Reply 200 (Http.UsernameBody clean).
Proof.
  intros req today s.
  apply (@login_then_check_session Logic.bcrypt_plain Http.text_clock
           Http.fixed_offset req req (JStr "al.ice!") (JStr "pw") today
           "2024-02-01 23:59:59" s _ 1 1).
  - vm_compute. apply NoDup_singleton.
  - vm_compute. reflexivity.
  - reflexivity.
  - vm_compute. reflexivity.
Defined.

(** X24. /checkSession answers 500, not 401, when no row has the user id,
    when the session id is unknown, and when the session has expired; it
    answers 401 only when a live session of that user is found and its token
    is not the one recomputed from the caller's address. *)
Theorem check_session_failures `{DbMore.Clock}
    (req : Http.request) (userId sessionId : jsval) (now : DbMore.instant)
    (s : DbMore.t) :
  let answer := Http.post_checkSession req userId sessionId now s in
  let failed := Http.Reply 500 (Http.ErrorBody "An error occured on the server!") in
  (DbMore.getUsernameById userId (DbMore.core s) = None → answer = failed) ∧
  (∀ k, Db.row_key sessionId = Some k →
        DbMore.session s !! k = None → answer = failed) ∧
  (∀ k row, Db.row_key sessionId = Some k →
            DbMore.session s !! k = Some row →
            DbMore.later (DbMore.expr_date row) now = false →
            answer = failed) ∧
  (Http.status_of answer = 401 →
     ∃ name tok,
       DbMore.getUsernameById userId (DbMore.core s) = Some (Some name) ∧
       DbMore.getStoredSessionToken sessionId userId now s = Some tok ∧
       tok ≠ Logic.createSessionToken (Http.getClientIp req) userId name).
Proof.
  intros answer failed. subst answer failed.
  unfold Http.post_checkSession, LogicMore.getUsernameById,
    LogicMore.getSessionTokenWithIdUserId.
  split; [|split; [|split]].
  - by intros ->.
  - intros k Hk Hnone. unfold DbMore.getStoredSessionToken.
    rewrite Hk, Hnone. by repeat case_match.
  - intros k row Hk Hrow Hexp. unfold DbMore.getStoredSessionToken.
    rewrite Hk, Hrow, Hexp.
    destruct (Db.row_key (DbMore.session_user row)), (Db.row_key userId);
      rewrite ?andb_false_r; by repeat case_match.
  - destruct (DbMore.getUsernameById userId (DbMore.core s)) as [[name|]|];
      [|discriminate..].
    destruct (DbMore.getStoredSessionToken sessionId userId now s) as [tok|];
      [|discriminate].
    destruct (bool_decide (tok = "")) eqn:Hempty.
    + intros _. exists name, tok. split; [reflexivity|]. split; [reflexivity|].
      apply bool_decide_eq_true in Hempty as ->.
      intros Heq. by apply (token_not_empty (Http.getClientIp req) userId name).
    + cbn [orb].
      destruct (decide (tok = Logic.createSessionToken (Http.getClientIp req)
                                userId name)) as [Heq|Hne].
      * rewrite bool_decide_true by exact Heq. discriminate.
      * intros _. exists name, tok. auto.
Qed.

(** ** Challenges and games, across the two channels *)

(** X25. A challenge stored through POST /sendChallenge can be declined over
    the socket by any connected user: the decline is not checked against the
    challenged user.  Whoever sends "declineChallenge" with the id that the
    endpoint returned, the "challengeDeclined" push, carrying the decliner's
    id, goes to the socket registered under the text of the challenger's id
    as it was posted, and to nobody when no socket is registered there. *)
Theorem challenge_then_decline
    (userId challengerId : jsval) (s s1 : DbMore.t) (id : Z)
    (ws : Server.conn) (decliner : string) (fields : gmap string jsval)
    (st : Server.t) :
  Http.post_sendChallenge userId challengerId s
  = (Http.Reply 200 (Http.ChallengeIdBody id), s1) →
  Server.db st = DbMore.core s1 →
  fields !! "action" = Some (JStr "declineChallenge") →
  fields !! "challengeId" = Some (JNum id) →
  (Server.on_message ws decliner (Normal (Server.JsonObject fields)) st).1
  = Server.notify (JStr (to_String userId))
      (Server.MsgChallengeDeclined (JNum id) decliner) st.
Proof.
  intros Hpost Hdb Ha Hid.
  unfold Http.post_sendChallenge, LogicMore.sendChallenge,
    DbMore.sendAChallenge in Hpost.
  destruct (bool_decide (userId = JUndefined ∨ challengerId = JUndefined));
    [discriminate|].
  destruct (DbMore.challenge_seq s =? 0) eqn:Hzero; [discriminate|].
  injection Hpost as <- <-. apply Z.eqb_neq in Hzero.
  destruct (on_message_decline_facts ws decliner fields st Ha) as (_ & _ & Hrow).
  rewrite Hid in Hrow. cbn [from_option id] in Hrow.
  apply (Hrow {| Db.sender_id := userId; Db.challenger_id := challengerId |}).
  - cbn [truthy]. by apply negb_true_iff, Z.eqb_neq.
  - rewrite Hdb. unfold Logic.getChallengeWithId, Db.getChallengeWithId.
    cbn [fst Db.row_key mbind option_bind DbMore.core Db.challenge].
    apply lookup_insert_eq.
Qed.

Lemma challenge_then_decline_witness :
  (Server.on_message 12%nat "2"
     (Normal (Server.JsonObject
                {[ "action" := JStr "declineChallenge";
                   "challengeId" := JNum 1 ]}))
     (Server.with_db Server.scenario
        (DbMore.core
           (Http.post_sendChallenge (JNum 1) (JNum 2) DbMore.empty).2))).1
  = [(11%nat, Server.MsgChallengeDeclined (JNum 1) "2")].
Proof.
  apply (challenge_then_decline (JNum 1) (JNum 2) DbMore.empty
           (Http.post_sendChallenge (JNum 1) (JNum 2) DbMore.empty).2 1
           12%nat "2"
           {[ "action" := JStr "declineChallenge"; "challengeId" := JNum 1 ]}
           (Server.with_db Server.scenario
              (DbMore.core
                 (Http.post_sendChallenge (JNum 1) (JNum 2) DbMore.empty).2))).
  - reflexivity.
  - reflexivity.
  - reflexivity.
  - reflexivity.
Defined.

Lemma initialBoard_column_empty (col : Z) :
  0 ≤ col < 7 → cell_at initialBoard 0 (Z.to_nat col) = None.
Proof.
  intros Hcol.
  assert (Hcases : col = 0 ∨ col = 1 ∨ col = 2 ∨ col = 3 ∨ col = 4 ∨ col = 5
                   ∨ col = 6) by lia.
  destruct Hcases as [->|[->|[->|[->|[->|[->| ->]]]]]]; reflexivity.
Qed.

(** X26. A game made by POST /game/create is read back by GET /game/:gameId
    as the row that was inserted: the creator as player 1 and as the player
    on turn, the empty 6-by-7 board, no winner.  On that game a move request
    by anyone but the creator is answered "Not your turn", and a move request
    by the creator, in any column 0..6, passes every check and stops on the
    error of the update. *)
Theorem new_game_creator_moves_first
    (userId opponentId playerId : jsval) (gameId : string) (id col : Z)
    (d d1 : Db.t) (st : Server.t) :
  Http.post_game_create userId opponentId d
  = (Http.Reply 200 (Http.GameIdBody id), d1) →
  Db.row_key (JStr gameId) = Some id →
  Server.db st = d1 →
  0 ≤ col < 7 →
  let fresh := {| Db.player1_id := userId; Db.player2_id := opponentId;
                  Db.current_turn := userId; Db.game_state := initialBoard;
                  Db.winner_id := JNull |} in
  (Http.get_game gameId d1).1 = Http.Reply 200 (Http.GameBody (Some id) fresh) ∧
  (playerId ≠ userId →
     (Server.post_move gameId playerId col st).1.1
     = Server.Responded 400 "Not your turn") ∧
  (Server.post_move gameId userId col st).1.1
  = Server.Unhandled (ReferenceError "board").
Proof.
  intros Hcreate Hkey Hdb Hcol fresh.
  unfold Http.post_game_create, Logic.createGame in Hcreate.
  destruct (decide (userId = JUndefined ∨ opponentId = JUndefined)) as [Hu|Hu].
  { unfold Db.createGame in Hcreate. rewrite bool_decide_true in Hcreate by done.
    discriminate. }
  destruct (createGame_stores userId opponentId initialBoard d)
    as (Hid & Hrow & _); [tauto..|].
  destruct (Db.createGame userId opponentId initialBoard d) as [[k|e] d'];
    cbn [fst snd] in Hid, Hrow; [|discriminate].
  injection Hid as ->.
  destruct (Db.game_seq d =? 0); [discriminate|].
  injection Hcreate as <- <-.
  assert (Hget : ∀ d0, Db.game d0 = Db.game d' →
            fst (Logic.getGameWithId (JStr gameId) d0) = Some fresh).
  { intros d0 Hd0. unfold Logic.getGameWithId, Db.getGameWithId.
    cbn [fst]. rewrite Hkey. cbn [mbind option_bind]. by rewrite Hd0. }
  split; [|split].
  - unfold Http.get_game.
    pose proof (Hget d' eq_refl) as Hread.
    destruct (Logic.getGameWithId (JStr gameId) d') as [game d2].
    cbn [fst] in Hread. subst game. by rewrite Hkey.
  - intros Hother.
    rewrite (post_move_not_turn gameId playerId col st fresh Hcol);
      [reflexivity| |]; [apply Hget; by rewrite Hdb|].
    cbn [Db.current_turn fresh]. congruence.
  - rewrite (post_move_accepted gameId userId col st fresh 0 Hcol);
      [reflexivity| | | |].
    + apply Hget. by rewrite Hdb.
    + reflexivity.
    + cbn. lia.
    + by apply initialBoard_column_empty.
Qed.

Lemma new_game_creator_moves_first_witness :
  (Server.post_move "1" (JNum 7) 3
     (Server.initial (Http.post_game_create (JNum 7) (JNum 8) Db.empty).2)).1.1
  = Server.Unhandled (ReferenceError "board").
Proof.
  pose proof (new_game_creator_moves_first (JNum 7) (JNum 8) (JNum 8) "1" 1 3
                Db.empty (Http.post_game_create (JNum 7) (JNum 8) Db.empty).2
                (Server.initial
                   (Http.post_game_create (JNum 7) (JNum 8) Db.empty).2)) as H.
  destruct H as (_ & _ & H); [reflexivity|reflexivity|reflexivity|lia|].
  exact H.
Defined.

(** ** The expiry date *)

Section more_dates.
Import LogicMore.

Lemma days_in_month_bounds (y m : Z) : 28 ≤ days_in_month y m ≤ 31.
Proof.
  unfold days_in_month.
  destruct (m =? 1); [destruct (leap_year y); lia|].
  destruct ((m =? 3) || (m =? 5) || (m =? 8) || (m =? 10)); lia.
Qed.

Lemma two_digits_length (n : Z) :
  0 ≤ n ≤ 99 → String.length (padStart2 (pretty n)) = 2%nat.
Proof.
  intros Hn.
  assert (Hall : forallb (λ k, Nat.eqb (String.length (padStart2 (pretty k))) 2)
                   (seqZ 0 100) = true) by (vm_compute; reflexivity).
  rewrite forallb_forall in Hall.
  apply Nat.eqb_eq, Hall, list_elem_of_In, elem_of_seqZ. lia.
Qed.

Lemma four_digits_length (n : Z) :
  1000 ≤ n ≤ 9999 → String.length (pretty n) = 4%nat.
Proof.
  intros Hn.
  assert (Hall : forallb (λ k, Nat.eqb (String.length (pretty k)) 4)
                   (seqZ 1000 9000) = true) by (vm_compute; reflexivity).
  rewrite forallb_forall in Hall.
  apply Nat.eqb_eq, Hall, list_elem_of_In, elem_of_seqZ. lia.
Qed.

Lemma formatDateForSQL_length (date : Date) :
  Calendar.valid date → 1000 ≤ getFullYear date ≤ 9999 →
  String.length (formatDateForSQL date) = 19%nat.
Proof.
  intros (Hm & Hd & Hh & Hmi & Hs) Hy.
  pose proof (days_in_month_bounds (getFullYear date) (getMonth date)) as Hdim.
  unfold formatDateForSQL. rewrite !string_app_length.
  rewrite four_digits_length by assumption.
  rewrite !two_digits_length by lia. reflexivity.
Qed.

Lemma roll_over_three (y m day : Z) :
  1 ≤ day ≤ days_in_month y m →
  roll_over (Z.to_nat (day + 3)) y m (day + 3)
  = if day + 3 >? days_in_month y m
    then (Calendar.next_month y m, day + 3 - days_in_month y m)
    else (y, m, day + 3).
Proof.
  intros Hday.
  replace (Z.to_nat (day + 3)) with (S (S (Z.to_nat (day + 1)))) by lia.
  cbn [roll_over].
  destruct (day + 3 >? days_in_month y m) eqn:Hover; [|reflexivity].
  unfold Calendar.next_month.
  destruct (m =? 11).
  - pose proof (days_in_month_bounds (y + 1) 0).
    destruct (day + 3 - days_in_month y m >? days_in_month (y + 1) 0) eqn:Hgt;
      [lia|reflexivity].
  - pose proof (days_in_month_bounds y (m + 1)).
    destruct (day + 3 - days_in_month y m >? days_in_month y (m + 1)) eqn:Hgt;
      [lia|reflexivity].
Qed.

End more_dates.

(** X27. The expiry date of a session is the wall-clock time the server's
    zone has for the third calendar day after the day of login at the time
    of day of the login.  That day is in the same month when it exists
    there, otherwise in the month after (January of the next year after
    December), counted on from the end of the month; it is a day of the
    calendar.  When the zone has that wall-clock time -- it is not skipped by
    a change of daylight saving or of offset -- the expiry is that day at
    that time of day, and for years 1000 to 9998 its text is the 19
    characters of YYYY-MM-DD hh:mm:ss; when it is skipped the expiry is the
    time the zone moves it to. *)
Theorem expiry_is_three_days_on `{LogicMore.Zone} (today : LogicMore.Date) :
  Calendar.valid today →
  1000 ≤ LogicMore.getFullYear today ≤ 9998 →
  let y := LogicMore.getFullYear today in
  let m := LogicMore.getMonth today in
  let d := LogicMore.getDate today in
  ∃ target,
    Calendar.valid target ∧
    LogicMore.getHours target = LogicMore.getHours today ∧
    LogicMore.getMinutes target = LogicMore.getMinutes today ∧
    LogicMore.getSeconds target = LogicMore.getSeconds today ∧
    ((d + 3 ≤ LogicMore.days_in_month y m ∧
      LogicMore.getFullYear target = y ∧ LogicMore.getMonth target = m ∧
      LogicMore.getDate target = d + 3) ∨
     (LogicMore.days_in_month y m < d + 3 ∧
      (LogicMore.getFullYear target, LogicMore.getMonth target)
      = Calendar.next_month y m ∧
      LogicMore.getDate target = d + 3 - LogicMore.days_in_month y m)) ∧
    LogicMore.generateExperationDate today
    = LogicMore.formatDateForSQL (LogicMore.wall_clock target) ∧
    (LogicMore.wall_clock target = target →
     LogicMore.generateExperationDate today = LogicMore.formatDateForSQL target ∧
     String.length (LogicMore.generateExperationDate today) = 19%nat).
Proof.
  intros Hvalid Hyear y m d.
  pose proof Hvalid as (Hm & Hd & Hh & Hmi & Hs).
  fold y m d in Hm, Hd, Hyear.
  pose proof (days_in_month_bounds y m) as Hdim.
  set (rolled := LogicMore.roll_over (Z.to_nat (d + 3)) y m (d + 3)).
  exists {| LogicMore.getFullYear := rolled.1.1;
            LogicMore.getMonth := rolled.1.2;
            LogicMore.getDate := rolled.2;
            LogicMore.getHours := LogicMore.getHours today;
            LogicMore.getMinutes := LogicMore.getMinutes today;
            LogicMore.getSeconds := LogicMore.getSeconds today |}.
  assert (Htext : LogicMore.generateExperationDate today
            = LogicMore.formatDateForSQL
                (LogicMore.wall_clock
                   {| LogicMore.getFullYear := rolled.1.1;
                      LogicMore.getMonth := rolled.1.2;
                      LogicMore.getDate := rolled.2;
                      LogicMore.getHours := LogicMore.getHours today;
                      LogicMore.getMinutes := LogicMore.getMinutes today;
                      LogicMore.getSeconds := LogicMore.getSeconds today |})).
  { unfold LogicMore.generateExperationDate, LogicMore.setDate.
    fold y m d rolled. by destruct rolled as [[? ?] ?]. }
  assert (Hshape :
    (0 ≤ rolled.1.2 ≤ 11 ∧
     1 ≤ rolled.2 ≤ LogicMore.days_in_month rolled.1.1 rolled.1.2 ∧
     1000 ≤ rolled.1.1 ≤ 9999) ∧
    ((d + 3 ≤ LogicMore.days_in_month y m ∧
      rolled.1.1 = y ∧ rolled.1.2 = m ∧ rolled.2 = d + 3) ∨
     (LogicMore.days_in_month y m < d + 3 ∧
      (rolled.1.1, rolled.1.2) = Calendar.next_month y m ∧
      rolled.2 = d + 3 - LogicMore.days_in_month y m))).
  { subst rolled. rewrite (roll_over_three y m d Hd).
    destruct (d + 3 >? LogicMore.days_in_month y m) eqn:Hover.
    - unfold Calendar.next_month. destruct (m =? 11) eqn:Hdec.
      + pose proof (days_in_month_bounds (y + 1) 0).
        cbn [fst snd]. split; [lia|]. right. split; [lia|]. by split.
      + pose proof (days_in_month_bounds y (m + 1)).
        apply Z.eqb_neq in Hdec.
        cbn [fst snd]. split; [lia|]. right. split; [lia|]. by split.
    - cbn [fst snd]. split; [lia|]. left. split; [lia|]. auto. }
  destruct Hshape as ((Hm' & Hd' & Hy') & Hwhere).
  assert (Hv : Calendar.valid
            {| LogicMore.getFullYear := rolled.1.1;
               LogicMore.getMonth := rolled.1.2;
               LogicMore.getDate := rolled.2;
               LogicMore.getHours := LogicMore.getHours today;
               LogicMore.getMinutes := LogicMore.getMinutes today;
               LogicMore.getSeconds := LogicMore.getSeconds today |}).
  { unfold Calendar.valid. cbn. auto. }
  split; [exact Hv|]. do 3 (split; [reflexivity|]).
  split; [exact Hwhere|]. split; [exact Htext|].
  intros Hexists. rewrite Htext, Hexists. split; [reflexivity|].
  by apply formatDateForSQL_length.
Qed.

Lemma expiry_is_three_days_on_witness :
  @LogicMore.generateExperationDate Http.fixed_offset
    {| LogicMore.getFullYear := 2024; LogicMore.getMonth := 11;
       LogicMore.getDate := 30; LogicMore.getHours := 9;
       LogicMore.getMinutes := 5; LogicMore.getSeconds := 0 |}
  = "2025-01-02 09:05:00".
Proof.
  destruct (@expiry_is_three_days_on Http.fixed_offset
              {| LogicMore.getFullYear := 2024; LogicMore.getMonth := 11;
                 LogicMore.getDate := 30; LogicMore.getHours := 9;
                 LogicMore.getMinutes := 5; LogicMore.getSeconds := 0 |})
    as (target & _ & Hh & Hmi & Hs & Hwhere & _ & Hexists).
  - unfold Calendar.valid. cbn. lia.
  - cbn. lia.
  - destruct (Hexists eq_refl) as [-> _].
    cbn in Hh, Hmi, Hs, Hwhere.
    destruct Hwhere as [(Hle & _)|(_ & Hym & Hd)]; [lia|].
    injection Hym as Hy Hm.
    destruct target as [ty tm td th tmi ts]. cbn in *. subst.
    reflexivity.
Defined.

(** ** The login endpoint *)

(** X28. POST /login, on whatever the body holds.  A missing or otherwise
    falsy password is answered 401 "Please enter a password!".  Otherwise a
    username that is missing or not a string is answered 500.  With a string
    as username and a string as password the answer is 200 or 401 and never
    500: once the lookup has found a user the name has passed the sanitizer,
    so the token can be made; a 200 returns the key of a new session row
    that holds the user's id, the token of the caller's address, that id and
    the sanitized name, and the expiry date, the sessions stored before being
    kept.  With a string as username and a truthy password that is not a
    string the answer is 500 when a row is found under the sanitized name
    (bcrypt refuses the password) and 401 when none is.  No session is
    stored unless the answer is 200. *)
Theorem login_answers `{Logic.Bcrypt} `{DbMore.Clock} `{LogicMore.Zone}
    (req : Http.request) (username password : jsval) (today : LogicMore.Date)
    (s : DbMore.t) :
  let result := Http.post_login req username password today s in
  let failed := Http.Reply 500 (Http.ErrorBody "Internal Server Error Occured") in
  (truthy password = false →
     result.1 = Http.Reply 401 (Http.ErrorBody "Please enter a password!")) ∧
  (truthy password = true → (∀ raw, username ≠ JStr raw) →
     result.1 = failed) ∧
  (∀ raw, username = JStr raw →
     truthy password = true → (∀ pw, password ≠ JStr pw) →
     match (Db.getUserWithUsername (Logic.validateSanitizeUsername raw)
              (DbMore.core s)).1 with
     | Some _ => result.1 = failed
     | None =>
         result.1
         = Http.Reply 401 (Http.ErrorBody "Username or password incorrect!")
     end) ∧
  (∀ raw pw, username = JStr raw → password = JStr pw →
     Http.status_of result.1 = 401 ∨
     ∃ user clean,
       user ∈ Db.users (DbMore.core s) ∧
       Db.username user = Some clean ∧
       Logic.validateSanitizeUsername raw = Some clean ∧
       result.1 = Http.Reply 200 (Http.LoginBody (Db.user_id user)
                                    (DbMore.session_seq s)) ∧
       DbMore.session result.2
       = <[DbMore.session_seq s :=
             {| DbMore.session_user := JNum (Db.user_id user);
                DbMore.token :=
                  Logic.createSessionToken (Http.getClientIp req)
                    (JNum (Db.user_id user)) clean;
                DbMore.expr_date := LogicMore.generateExperationDate today |}]>
           (DbMore.session s)) ∧
  (Http.status_of result.1 ≠ 200 →
     DbMore.session result.2 = DbMore.session s).
Proof.
  intros result failed. subst result failed. unfold Http.post_login.
  split; [|split; [|split; [|split]]].
  - intros Hfalsy. unfold LogicMore.getUserWithUsernamePassword.
    by rewrite Hfalsy.
  - intros Htruthy Hnot. unfold LogicMore.getUserWithUsernamePassword.
    rewrite Htruthy. cbn [negb].
    destruct username as [| |b|n|raw];
      cbn [LogicMore.validateSanitizeUsername]; try reflexivity.
    by destruct (Hnot raw).
  - intros raw -> Htruthy Hnot. unfold LogicMore.getUserWithUsernamePassword.
    rewrite Htruthy. cbn [negb LogicMore.validateSanitizeUsername].
    destruct (Db.getUserWithUsername (Logic.validateSanitizeUsername raw)
                (DbMore.core s)) as [[user|] d]; cbn [fst]; [|reflexivity].
    destruct password as [| |b|n|pw]; cbn [LogicMore.comparePasswords];
      try reflexivity.
    by destruct (Hnot pw).
  - intros raw pw -> ->. rewrite body_login_strings.
    pose proof (login_row_facts raw pw (DbMore.core s)) as Hfacts.
    destruct (Logic.getUserWithUsernamePassword raw pw (DbMore.core s))
      as [[error|user] d]; cbn [fst snd] in Hfacts |- *.
    + by left.
    + destruct Hfacts as (_ & Hin & clean & hash & Hclean & Hname & _).
      right. exists user, clean.
      unfold LogicMore.setSession.
      cbn [LogicMore.validateSanitizeUsername]. rewrite Hclean.
      unfold DbMore.addSessionToUser. cbn. auto.
  - destruct (LogicMore.getUserWithUsernamePassword username password
                (DbMore.core s)) as [[[error|user]|r] d]; [reflexivity| |reflexivity].
    unfold LogicMore.setSession.
    destruct (LogicMore.validateSanitizeUsername username) as [[clean|]|e];
      [|reflexivity..].
    unfold DbMore.addSessionToUser. cbn. intros Hstatus. by destruct Hstatus.
Qed.

Lemma login_answers_witness :
  (@Http.post_login Logic.bcrypt_plain Http.fixed_offset
     {| Http.x_forwarded_for := JUndefined; Http.remoteAddress := JStr "::1";
        Http.req_ip := JStr "::1" |}
     JUndefined (JStr "pw")
     {| LogicMore.getFullYear := 2024; LogicMore.getMonth := 0;
        LogicMore.getDate := 30; LogicMore.getHours := 9;
        LogicMore.getMinutes := 5; LogicMore.getSeconds := 0 |}
     DbMore.empty).1
  = Http.Reply 500 (Http.ErrorBody "Internal Server Error Occured").
Proof.
  pose proof (@login_answers Logic.bcrypt_plain Http.text_clock
                Http.fixed_offset
                {| Http.x_forwarded_for := JUndefined;
                   Http.remoteAddress := JStr "::1";
                   Http.req_ip := JStr "::1" |}
                JUndefined (JStr "pw")
                {| LogicMore.getFullYear := 2024; LogicMore.getMonth := 0;
                   LogicMore.getDate := 30; LogicMore.getHours := 9;
                   LogicMore.getMinutes := 5; LogicMore.getSeconds := 0 |}
                DbMore.empty) as (_ & Hmissing & _).
  apply Hmissing; [reflexivity|discriminate].
Defined.

(** ** The caller's address *)

(** X29. [getClientIp] never returns the loopback address in its IPv6 form,
    whatever the request: "::1" becomes "127.0.0.1", also for a request
    without the header.  The address is taken from the x-forwarded-for
    header whenever the request carries one: two requests with the same
    header get the same address, whatever sockets they came through. *)
Theorem forwarded_header_is_the_address (req req' : Http.request) :
  Http.getClientIp req ≠ JStr "::1" ∧
  (truthy (Http.x_forwarded_for req) = false →
   Http.remoteAddress req = JStr "::1" →
   Http.getClientIp req = JStr "127.0.0.1") ∧
  (truthy (Http.x_forwarded_for req) = true →
   Http.x_forwarded_for req' = Http.x_forwarded_for req →
   Http.getClientIp req' = Http.getClientIp req ∧
   (Http.x_forwarded_for req ≠ JStr "::1" →
    Http.getClientIp req = Http.x_forwarded_for req)).
Proof.
  split; [|split].
  - unfold Http.getClientIp, strict_eq. case_bool_decide; [discriminate|assumption].
  - intros Hnone Hloop. unfold Http.getClientIp, Http.js_or.
    rewrite Hnone, Hloop. reflexivity.
  - intros Hh Hreq'.
    assert (Hip : ∀ r, Http.x_forwarded_for r = Http.x_forwarded_for req →
              Http.getClientIp r
              = if strict_eq (Http.x_forwarded_for req) (JStr "::1")
                then JStr "127.0.0.1" else Http.x_forwarded_for req).
    { intros r Hr. unfold Http.getClientIp, Http.js_or. rewrite Hr, Hh.
      by rewrite Hh. }
    rewrite (Hip req eq_refl), (Hip req' Hreq').
    split; [reflexivity|]. unfold strict_eq.
    intros Hne. by rewrite bool_decide_false.
Qed.

Lemma forwarded_header_is_the_address_witness :
  Http.getClientIp {| Http.x_forwarded_for := JUndefined;
                      Http.remoteAddress := JStr "::1";
                      Http.req_ip := JStr "::1" |}
  = JStr "127.0.0.1" ∧
  Http.getClientIp {| Http.x_forwarded_for := JStr "10.0.0.7";
                      Http.remoteAddress := JStr "192.168.1.20";
                      Http.req_ip := JStr "192.168.1.20" |}
  = Http.getClientIp {| Http.x_forwarded_for := JStr "10.0.0.7";
                        Http.remoteAddress := JStr "::1";
                        Http.req_ip := JStr "::1" |}.
Proof.
  split.
  - destruct (forwarded_header_is_the_address
                {| Http.x_forwarded_for := JUndefined;
                   Http.remoteAddress := JStr "::1";
                   Http.req_ip := JStr "::1" |}
                {| Http.x_forwarded_for := JUndefined;
                   Http.remoteAddress := JStr "::1";
                   Http.req_ip := JStr "::1" |}) as (_ & Hloop & _).
    apply Hloop; reflexivity.
  - destruct (forwarded_header_is_the_address
                {| Http.x_forwarded_for := JStr "10.0.0.7";
                   Http.remoteAddress := JStr "::1"; Http.req_ip := JStr "::1" |}
                {| Http.x_forwarded_for := JStr "10.0.0.7";
                   Http.remoteAddress := JStr "192.168.1.20";
                   Http.req_ip := JStr "192.168.1.20" |}) as (_ & _ & Hsame).
    destruct Hsame as (Hsame & _); [reflexivity..|]. exact Hsame.
Defined.

(** ** The lobby *)

(** X15. The lobby is there from the start and no event removes it: after
    any sequence of connections, messages, closes and move requests the room
    map has a "lobby" entry, also when every socket in it has closed (the
    close handler deletes other rooms that it empties, never this one). *)
Theorem lobby_survives_any_run (d : Db.t) (events : list Server.event) :
  is_Some (Server.rooms (Server.run d events) !! Server.lobby).
Proof.
  unfold Server.run. induction events as [|e events IH] using rev_ind.
  - cbn [foldl]. unfold Server.initial. cbn [Server.rooms].
    rewrite lookup_singleton_eq. eauto.
  - rewrite foldl_app. cbn [foldl]. by apply step_keeps_lobby.
Qed.
